(** * ec2-macos-utils: watchdog, sysdiagnose collector and host identity

    A shallow embedding of the Go sources

    - [internal/sysdiagnose/create_sysdiagnose.go]  ([Collect], [sysdiagnoseArgs])
    - [internal/cmd/debug.go]                       ([runSysdiagnose], the [RunE] of
                                                     [createSysdiagnoseCommand],
                                                     [GetHostIOPlatformUUID],
                                                     [parseIOPlatformUUID])
    - [internal/cmd/check_imds.go]                  ([runCheckIMDS])
    - [internal/cmd/network_health_monitor.go]      ([PreRunE], [RunE],
                                                     [runNetworkHealthMonitor],
                                                     [checkNetworkAndCollect])

    Go strings are byte sequences and are modelled by [string] (a list of
    [ascii], one per byte).  The Go standard library functions the sources
    call ([path/filepath], [unicode/utf8], [strings], [bufio], [os]) are
    modelled on a POSIX host, which is where the program runs (macOS).

    The file system is a finite map from cleaned path names to nodes; the
    outcome of every operating-system call whose error the sources inspect
    or discard is drawn from an explicit environment record, so that every
    error branch of the sources is reachable in the model. *)

From Stdlib Require Import String Ascii NArith ZArith List Lia Bool.
From stdpp Require Import gmap strings list.

Local Open Scope string_scope.

(** ** Results of fallible Go calls: [(value, error)] pairs *)

Inductive result (A : Type) : Type :=
| Ok (a : A)
| Err (msg : string).
Arguments Ok {A} a.
Arguments Err {A} msg.

Definition is_ok {A} (r : result A) : bool :=
  match r with Ok _ => true | Err _ => false end.

Definition is_err {A} (r : result A) : bool := negb (is_ok r).

(** ** [path/filepath] on a POSIX host *)

Module filepath.

Definition Separator : ascii := "/"%char.

Definition IsPathSeparator (c : ascii) : bool := Ascii.eqb c Separator.

(** The elements of a path: the pieces between separators, empty pieces
    included, so that [split] is never the empty list. *)
Fixpoint split (s : string) : list string :=
  match s with
  | EmptyString => [EmptyString]
  | String c r =>
      if IsPathSeparator c then EmptyString :: split r
      else match split r with
           | e :: es => String c e :: es
           | [] => [String c EmptyString]
           end
  end.

Fixpoint join (es : list string) : string :=
  match es with
  | [] => EmptyString
  | [e] => e
  | e :: es' => e ++ String Separator (join es')
  end.

Definition rooted (s : string) : bool :=
  match s with
  | String c _ => IsPathSeparator c
  | EmptyString => false
  end.

(** The loop of [Clean].  [out] is the output buffer as a stack of
    elements, last written first.  An empty element and [.] are skipped;
    [..] removes the last written element when there is one that is not
    itself a leading [..] (Go: [out.w > dotdot]), is dropped at the root,
    and is appended otherwise. *)
Fixpoint clean_loop (is_rooted : bool) (out : list string) (es : list string)
  : list string :=
  match es with
  | [] => rev out
  | e :: es' =>
      if String.eqb e "" || String.eqb e "." then clean_loop is_rooted out es'
      else if String.eqb e ".." then
        match out with
        | top :: out' =>
            if String.eqb top ".." then clean_loop is_rooted (".." :: out) es'
            else clean_loop is_rooted out' es'
        | [] =>
            if is_rooted then clean_loop is_rooted [] es'
            else clean_loop is_rooted [".."] es'
        end
      else clean_loop is_rooted (e :: out) es'
  end.

Definition Clean (path : string) : string :=
  if String.eqb path "" then "."
  else
    let es := clean_loop (rooted path) [] (split path) in
    if rooted path then String Separator (join es)
    else match es with
         | [] => "."
         | _ => join es
         end.

(** [Join]: leading empty elements are ignored, the rest is joined with
    separators and cleaned; all elements empty gives the empty string. *)
Fixpoint Join (elem : list string) : string :=
  match elem with
  | [] => ""
  | e :: rest =>
      if String.eqb e "" then Join rest
      else Clean (join elem)
  end.

Fixpoint strip_trailing_seps_rev (r : list ascii) : list ascii :=
  match r with
  | c :: r' => if IsPathSeparator c then strip_trailing_seps_rev r' else r
  | [] => []
  end.

(** The bytes after the last separator, given the path reversed. *)
Fixpoint last_elem_rev (r : list ascii) (acc : list ascii) : list ascii :=
  match r with
  | c :: r' => if IsPathSeparator c then acc else last_elem_rev r' (c :: acc)
  | [] => acc
  end.

Definition Base (path : string) : string :=
  if String.eqb path "" then "."
  else
    let r := strip_trailing_seps_rev (rev (list_ascii_of_string path)) in
    match last_elem_rev r [] with
    | [] => String Separator ""
    | l => string_of_list_ascii l
    end.

(** The path up to and including its last separator, given it reversed. *)
Fixpoint upto_last_sep_rev (r : list ascii) : list ascii :=
  match r with
  | c :: r' => if IsPathSeparator c then r else upto_last_sep_rev r'
  | [] => []
  end.

Definition Dir (path : string) : string :=
  Clean (string_of_list_ascii
           (rev (upto_last_sep_rev (rev (list_ascii_of_string path))))).

End filepath.

(** ** [unicode/utf8] and [unicode]: decoding runes from bytes *)

Module utf8.

Definition RuneError : N := 0xFFFD%N.

(** The information Go keeps in its [first] table for a leading byte:
    an ASCII byte, an invalid leading byte, or the start of a sequence of
    [size] bytes whose second byte must lie in [lo..hi]. *)
Inductive lead : Type :=
| LAscii
| LInvalid
| LSeq (size : nat) (lo hi : N).

Definition first (b : N) : lead :=
  (if b <? 0x80 then LAscii
   else if b <? 0xC2 then LInvalid
   else if b <? 0xE0 then LSeq 2 0x80 0xBF
   else if b =? 0xE0 then LSeq 3 0xA0 0xBF
   else if b <? 0xED then LSeq 3 0x80 0xBF
   else if b =? 0xED then LSeq 3 0x80 0x9F
   else if b <? 0xF0 then LSeq 3 0x80 0xBF
   else if b =? 0xF0 then LSeq 4 0x90 0xBF
   else if b <? 0xF4 then LSeq 4 0x80 0xBF
   else if b =? 0xF4 then LSeq 4 0x80 0x8F
   else LInvalid)%N.

Definition in_range (lo hi b : N) : bool := ((lo <=? b) && (b <=? hi))%N.

(** A continuation byte, [locb..hicb]. *)
Definition is_cont (b : N) : bool := in_range 0x80 0xBF b.

(** [DecodeRuneInString]: the first rune of [s] and its width in bytes.
    Every malformed or truncated sequence decodes to [(RuneError, 1)]. *)
Definition DecodeRune (s : list ascii) : N * nat :=
  match s with
  | [] => (RuneError, 0)
  | c0 :: t =>
      let s0 := N_of_ascii c0 in
      match first s0 with
      | LAscii => (s0, 1)
      | LInvalid => (RuneError, 1)
      | LSeq 2 lo hi =>
          match t with
          | c1 :: _ =>
              let s1 := N_of_ascii c1 in
              if in_range lo hi s1
              then (N.lor (N.shiftl (N.land s0 0x1F) 6) (N.land s1 0x3F), 2)
              else (RuneError, 1)
          | _ => (RuneError, 1)
          end
      | LSeq 3 lo hi =>
          match t with
          | c1 :: c2 :: _ =>
              let s1 := N_of_ascii c1 in
              let s2 := N_of_ascii c2 in
              if in_range lo hi s1 && is_cont s2
              then (N.lor (N.shiftl (N.land s0 0x0F) 12)
                      (N.lor (N.shiftl (N.land s1 0x3F) 6) (N.land s2 0x3F)), 3)
              else (RuneError, 1)
          | _ => (RuneError, 1)
          end
      | LSeq _ lo hi =>
          match t with
          | c1 :: c2 :: c3 :: _ =>
              let s1 := N_of_ascii c1 in
              let s2 := N_of_ascii c2 in
              let s3 := N_of_ascii c3 in
              if in_range lo hi s1 && is_cont s2 && is_cont s3
              then (N.lor (N.shiftl (N.land s0 0x07) 18)
                      (N.lor (N.shiftl (N.land s1 0x3F) 12)
                         (N.lor (N.shiftl (N.land s2 0x3F) 6) (N.land s3 0x3F))), 4)
              else (RuneError, 1)
          | _ => (RuneError, 1)
          end
      end
  end.

(** What [for i, r := range s] iterates over: every rune of [s] with the
    bytes it was decoded from. *)
Fixpoint runes_fuel (fuel : nat) (s : list ascii) : list (N * list ascii) :=
  match fuel with
  | O => []
  | S fuel' =>
      match s with
      | [] => []
      | _ :: _ =>
          let '(r, n) := DecodeRune s in
          (r, firstn n s) :: runes_fuel fuel' (skipn n s)
      end
  end.

Definition Runes (s : list ascii) : list (N * list ascii) :=
  runes_fuel (length s) s.

End utf8.

Module unicode.

(** [unicode.IsSpace]: the Latin-1 spaces and the [White_Space] table. *)
Definition IsSpace (r : N) : bool :=
  (if r <=? 0xFF then
     (9 <=? r) && (r <=? 13) || (r =? 0x20) || (r =? 0x85) || (r =? 0xA0)
   else
     (r =? 0x1680) || (0x2000 <=? r) && (r <=? 0x200A)
     || (r =? 0x2028) || (r =? 0x2029) || (r =? 0x202F)
     || (r =? 0x205F) || (r =? 0x3000))%N.

End unicode.

(** ** [strings] *)

Module strings.

(** [Contains s substr]. *)
Fixpoint Contains (s substr : string) : bool :=
  String.prefix substr s
  || match s with
     | String _ r => Contains r substr
     | EmptyString => false
     end.

(** [ReplaceAll s old new] for a one-byte [old]. *)
Fixpoint ReplaceAll (s : string) (old : ascii) (new : string) : string :=
  match s with
  | EmptyString => EmptyString
  | String c r =>
      if Ascii.eqb c old then new ++ ReplaceAll r old new
      else String c (ReplaceAll r old new)
  end.

(** The loop of [FieldsFunc].  [start] is [None] when no field is open
    (Go: [start < 0]) and otherwise holds the bytes of the open field. *)
Fixpoint fields_loop (f : N -> bool) (start : option (list ascii))
    (rs : list (N * list ascii)) : list (list ascii) :=
  match rs with
  | [] => match start with
          | Some w => [w]
          | None => []
          end
  | (r, bs) :: rs' =>
      if f r then
        match start with
        | Some w => w :: fields_loop f None rs'
        | None => fields_loop f None rs'
        end
      else
        match start with
        | Some w => fields_loop f (Some (w ++ bs)%list) rs'
        | None => fields_loop f (Some bs) rs'
        end
  end.

Definition FieldsFunc (s : string) (f : N -> bool) : list string :=
  map string_of_list_ascii
    (fields_loop f None (utf8.Runes (list_ascii_of_string s))).

(** [Fields] splits around runs of white space as defined by
    [unicode.IsSpace].  (Go's separate loop for all-ASCII strings computes
    the same fields, [IsSpace] on ASCII being the table it uses.) *)
Definition Fields (s : string) : list string := FieldsFunc s unicode.IsSpace.

Fixpoint mem_byte (c : ascii) (cutset : string) : bool :=
  match cutset with
  | EmptyString => false
  | String d r => Ascii.eqb c d || mem_byte c r
  end.

Fixpoint TrimLeft (s cutset : string) : string :=
  match s with
  | String c r => if mem_byte c cutset then TrimLeft r cutset else s
  | EmptyString => EmptyString
  end.

Definition rev_string (s : string) : string :=
  string_of_list_ascii (rev (list_ascii_of_string s)).

(** [Trim] for a cutset of ASCII bytes. *)
Definition Trim (s cutset : string) : string :=
  rev_string (TrimLeft (rev_string (TrimLeft s cutset)) cutset).

End strings.

(** ** [bufio.Scanner] with the default split function [ScanLines] *)

Module bufio.

Definition MaxScanTokenSize : nat := 64 * 1024.

Definition newline : ascii := ascii_of_nat 10.
Definition carriage_return : ascii := ascii_of_nat 13.

(** The newline-terminated pieces of the input, and the final piece that
    no newline ends when it is not empty. *)
Fixpoint raw_lines (cur : string) (s : string) : list string :=
  match s with
  | EmptyString => if String.eqb cur "" then [] else [strings.rev_string cur]
  | String c r =>
      if Ascii.eqb c newline then strings.rev_string cur :: raw_lines "" r
      else raw_lines (String c cur) r
  end.

Definition dropCR (data : string) : string :=
  match list_ascii_of_string (strings.rev_string data) with
  | c :: r => if Ascii.eqb c carriage_return
              then string_of_list_ascii (rev r) else data
  | [] => data
  end.

(** The token [Scan] delivers for the next pending line, or [None] when it
    stops with [ErrTooLong]: the line fills the buffer of
    [MaxScanTokenSize] bytes before its newline is seen. *)
Definition token (raw : string) : option string :=
  if Nat.leb MaxScanTokenSize (String.length raw) then None
  else Some (dropCR raw).

End bufio.

(** ** [internal/system]: the host identifier *)

Module system.

Definition platformUUIDKeyToken : string :=
  String (ascii_of_nat 34) ("IOPlatformUUID" ++ String (ascii_of_nat 34) "").

Definition quote : ascii := ascii_of_nat 34.
Definition quote_s : string := String quote "".

(** The body of the scanning loop of [parseIOPlatformUUID] on one line:
    [Some uuid] when the loop returns [uuid], [None] when it continues
    with the next line. *)
Definition match_line (line : string) : option string :=
  if negb (strings.Contains line platformUUIDKeyToken) then None
  else
    let fields := strings.Fields (strings.ReplaceAll line quote "") in
    if negb (Nat.eqb (length fields) 3) then None
    else
      let key := nth 0 fields "" in
      let uuid := nth 2 fields "" in
      if negb (String.eqb key (strings.Trim platformUUIDKeyToken quote_s)) then None
      else if negb (String.eqb uuid "") then Some uuid
      else None.

(** [for scanner.Scan() { ... }] followed by the check of
    [scanner.Err()], over the lines still to be scanned. *)
Fixpoint scan_loop (pending : list string) : result string :=
  match pending with
  | [] => Err "UUID not found in ioreg output"
  | raw :: rest =>
      match bufio.token raw with
      | None => Err "error scanning ioreg output: bufio.Scanner: token too long"
      | Some line =>
          match match_line line with
          | Some uuid => Ok uuid
          | None => scan_loop rest
          end
      end
  end.

Definition parseIOPlatformUUID (data : string) : result string :=
  scan_loop (bufio.raw_lines "" data).

(** [GetHostIOPlatformUUID]: [ioreg] is the outcome of running the
    registry query, its standard output when the process succeeded. *)
Definition GetHostIOPlatformUUID (ioreg : result string) : result string :=
  match ioreg with
  | Err e => Err ("ioreg query: " ++ e)
  | Ok out => parseIOPlatformUUID out
  end.

End system.

(** ** The world the program runs in: file system and call log *)

(** The calls that the specification counts.  [EvProbe] is logged by [runCheckIMDS] with
    what the probe found, [EvCollect] by [runSysdiagnose] when its call of
    [sysdiagnose.Collect] returns, with whether it returned a stream,
    [EvRun] when the external collector is started, [EvPersist] by
    [runSysdiagnose] once the archive has been copied to its final path. *)
Inductive event : Type :=
| EvProbe (reachable : bool)
| EvCollect (archiveName : string) (collected : bool)
| EvRun (argv : list string)
| EvPersist (path : string) (written : nat).

Inductive node : Type :=
| NDir (perm : N)
| NFile (perm : N) (ino : nat).

(** Directory entries are keyed by cleaned path; file contents live in
    [store] under an inode number, so that removing a directory entry does
    not touch the bytes an open handle reads. *)
Record World : Type := mkWorld {
  names : gmap string node;
  store : gmap nat string;
  opened : gset nat;
  next_ino : nat;
  log : list event
}.

(** State passing: a Go function with side effects is a function from the
    world before the call to its results and the world after it. *)
Definition M (A : Type) : Type := World -> A * World.

Definition ret {A} (a : A) : M A := fun w => (a, w).

Definition bind {A B} (m : M A) (k : A -> M B) : M B :=
  fun w => let '(a, w') := m w in k a w'.

(** [defer d] around [body]: [d] runs when [body] returns, whatever it
    returns, and its own result is dropped. *)
Definition defer {A B} (d : M B) (body : M A) : M A :=
  fun w => let '(a, w') := body w in (a, snd (d w')).

Definition emit (e : event) : M unit :=
  fun w => (tt, mkWorld (names w) (store w) (opened w) (next_ino w)
                  (log w ++ [e])%list).

Declare Scope go_scope.
Delimit Scope go_scope with go.
Notation "x <- m ;; k" := (bind m (fun x => k))
  (at level 100, m at next level, right associativity) : go_scope.
Notation "m ;;; k" := (bind m (fun _ => k))
  (at level 100, right associativity) : go_scope.
(** [if err != nil { return ..., fmt.Errorf(msg + ": %w", err) }] *)
Notation "x <- m 'orwrap' msg ;; k" :=
  (bind m (fun r => match r with
                    | Err e => ret (Err (msg ++ e))
                    | Ok x => k
                    end))
  (at level 100, m at next level, msg at next level, right associativity) : go_scope.
Local Open Scope go_scope.

Definition set_names (f : gmap string node -> gmap string node) (w : World) : World :=
  mkWorld (f (names w)) (store w) (opened w) (next_ino w) (log w).

Module os.

Import filepath.

(** File modes [0700] and [0400]. *)
Definition perm_0700 : N := 448.
Definition perm_0400 : N := 256.

Inductive handle : Type :=
| HFile (ino : nat)
| HDir (path : string).

Inductive open_flag : Type :=
| O_RDONLY
| O_WRONLY_CREATE_EXCL.

(** [under dir p]: [p] is [dir] or lies below it (both cleaned). *)
Definition under (dir p : string) : bool :=
  String.eqb p dir
  || String.prefix (if String.eqb dir "/" then dir else dir ++ "/") p.

Definition Stat (path : string) (w : World) : option node :=
  if String.eqb path "" then None else names w !! Clean path.

(** In every call below [ok] is the environment's verdict on the system
    call: [false] makes it fail for a reason outside the model
    (permissions, a missing parent directory, an I/O error). *)

Definition Mkdir (ok : bool) (name : string) (perm : N) : M (result unit) :=
  fun w =>
    match Stat name w with
    | Some _ => (Err "file exists", w)
    | None =>
        if ok && negb (String.eqb name "")
        then (Ok tt, set_names (insert (Clean name) (NDir perm)) w)
        else (Err "permission denied", w)
    end.

(** The directories [MkdirAll] has to create for a cleaned path: the
    path and its ancestors, outermost first. *)
Fixpoint ancestors (pre : string) (es : list string) : list string :=
  match es with
  | [] => []
  | e :: es' =>
      let p := if String.eqb pre "" then e
               else if String.eqb pre "/" then pre ++ e
               else pre ++ "/" ++ e in
      p :: ancestors p es'
  end.

Definition lineage (path : string) : list string :=
  let p := Clean path in
  ancestors (if rooted p then "/" else "")
    (List.filter (fun e => negb (String.eqb e "")) (split p)).

Fixpoint mkdir_each (perm : N) (ps : list string) (ns : gmap string node)
  : option (gmap string node) :=
  match ps with
  | [] => Some ns
  | p :: ps' =>
      match ns !! p with
      | Some (NDir _) => mkdir_each perm ps' ns
      | Some (NFile _ _) => None
      | None => mkdir_each perm ps' (<[p := NDir perm]> ns)
      end
  end.

Definition MkdirAll (ok : bool) (path : string) (perm : N) : M (result unit) :=
  fun w =>
    match Stat path w with
    | Some (NDir _) => (Ok tt, w)
    | Some (NFile _ _) => (Err "not a directory", w)
    | None =>
        if ok && negb (String.eqb path "") then
          match mkdir_each perm (lineage path) (names w) with
          | Some ns => (Ok tt, set_names (fun _ => ns) w)
          | None => (Err "not a directory", w)
          end
        else (Err "permission denied", w)
    end.

(** [prefixAndSuffix]: the pattern is split at its last [*]. *)
Fixpoint split_last_star (s : string) : option (string * string) :=
  match s with
  | EmptyString => None
  | String c r =>
      match split_last_star r with
      | Some (p, q) => Some (String c p, q)
      | None => if Ascii.eqb c "*" then Some ("", r) else None
      end
  end.

Definition prefixAndSuffix (pattern : string) : string * string :=
  match split_last_star pattern with
  | Some pq => pq
  | None => (pattern, "")
  end.

Definition joinPath (dir name : string) : string :=
  match rev (list_ascii_of_string dir) with
  | c :: _ => if IsPathSeparator c then dir ++ name else dir ++ "/" ++ name
  | [] => dir ++ "/" ++ name
  end.

(** The retry loop of [MkdirTemp] over the random strings the
    environment draws: a name that exists is skipped. *)
Fixpoint mkdirtemp_loop (ok : bool) (prefix suffix : string)
    (random : list string) : M (result string) :=
  fun w =>
    match random with
    | [] => (Err "file exists", w)
    | r :: random' =>
        let name := prefix ++ r ++ suffix in
        match Stat name w with
        | Some _ => mkdirtemp_loop ok prefix suffix random' w
        | None =>
            match Mkdir ok name perm_0700 w with
            | (Ok _, w') => (Ok name, w')
            | (Err e, w') => (Err e, w')
            end
        end
    end.

Definition maxTries : nat := 10000.

Definition MkdirTemp (ok : bool) (TempDir : string) (random : list string)
    (dir pattern : string) : M (result string) :=
  let dir := if String.eqb dir "" then TempDir else dir in
  let '(prefix, suffix) := prefixAndSuffix pattern in
  mkdirtemp_loop ok (joinPath dir prefix) suffix (firstn maxTries random).

Definition Chmod (ok : bool) (name : string) (perm : N) : M (result unit) :=
  fun w =>
    match Stat name w with
    | None => (Err "no such file or directory", w)
    | Some n =>
        if ok then
          let n' := match n with
                    | NDir _ => NDir perm
                    | NFile _ i => NFile perm i
                    end in
          (Ok tt, set_names (insert (Clean name) n') w)
        else (Err "operation not permitted", w)
    end.

(** [OpenFile] with the two flag sets the sources use.  Opening for
    reading needs the entry to exist; [O_CREATE|O_EXCL] needs it not to
    exist and makes an empty file under a new inode. *)
Definition OpenFile (ok : bool) (name : string) (flag : open_flag) (perm : N)
  : M (result handle) :=
  fun w =>
    match flag, Stat name w with
    | O_RDONLY, None => (Err "no such file or directory", w)
    | O_RDONLY, Some (NDir _) =>
        if ok then (Ok (HDir (Clean name)), w)
        else (Err "permission denied", w)
    | O_RDONLY, Some (NFile _ i) =>
        if ok then
          (Ok (HFile i),
           mkWorld (names w) (store w) ({[i]} ∪ opened w) (next_ino w) (log w))
        else (Err "permission denied", w)
    | O_WRONLY_CREATE_EXCL, Some _ => (Err "file exists", w)
    | O_WRONLY_CREATE_EXCL, None =>
        if ok && negb (String.eqb name "") then
          let i := next_ino w in
          (Ok (HFile i),
           mkWorld (<[Clean name := NFile perm i]> (names w))
                   (<[i := ""]> (store w))
                   ({[i]} ∪ opened w) (S i) (log w))
        else (Err "permission denied", w)
    end.

Definition Close (h : handle) : M (result unit) :=
  fun w =>
    match h with
    | HFile i =>
        (Ok tt, mkWorld (names w) (store w) (opened w ∖ {[i]}) (next_ino w) (log w))
    | HDir _ => (Ok tt, w)
    end.

(** What reading an open handle to the end yields. *)
Definition ReadAll (h : handle) (w : World) : result string :=
  match h with
  | HDir _ => Err "is a directory"
  | HFile i =>
      if bool_decide (i ∈ opened w) then
        match store w !! i with
        | Some data => Ok data
        | None => Err "bad file descriptor"
        end
      else Err "file already closed"
  end.

Definition has_entry_below (dir : string) (ns : gmap string node) : bool :=
  bool_decide (filter (fun kv => under dir (fst kv) = true
                                 ∧ fst kv <> dir) ns <> ∅).

(** [Remove] unlinks a file or removes an empty directory. *)
Definition Remove (ok : bool) (name : string) : M (result unit) :=
  fun w =>
    match Stat name w with
    | None => (Err "no such file or directory", w)
    | Some n =>
        let nonempty := match n with
                        | NDir _ => has_entry_below (Clean name) (names w)
                        | NFile _ _ => false
                        end in
        if nonempty then (Err "directory not empty", w)
        else if ok then (Ok tt, set_names (delete (Clean name)) w)
        else (Err "operation not permitted", w)
    end.

(** [RemoveAll] removes [path] and everything below it; a path that does
    not exist is not an error. *)
Definition RemoveAll (ok : bool) (path : string) : M (result unit) :=
  fun w =>
    if String.eqb path "" then (Ok tt, w)
    else if ok then
      (Ok tt, set_names (filter (fun kv => under (Clean path) (fst kv) = false)) w)
    else
      match Stat path w with
      | None => (Ok tt, w)
      | Some _ => (Err "operation not permitted", w)
      end.

Definition string_take (n : nat) (s : string) : string :=
  string_of_list_ascii (firstn n (list_ascii_of_string s)).

(** [io.Copy dst src].  [fault] is [None] when every read and write
    succeeds and [Some n] when the copy fails after [n] bytes have been
    written. *)
Definition Copy (fault : option nat) (dst src : handle) : M (result nat) :=
  fun w =>
    match ReadAll src w, dst with
    | Ok data, HFile o =>
        let put s := mkWorld (names w) (<[o := s]> (store w)) (opened w)
                       (next_ino w) (log w) in
        match fault with
        | None => (Ok (String.length data), put data)
        | Some n => (Err "input/output error", put (string_take n data))
        end
    | Ok _, HDir _ => (Err "is a directory", w)
    | Err e, _ => (Err e, w)
    end.

End os.

(** ** [os/exec]: the external collector *)

Module exec.

(** What one run of the external process does: whether it exits with
    status zero (a process killed on cancellation does not), and the
    archive it leaves behind, if any. *)
Record outcome : Type := mkOutcome {
  exit_ok : bool;
  written : option string
}.

(** The mode of the archive the collector writes, [0644]. *)
Definition archive_perm : N := 420.

(** [/usr/bin/sysdiagnose -f dir -A name -u -b] writes its archive to
    [name] inside [dir]; any other command line is a usage error. *)
(** The output directory and archive name of a well-formed command
    line. *)
Definition target (argv : list string) : option (string * string) :=
  match argv with
  | [f; dir; a; base; u; b] =>
      if String.eqb f "-f" && String.eqb a "-A"
         && String.eqb u "-u" && String.eqb b "-b"
      then Some (dir, base) else None
  | _ => None
  end.

Definition Run (out : outcome) (name : string) (argv : list string)
  : M (result unit) :=
  emit (EvRun (name :: argv)) ;;;
  fun w =>
    match target argv with
    | Some (dir, base) =>
        let w' :=
          match written out with
          | Some data =>
              let i := next_ino w in
              mkWorld (<[filepath.Join [dir; base] := NFile archive_perm i]> (names w))
                      (<[i := data]> (store w)) (opened w) (S i) (log w)
          | None => w
          end in
        (if exit_ok out then Ok tt else Err "exit status 1", w')
    | None => (Err "exit status 64", w)
    end.

End exec.

(** ** [path/filepath]: [Match] and [Glob] *)

Module filepath_match.

Import filepath.

Definition ErrBadPattern : string := "syntax error in pattern".

(** The terms of a pattern:
    [*] any sequence of non-separator bytes, [?] any single non-separator
    character, a character class, or a byte that stands for itself
    (possibly written with a backslash). *)
Inductive term : Type :=
| TStar
| TAny
| TClass (negated : bool) (ranges : list (N * N))
| TLit (c : ascii).

(** [getEsc]: one possibly escaped character of a class, and the rest of
    the chunk, which must not be empty. *)
Definition getEsc (chunk : list ascii) : option (N * list ascii) :=
  match chunk with
  | [] => None
  | c :: rest =>
      if Ascii.eqb c "-" || Ascii.eqb c "]" then None
      else
        let chunk' := if Ascii.eqb c "\" then rest else chunk in
        match chunk' with
        | [] => None
        | _ :: _ =>
            let '(r, n) := utf8.DecodeRune chunk' in
            if (r =? utf8.RuneError)%N && Nat.eqb n 1 then None
            else match skipn n chunk' with
                 | [] => None
                 | nchunk => Some (r, nchunk)
                 end
        end
  end.

(** The ranges of a class up to its closing bracket, which ends the class
    only after at least one range. *)
Fixpoint parse_class (fuel : nat) (chunk : list ascii) (acc : list (N * N))
  : option (list (N * N) * list ascii) :=
  match fuel with
  | O => None
  | S fuel' =>
      match chunk with
      | [] => None
      | c :: rest =>
          if Ascii.eqb c "]" && negb (Nat.eqb (length acc) 0)
          then Some (rev acc, rest)
          else
            match getEsc chunk with
            | None => None
            | Some (lo, chunk1) =>
                match chunk1 with
                | d :: rest1 =>
                    if Ascii.eqb d "-" then
                      match getEsc rest1 with
                      | None => None
                      | Some (hi, chunk2) =>
                          parse_class fuel' chunk2 ((lo, hi) :: acc)
                      end
                    else parse_class fuel' chunk1 ((lo, lo) :: acc)
                | [] => None
                end
            end
      end
  end.

Fixpoint parse (fuel : nat) (pattern : list ascii) : option (list term) :=
  match fuel with
  | O => None
  | S fuel' =>
      match pattern with
      | [] => Some []
      | c :: rest =>
          if Ascii.eqb c "*" then option_map (cons TStar) (parse fuel' rest)
          else if Ascii.eqb c "?" then option_map (cons TAny) (parse fuel' rest)
          else if Ascii.eqb c "[" then
            let '(negated, body) :=
              match rest with
              | d :: rest' => if Ascii.eqb d "^" then (true, rest') else (false, rest)
              | [] => (false, rest)
              end in
            match parse_class (S (length body)) body [] with
            | None => None
            | Some (ranges, rest') =>
                option_map (cons (TClass negated ranges)) (parse fuel' rest')
            end
          else if Ascii.eqb c "\" then
            match rest with
            | [] => None
            | d :: rest' => option_map (cons (TLit d)) (parse fuel' rest')
            end
          else option_map (cons (TLit c)) (parse fuel' rest)
      end
  end.

Definition in_ranges (r : N) (ranges : list (N * N)) : bool :=
  existsb (fun lh => utf8.in_range (fst lh) (snd lh) r) ranges.

Fixpoint match_terms (ts : list term) : list ascii -> bool :=
  match ts with
  | [] => fun name => match name with [] => true | _ => false end
  | TStar :: ts' =>
      fix star (name : list ascii) : bool :=
        match_terms ts' name
        || match name with
           | c :: name' => negb (IsPathSeparator c) && star name'
           | [] => false
           end
  | TAny :: ts' =>
      fun name =>
        match name with
        | [] => false
        | c :: _ =>
            negb (IsPathSeparator c)
            && match_terms ts' (skipn (snd (utf8.DecodeRune name)) name)
        end
  | TClass negated ranges :: ts' =>
      fun name =>
        match name with
        | [] => false
        | _ :: _ =>
            let '(r, n) := utf8.DecodeRune name in
            negb (Bool.eqb (in_ranges r ranges) negated)
            && match_terms ts' (skipn n name)
        end
  | TLit c :: ts' =>
      fun name =>
        match name with
        | d :: name' => Ascii.eqb c d && match_terms ts' name'
        | [] => false
        end
  end.

(** [Match pattern name]; the only error is [ErrBadPattern], returned for
    a malformed pattern whatever the name. *)
Definition Match (pattern name : string) : result bool :=
  let p := list_ascii_of_string pattern in
  match parse (S (length p)) p with
  | None => Err ErrBadPattern
  | Some ts => Ok (match_terms ts (list_ascii_of_string name))
  end.

Definition hasMeta (path : string) : bool :=
  existsb (fun c => strings.mem_byte c "*?[\") (list_ascii_of_string path).

(** [Split]: the path up to and including its final separator, and the
    file name after it. *)
Definition Split (path : string) : string * string :=
  let r := rev (list_ascii_of_string path) in
  (string_of_list_ascii (rev (upto_last_sep_rev r)),
   string_of_list_ascii (last_elem_rev r [])).

Definition cleanGlobPath (path : string) : string :=
  if String.eqb path "" then "."
  else if String.eqb path "/" then path
  else string_of_list_ascii (removelast (list_ascii_of_string path)).

(** [Readdirnames]: the names of the entries of [dir]. *)
Definition Readdirnames (dir : string) (w : World) : list string :=
  map Base
    (List.filter (fun k => String.eqb (Dir k) (Clean dir)
                           && negb (String.eqb k (Clean dir)))
       (map fst (map_to_list (names w)))).

Fixpoint glob_names (dir pattern : string) (ns : list string)
    (matches : list string) : result (list string) :=
  match ns with
  | [] => Ok matches
  | n :: ns' =>
      match Match pattern n with
      | Err e => Err e
      | Ok true => glob_names dir pattern ns' (matches ++ [Join [dir; n]])%list
      | Ok false => glob_names dir pattern ns' matches
      end
  end.

(** [glob]: the entries of [dir] that match [pattern]; a [dir] that is
    not a directory contributes nothing.  (The names are not sorted here;
    callers in this program only look at how many there are.) *)
Definition glob (dir pattern : string) (matches : list string) (w : World)
  : result (list string) :=
  match os.Stat dir w with
  | Some (NDir _) => glob_names dir pattern (Readdirnames dir w) matches
  | _ => Ok matches
  end.

Fixpoint glob_each (ds : list string) (file : string) (matches : list string)
    (w : World) : result (list string) :=
  match ds with
  | [] => Ok matches
  | d :: ds' =>
      match glob d file matches w with
      | Err e => Err e
      | Ok m => glob_each ds' file m w
      end
  end.

Definition pathSeparatorsLimit : nat := 10000.

Fixpoint globWithLimit (fuel : nat) (pattern : string) (w : World)
  : result (list string) :=
  match fuel with
  | O => Err ErrBadPattern
  | S fuel' =>
      match Match pattern "" with
      | Err e => Err e
      | Ok _ =>
          if negb (hasMeta pattern) then
            match os.Stat pattern w with
            | Some _ => Ok [pattern]
            | None => Ok []
            end
          else
            let '(dir, file) := Split pattern in
            let dir := cleanGlobPath dir in
            if negb (hasMeta dir) then glob dir file [] w
            else if String.eqb dir pattern then Err ErrBadPattern
            else
              match globWithLimit fuel' dir w with
              | Err e => Err e
              | Ok m => glob_each m file [] w
              end
      end
  end.

Definition Glob (pattern : string) (w : World) : result (list string) :=
  globWithLimit pathSeparatorsLimit pattern w.

End filepath_match.

(** ** [internal/sysdiagnose]: the archive collector *)

Module sysdiagnose.

Import filepath.

Definition systemSysdiagnoseExecutable : string := "/usr/bin/sysdiagnose".

(** What the environment decides during one call of [Collect]. *)
Record env : Type := mkEnv {
  TempDir : string;          (* [os.TempDir()] *)
  random : list string;      (* the random strings [MkdirTemp] draws *)
  mkdir_ok : bool;
  chmod_ok : bool;
  run : exec.outcome;
  open_ok : bool;
  remove_ok : bool;
  removeall_ok : bool
}.

Definition sysdiagnoseArgs (outputFileFullPath : string) : result (list string) :=
  if String.eqb outputFileFullPath "" then Err "output file path required"
  else Ok ["-f"; Dir outputFileFullPath;
           "-A"; Base outputFileFullPath;
           "-u";
           "-b"].

(** The archive name passes validation. *)
Definition valid_name (archiveName : string) : bool :=
  negb (String.eqb archiveName "")
  && String.eqb (Base archiveName) (Clean archiveName).

Definition archiveOutputPath (workDir archiveName : string) : string :=
  Join [workDir; archiveName ++ ".tar.gz"].

Definition Collect (e : env) (archiveName : string) : M (result os.handle) :=
  if String.eqb archiveName "" then ret (Err "archive name required")
  else if negb (String.eqb (Base archiveName) (Clean archiveName)) then
    ret (Err "archive name must be a valid path basename without directory parts")
  else
    workDir <- os.MkdirTemp (mkdir_ok e) (TempDir e) (random e) "" "sysdiagnose-helper*"
      orwrap "failed to create directory: " ;;
    _ <- os.Chmod (chmod_ok e) workDir os.perm_0700
      orwrap "unable to chmod sysdiagnose dir: " ;;
    defer (os.RemoveAll (removeall_ok e) workDir)
      (let archiveOutputPath := archiveOutputPath workDir archiveName in
       args <- ret (sysdiagnoseArgs archiveOutputPath)
         orwrap "error building sysdiagnose args: " ;;
       _ <- exec.Run (run e) systemSysdiagnoseExecutable args
         orwrap "error running sysdiagnose: " ;;
       handle <- os.OpenFile (open_ok e) archiveOutputPath os.O_RDONLY 0
         orwrap "open result handle: " ;;
       (* a failed removal is only logged *)
       os.Remove (remove_ok e) archiveOutputPath ;;;
       ret (Ok handle)).

End sysdiagnose.

(** ** [internal/cmd]: persistence, the probe and the scheduler *)

Module cmd.

Import filepath.

(** [time.Duration] counts nanoseconds. *)
Definition Duration : Type := Z.
Definition Second : Duration := 1000000000%Z.
Definition Minute : Duration := (60 * Second)%Z.

Definition sysdiagnoseDefaultTimeout : Duration := (15 * Minute)%Z.
Definition sysdiagnoseMinTimeout : Duration := (5 * Minute)%Z.

(** A UTC wall-clock time and its rendering with the layout
    [20060102_150405]. *)
Record Time : Type := mkTime {
  year : nat; month : nat; day : nat;
  hour : nat; minute : nat; second : nat
}.

Definition digit (n : nat) : ascii := ascii_of_nat (48 + n mod 10).

Fixpoint zero_pad (width : nat) (n : nat) : string :=
  match width with
  | O => ""
  | S width' => zero_pad width' (n / 10) ++ String (digit n) ""
  end.

Definition Format (t : Time) : string :=
  zero_pad 4 (year t) ++ zero_pad 2 (month t) ++ zero_pad 2 (day t) ++ "_"
  ++ zero_pad 2 (hour t) ++ zero_pad 2 (minute t) ++ zero_pad 2 (second t).

Record sysdiagnoseArgs : Type := mkSysArgs {
  outputDir : string;
  timeout : Duration
}.

(** What the environment decides during one call of [runSysdiagnose]. *)
Record sys_env : Type := mkSysEnv {
  mkdirall_ok : bool;
  now : Time;
  collect : sysdiagnose.env;
  create_ok : bool;
  copy_fault : option nat;
  unlink_ok : bool
}.

(** The tail of [runSysdiagnose], from the creation of the output file
    on: the archive-persistence step. *)
Definition persist (e : sys_env) (outputPath : string) (outputReader : os.handle)
  : M (result unit) :=
  output <- os.OpenFile (create_ok e) outputPath os.O_WRONLY_CREATE_EXCL os.perm_0400
    orwrap ("failed to create output file " ++ outputPath ++ ": ") ;;
  defer (os.Close output)
    (r <- os.Copy (copy_fault e) output outputReader ;;
     match r with
     | Err err =>
         (* the result of [Remove] is ignored *)
         os.Remove (unlink_ok e) outputPath ;;;
         ret (Err ("failed to write sysdiagnose data: " ++ err))
     | Ok written =>
         emit (EvPersist outputPath written) ;;;
         ret (Ok tt)
     end).

Definition outputPath (args : sysdiagnoseArgs) (t : Time) : string :=
  Join [outputDir args; ("sysdiagnose_" ++ Format t) ++ ".tar.gz"].

Definition runSysdiagnose (e : sys_env) (args : sysdiagnoseArgs) : M (result unit) :=
  _ <- os.MkdirAll (mkdirall_ok e) (outputDir args) os.perm_0700
    orwrap "failed to create output directory: " ;;
  let timestamp := Format (now e) in
  let archiveName := "sysdiagnose_" ++ timestamp in
  let outputPath := Join [outputDir args; archiveName ++ ".tar.gz"] in
  collected <- sysdiagnose.Collect (collect e) archiveName ;;
  emit (EvCollect archiveName (is_ok collected)) ;;;
  outputReader <- ret collected
    orwrap "failed to create sysdiagnose: " ;;
  defer (os.Close outputReader) (persist e outputPath outputReader).

(** *** The connectivity probe *)

Definition StatusOK : nat := 200.

(** What the HTTP exchange with the metadata service comes to. *)
Inductive http_outcome : Type :=
| ConnectFailed
| ReadFailed
| Response (StatusCode : nat).

Definition checkIMDS (o : http_outcome) : result unit :=
  match o with
  | ConnectFailed => Err "failed to connect to IMDS: connection refused"
  | ReadFailed => Err "failed to read IMDS response: unexpected EOF"
  | Response code =>
      if Nat.eqb code StatusOK then Ok tt
      else Err "IMDS returned non-200 status code"
  end.

Definition runCheckIMDS (o : http_outcome) : M (result unit) :=
  emit (EvProbe (is_ok (checkIMDS o))) ;;;
  ret (checkIMDS o).

(** *** The watchdog *)

Record networkHealthMonitorArgs : Type := mkArgs {
  interval : Duration;
  startupDelay : Duration;
  baseDir : string;              (* Go field [outputDir] *)
  sysdiagnoseTimeout : Duration
}.

Definition PreRunE (euid : Z) (args : networkHealthMonitorArgs) : result unit :=
  if negb (euid =? 0)%Z then Err "root privileges required - run with sudo"
  else if (interval args <? 0)%Z then Err "interval cannot be negative"
  else if (startupDelay args <? 0)%Z then Err "startup delay cannot be negative"
  else if (sysdiagnoseTimeout args <? sysdiagnoseMinTimeout)%Z then
    Err "timeout must be at least 5m0s to ensure creation can complete"
  else Ok tt.

(** What the environment decides during one pass through the timer case
    of the loop. *)
Record tick : Type := mkTick {
  probe : http_outcome;
  dir_ok : bool;
  sys : sys_env
}.

(** [(false, err)] is [Err], [(true, nil)] is [Ok true] and
    [(false, nil)] is [Ok false]. *)
Definition checkNetworkAndCollect (t : tick) (sysArgs : sysdiagnoseArgs)
  : M (result bool) :=
  r <- runCheckIMDS (probe t) ;;
  match r with
  | Err _ =>
      _ <- os.MkdirAll (dir_ok t) (outputDir sysArgs) os.perm_0700
        orwrap "sysdiagnose output directory creation: " ;;
      _ <- runSysdiagnose (sys t) sysArgs
        orwrap "sysdiagnose collection: " ;;
      ret (Ok true)
  | Ok _ => ret (Ok false)
  end.

(** The case a [select] takes when it wakes up. *)
Inductive wakeup : Type :=
| CtxDone
| TimerFired (t : tick).

(** A run either returns, or is still blocked in its [select] when the
    wake-ups the environment delivers have all been consumed. *)
Inductive run_result : Type :=
| Returned (err : result unit)
| Waiting.

Definition ctxErr : string := "context canceled".

(** The [for { select { ... } }] loop of [runNetworkHealthMonitor]. *)
Fixpoint monitor_loop (sysArgs : sysdiagnoseArgs) (wakeups : list wakeup)
  : M run_result :=
  match wakeups with
  | [] => ret Waiting
  | CtxDone :: _ => ret (Returned (Err ctxErr))
  | TimerFired t :: wakeups' =>
      r <- checkNetworkAndCollect t sysArgs ;;
      match r with
      | Err _ => monitor_loop sysArgs wakeups'
      | Ok true => ret (Returned (Ok tt))
      | Ok false => monitor_loop sysArgs wakeups'
      end
  end.

(** [startup] is the case the first [select] takes: [true] when the
    startup delay elapses, [false] when the context is done first. *)
Definition runNetworkHealthMonitor (startup : bool) (wakeups : list wakeup)
    (args : networkHealthMonitorArgs) : M run_result :=
  if negb startup then ret (Returned (Err ctxErr))
  else
    let sysdiagnoseCollectionArgs :=
      mkSysArgs (baseDir args) (sysdiagnoseTimeout args) in
    monitor_loop sysdiagnoseCollectionArgs wakeups.

(** What the environment decides during one run of the command. *)
Record run_env : Type := mkRunEnv {
  ioreg : result string;
  base_ok : bool;
  startup : bool;
  wakeups : list wakeup
}.

Definition getCollectionPrefix (ioreg : result string) : result string :=
  system.GetHostIOPlatformUUID ioreg.

Definition collectionPrefix (e : run_env) : string :=
  match getCollectionPrefix (ioreg e) with
  | Ok prefix => prefix
  | Err _ => "unknown"
  end.

Definition prefixDir (e : run_env) (args : networkHealthMonitorArgs) : string :=
  Join [baseDir args; collectionPrefix e].

Definition RunE (e : run_env) (args : networkHealthMonitorArgs) : M run_result :=
  let prefix := collectionPrefix e in
  r <- os.MkdirAll (base_ok e) (baseDir args) os.perm_0700 ;;
  match r with
  | Err err => ret (Returned (Err ("base output directory creation: " ++ err)))
  | Ok _ =>
      let prefixDir := Join [baseDir args; prefix] in
      fun w =>
        match filepath_match.Glob (Join [prefixDir; "sysdiagnose_*.tar.gz"]) w with
        | Err err => (Returned (Err ("invalid glob pattern: " ++ err)), w)
        | Ok existing =>
            if Nat.ltb 0 (length existing) then (Returned (Ok tt), w)
            else
              runNetworkHealthMonitor (startup e) (wakeups e)
                (mkArgs (interval args) (startupDelay args) prefixDir
                   (sysdiagnoseTimeout args)) w
        end
  end.

(** The command as cobra runs it: [RunE] only after [PreRunE] returned
    no error. *)
Definition Execute (euid : Z) (e : run_env) (args : networkHealthMonitorArgs)
  : M run_result :=
  match PreRunE euid args with
  | Err msg => ret (Returned (Err msg))
  | Ok _ => RunE e args
  end.

(** *** [debug create-sysdiagnose] *)

(** What the environment decides during one run of the command: the calls
    of [runSysdiagnose], and whether the deadline of the timeout context
    has passed when [runSysdiagnose] has returned an error
    ([ctx.Err() == context.DeadlineExceeded]). *)
Record create_env : Type := mkCreateEnv {
  create_sys : sys_env;
  deadline_exceeded : bool
}.

(** The [RunE] of [createSysdiagnoseCommand]. *)
Definition createSysdiagnoseRunE (euid : Z) (e : create_env) (args : sysdiagnoseArgs)
  : M (result unit) :=
  if negb (euid =? 0)%Z then ret (Err "root privileges required - run with sudo")
  else if (timeout args <? sysdiagnoseMinTimeout)%Z then
    ret (Err "timeout must be at least 5m0s to ensure creation can complete")
  else
    r <- runSysdiagnose (create_sys e) args ;;
    match r with
    | Err err =>
        if deadline_exceeded e then ret (Err "creation timeout exceeded")
        else ret (Err err)
    | Ok _ => ret (Ok tt)
    end.

End cmd.

(** * Specification-level predicates and concrete scenarios *)

Import cmd.

(** ** Startup validation *)

(** The acceptance condition as the specification words it: both delays
    non-negative and the collection timeout above the minimum. *)
Definition spec_accepts (args : networkHealthMonitorArgs) : Prop :=
  (0 <= interval args)%Z /\ (0 <= startupDelay args)%Z
  /\ (sysdiagnoseMinTimeout < sysdiagnoseTimeout args)%Z.

Definition five_minutes_config : networkHealthMonitorArgs :=
  mkArgs 0%Z 0%Z "/private/var/db/ec2-macos-utils/sysdiagnose" sysdiagnoseMinTimeout.

Definition negative_interval_config : networkHealthMonitorArgs :=
  mkArgs (-1)%Z 0%Z "/private/var/db/ec2-macos-utils/sysdiagnose"
    sysdiagnoseDefaultTimeout.

Definition empty_world : World := mkWorld ∅ ∅ ∅ 0 [].

Definition idle_env : run_env := mkRunEnv (Err "exit status 1") true true [].

(** ** Counting calls in the log *)

Definition is_probe (e : event) : bool :=
  match e with EvProbe _ => true | _ => false end.

Definition is_collect (e : event) : bool :=
  match e with EvCollect _ _ => true | _ => false end.

Definition is_persist (e : event) : bool :=
  match e with EvPersist _ _ => true | _ => false end.

Definition count (p : event -> bool) (l : list event) : nat :=
  length (List.filter p l).

Definition probes (w : World) : nat := count is_probe (log w).
Definition collections (w : World) : nat := count is_collect (log w).
Definition persisted (w : World) : nat := count is_persist (log w).

(** The premise of the scheduler property as the specification words it:
    every probe of the run failed and every collection of the run
    succeeded. *)
Definition probe_always_fails (w : World) : bool :=
  forallb (fun e => match e with EvProbe reachable => negb reachable | _ => true end)
    (log w).

Definition collector_always_succeeds (w : World) : bool :=
  forallb (fun e => match e with EvCollect _ collected => collected | _ => true end)
    (log w).

(** ** A host, and environments in which every call succeeds *)

Definition default_base : string := "/private/var/db/ec2-macos-utils/sysdiagnose".

Definition host_world : World :=
  mkWorld (<["/tmp" := NDir 511]> (<["/" := NDir 493]> ∅)) ∅ ∅ 0 [].

Definition good_collect : sysdiagnose.env :=
  sysdiagnose.mkEnv "/tmp" ["3141592653"] true true
    (exec.mkOutcome true (Some "ARCHIVE-BYTES")) true true true.

Definition noon : Time := mkTime 2024 6 1 12 0 0.

Definition good_sys : sys_env := mkSysEnv true noon good_collect true None true.

Definition outage_tick : tick := mkTick ConnectFailed true good_sys.

Definition healthy_tick : tick := mkTick (Response 200) true good_sys.

Definition default_args : networkHealthMonitorArgs :=
  mkArgs (5 * Minute)%Z (5 * Minute)%Z default_base sysdiagnoseDefaultTimeout.

(** ** Scheduler scenarios *)

(** The disk fills up while the first archive is copied; a minute later the
    copy goes through. *)
Definition disk_full_sys : sys_env :=
  mkSysEnv true noon good_collect true (Some 7) true.

Definition later_sys : sys_env :=
  mkSysEnv true (mkTime 2024 6 1 12 5 0)
    (sysdiagnose.mkEnv "/tmp" ["2718281828"] true true
       (exec.mkOutcome true (Some "ARCHIVE-BYTES")) true true true)
    true None true.

Definition disk_full_run : run_env :=
  mkRunEnv (Err "exit status 1") true true
    [TimerFired (mkTick ConnectFailed true disk_full_sys);
     TimerFired (mkTick ConnectFailed true later_sys)].

(** The run is cancelled during the startup delay. *)
Definition cancelled_run : run_env :=
  mkRunEnv (Err "exit status 1") true false [TimerFired outage_tick].

(** The host directory cannot be created on the first tick. *)
Definition mkdir_denied_run : run_env :=
  mkRunEnv (Err "exit status 1") true true
    [TimerFired (mkTick ConnectFailed false good_sys);
     TimerFired outage_tick].

Definition mkdir_denied_then_healthy : run_env :=
  mkRunEnv (Err "exit status 1") true true
    [TimerFired (mkTick ConnectFailed false good_sys);
     TimerFired healthy_tick].

Definition outage_run : run_env :=
  mkRunEnv (Err "exit status 1") true true [TimerFired outage_tick; TimerFired outage_tick].

(** ** A host whose output directory name has a bracket in it *)

Definition bracket_base : string := "/Volumes/Data [1]/sysdiagnose".

Definition bracket_archive : string :=
  "/Volumes/Data [1]/sysdiagnose/unknown/sysdiagnose_20240531_235959.tar.gz".

Definition bracket_world : World :=
  mkWorld
    (<[bracket_archive := NFile 256 0]>
       (<["/Volumes/Data [1]/sysdiagnose/unknown" := NDir 448]>
          (<["/Volumes/Data [1]/sysdiagnose" := NDir 448]>
             (<["/Volumes/Data [1]" := NDir 493]>
                (<["/Volumes" := NDir 493]>
                   (<["/tmp" := NDir 511]> (<["/" := NDir 493]> ∅)))))))
    (<[0 := "EARLIER-ARCHIVE"]> ∅) ∅ 1 [].

Definition bracket_args : networkHealthMonitorArgs :=
  mkArgs (5 * Minute)%Z (5 * Minute)%Z bracket_base sysdiagnoseDefaultTimeout.

(** ** Collector scenarios *)

Definition work_dir : string := "/tmp/sysdiagnose-helper3141592653".

Definition chmod_denied : sysdiagnose.env :=
  sysdiagnose.mkEnv "/tmp" ["3141592653"] true false
    (exec.mkOutcome true (Some "ARCHIVE-BYTES")) true true true.

Definition unlink_denied : sysdiagnose.env :=
  sysdiagnose.mkEnv "/tmp" ["3141592653"] true true
    (exec.mkOutcome true (Some "ARCHIVE-BYTES")) true false true.

Definition nothing_removable : sysdiagnose.env :=
  sysdiagnose.mkEnv "/tmp" ["3141592653"] true true
    (exec.mkOutcome true (Some "ARCHIVE-BYTES")) true false false.

(** ** Persistence scenarios *)

(** A world in which the collector's stream is open on inode 0 and an
    earlier archive is in the output directory. *)
Definition earlier_archive : string := "/out/sysdiagnose_20240601_115959.tar.gz".

Definition new_archive : string := "/out/sysdiagnose_20240601_120000.tar.gz".

Definition streaming_world : World :=
  mkWorld
    (<[earlier_archive := NFile 256 1]>
       (<["/out" := NDir 448]> (<["/" := NDir 493]> ∅)))
    (<[1 := "EARLIER-ARCHIVE"]> (<[0 := "ARCHIVE-BYTES"]> ∅)) {[0]} 2 [].

Definition copy_fails_unlink_fails : sys_env :=
  mkSysEnv true noon good_collect true (Some 7) false.

Definition copy_fails : sys_env :=
  mkSysEnv true noon good_collect true (Some 7) true.

(** ** The shape of cleaned paths *)

Import filepath.

Definition noslash (e : string) : Prop :=
  Forall (fun c => IsPathSeparator c = false) (list_ascii_of_string e).

Definition plain (e : string) : Prop :=
  noslash e /\ e <> "" /\ e <> "." /\ e <> "..".

Definition is_dotdot (e : string) : Prop := e = "..".

(** The elements of a cleaned path: no [..] under a root; in a relative
    path only as a leading run. *)
Definition canon (r : bool) (l : list string) : Prop :=
  if r then Forall plain l
  else exists ds ps, l = (ds ++ ps)%list /\ Forall is_dotdot ds /\ Forall plain ps.

(** The same for the output stack of [clean_loop], last element first. *)
Definition stack_ok (r : bool) (out : list string) : Prop :=
  if r then Forall plain out
  else exists ps ds, out = (ps ++ ds)%list /\ Forall plain ps /\ Forall is_dotdot ds.

(** The path a canonical list of elements stands for. *)
Definition render (r : bool) (l : list string) : string :=
  if r then String Separator (join l)
  else match l with
       | [] => "."
       | _ => join l
       end.

(** [pre] is empty or ends with a separator. *)
Definition dir_part (pre : string) : Prop :=
  pre = "" \/ exists q, pre = q ++ String Separator "".

(** What comes before the last element in the rendering of a list. *)
Definition pre_of (r : bool) (init : list string) : string :=
  (if r then String Separator "" else "")
  ++ match init with
     | [] => ""
     | _ => join init ++ String Separator ""
     end.

(** ** Runes, fields and the host identity *)

Import utf8.
Import strings.
Import system.

Definition starter (b : list ascii) : Prop :=
  match b with
  | [] => True
  | c :: _ => is_cont (N_of_ascii c) = false
  end.

Definition bytes_of (rs : list (N * list ascii)) : list ascii :=
  concat (map snd rs).

Definition nonspace (f : N -> bool) (rb : N * list ascii) : Prop :=
  f (fst rb) = false.

Definition key : string := "IOPlatformUUID".

Definition stripped (line : string) : string := ReplaceAll line quote "".

(** A well-formed line as the specification words it: stripped of quote
    characters it splits into exactly three fields, the first is the key
    and the third is not empty. *)
Definition well_formed_line (line : string) : Prop :=
  exists f1 f2 f3,
    Fields (stripped line) = [f1; f2; f3] /\ f1 = key /\ f3 <> "".

Definition unquoted_line : string := "IOPlatformUUID = 5A1B2C3D".

Definition quoted_line : string :=
  String quote ("IOPlatformUUID" ++ String quote (" = " ++ String quote ("5A1B2C3D" ++ quote_s))).

(** A single field, as the specification describes the host identity: not
    empty, free of quote characters and of white space, so that splitting
    it into fields gives it back. *)
Definition is_token (s : string) : Prop :=
  s <> ""
  /\ (forall c, In c (list_ascii_of_string s) -> c <> quote)
  /\ Forall (nonspace unicode.IsSpace) (Runes (list_ascii_of_string s))
  /\ (forall c, In c (list_ascii_of_string s) -> (N_of_ascii c < 0x80)%N ->
                unicode.IsSpace (N_of_ascii c) = false)
  /\ Fields s = [s].

Definition newline_s : string := String bufio.newline "".

(** The output of the registry query for one host, as in the tests. *)
Definition sample_ioreg : string :=
  "+-o J314sAP  <class IOPlatformExpertDevice, id 0x100000256, registered>" ++ newline_s
  ++ "    {" ++ newline_s
  ++ "        " ++ String quote ("IOPlatformSerialNumber" ++ String quote (" = "
       ++ String quote ("ABCDE1FGHI" ++ quote_s))) ++ newline_s
  ++ "        " ++ String quote ("IOPlatformUUID" ++ String quote (" = "
       ++ String quote ("ABCD1234-5678-90EF-GHIJ-KLMNOPQRSTUV" ++ quote_s))) ++ newline_s
  ++ "    }" ++ newline_s.

(** ** Archives of earlier captures *)

(** The pattern [RunE] looks for in the host directory. *)
Definition archive_pattern : string := "sysdiagnose_*.tar.gz".

(** A name that the completed-capture pattern matches. *)
Definition archive_name (name : string) : Prop :=
  exists x, name = "sysdiagnose_" ++ x ++ ".tar.gz" /\ noslash x.

Definition literal (c : ascii) : bool := negb (strings.mem_byte c "*?[\").

Definition archive_terms : list filepath_match.term :=
  Eval vm_compute in
    match filepath_match.parse 22 (list_ascii_of_string archive_pattern) with
    | Some ts => ts
    | None => []
    end.

(** ** Runs of the scheduler, tick by tick *)

(** A wake-up on which the probe, if one is made, is answered with status
    200. *)
Definition healthy (wk : wakeup) : Prop :=
  match wk with
  | TimerFired t => probe t = Response StatusOK
  | CtxDone => True
  end.

Definition is_failed_probe (e : event) : bool :=
  match e with EvProbe false => true | _ => false end.

(** The timer ticks among the wake-ups. *)
Definition ticks (l : list wakeup) : nat :=
  length (List.filter (fun wk => match wk with TimerFired _ => true | CtxDone => false end) l).

(** Every probe of the run is answered with status 200. *)
Definition healthy_run : run_env :=
  mkRunEnv (Err "exit status 1") true true [TimerFired healthy_tick; TimerFired healthy_tick].

(** The default output directory after a capture for a host whose
    identifier could not be read. *)
Definition captured_archive : string :=
  "/private/var/db/ec2-macos-utils/sysdiagnose/unknown/sysdiagnose_20240531_235959.tar.gz".

Definition captured_world : World :=
  mkWorld
    (<[captured_archive := NFile 256 0]>
       (<["/private/var/db/ec2-macos-utils/sysdiagnose/unknown" := NDir 448]>
          (<["/private/var/db/ec2-macos-utils/sysdiagnose" := NDir 448]>
             (<["/tmp" := NDir 511]> (<["/" := NDir 493]> ∅)))))
    (<[0 := "EARLIER-ARCHIVE"]> ∅) ∅ 1 [].

(** ** Files and time stamps *)

(** The two worlds have the same file contents, open files and next
    inode: they differ in directory entries and log at most. *)
Definition same_files (w w' : World) : Prop :=
  store w' = store w /\ opened w' = opened w /\ next_ino w' = next_ino w.

Definition capture_name : string := "sysdiagnose_20240601_120000".

(** The fields of a time fit the widths of the layout [20060102_150405]. *)
Definition fits (t : Time) : Prop :=
  year t < 10000 /\ month t < 100 /\ day t < 100
  /\ hour t < 100 /\ minute t < 100 /\ second t < 100.

(** ** Lines of the registry query's output *)

Definition no_newline (s : string) : bool :=
  forallb (fun c => negb (Ascii.eqb c bufio.newline)) (list_ascii_of_string s).

(** Only blanks. *)
Definition blank (s : string) : bool :=
  forallb (Ascii.eqb " "%char) (list_ascii_of_string s).

Definition unquoted (s : string) : bool :=
  forallb (fun c => negb (Ascii.eqb c quote)) (list_ascii_of_string s).

(** No rune of [s] is white space for [unicode.IsSpace]. *)
Definition spaceless (s : string) : bool :=
  forallb (fun rb => negb (unicode.IsSpace (fst rb))) (Runes (list_ascii_of_string s)).

(** A line of the registry query that gives the identifier [uuid]. *)
Definition key_line (indent uuid : string) : string :=
  indent ++ platformUUIDKeyToken ++ " = " ++ quote_s ++ uuid ++ quote_s.

(** A line that fills the scanner's buffer. *)
Definition long_line : string :=
  string_of_list_ascii (repeat "x"%char bufio.MaxScanTokenSize).

Definition other_line : string :=
  String quote ("IOPlatformUUID" ++ String quote (" = " ++ String quote ("FFFFFFFF" ++ quote_s))).

(** * Properties *)

(** ** Startup validation *)

(** C9, counterexample: a collection timeout of exactly five minutes does
    not exceed the minimum, and the validation accepts it. *)
Lemma C9_timeout_at_minimum_accepted :
  PreRunE 0 five_minutes_config = Ok tt /\ ~ spec_accepts five_minutes_config.
Proof.
  split; [reflexivity|].
  unfold spec_accepts, five_minutes_config; simpl. lia.
Qed.

(** C9, as amended: run by root, the validation accepts exactly the
    configurations whose poll interval and startup delay are not negative
    and whose collection timeout is at least the minimum of five minutes;
    a configuration it rejects ends the command with that error, the world
    untouched and the scheduler never started. *)
Theorem C9_validation (euid : Z) (args : networkHealthMonitorArgs) :
  (PreRunE euid args = Ok tt <->
     euid = 0%Z /\ (0 <= interval args)%Z /\ (0 <= startupDelay args)%Z
     /\ (sysdiagnoseMinTimeout <= sysdiagnoseTimeout args)%Z)
  /\ (forall (e : run_env) (w : World),
        is_err (PreRunE euid args) = true ->
        exists msg, Execute euid e args w = (Returned (Err msg), w)).
Proof.
  split.
  - unfold PreRunE.
    destruct (Z.eqb_spec euid 0); simpl.
    + destruct (Z.ltb_spec (interval args) 0);
        [split; [discriminate | lia]|].
      destruct (Z.ltb_spec (startupDelay args) 0);
        [split; [discriminate | lia]|].
      destruct (Z.ltb_spec (sysdiagnoseTimeout args) sysdiagnoseMinTimeout);
        [split; [discriminate | lia]|].
      split; [intros _; repeat split; assumption | reflexivity].
    + split; [discriminate | intros [Heq _]; contradiction].
  - intros e w Hrej. unfold Execute.
    destruct (PreRunE euid args) as [[]|msg]; [discriminate|].
    exists msg. reflexivity.
Qed.

Lemma C9_validation_witness :
  exists msg,
    Execute 0 idle_env negative_interval_config empty_world
    = (Returned (Err msg), empty_world).
Proof.
  apply (proj2 (C9_validation 0 negative_interval_config)).
  reflexivity.
Defined.

(** ** The call log is only extended by the calls that are logged *)

Lemma log_set_names f w : log (set_names f w) = log w.
Proof. reflexivity. Qed.

Lemma Mkdir_log ok name perm w : log (snd (os.Mkdir ok name perm w)) = log w.
Proof.
  unfold os.Mkdir. destruct (os.Stat name w); [reflexivity|].
  destruct (ok && negb (String.eqb name "")); reflexivity.
Qed.

Lemma MkdirAll_log ok path perm w : log (snd (os.MkdirAll ok path perm w)) = log w.
Proof.
  unfold os.MkdirAll. destruct (os.Stat path w) as [[]|]; try reflexivity.
  destruct (ok && negb (String.eqb path "")); [|reflexivity].
  destruct (os.mkdir_each perm (os.lineage path) (names w)); reflexivity.
Qed.

Lemma mkdirtemp_loop_log ok prefix suffix random w :
  log (snd (os.mkdirtemp_loop ok prefix suffix random w)) = log w.
Proof.
  induction random as [|r random IH]; simpl; [reflexivity|].
  destruct (os.Stat _ w); [exact IH|].
  pose proof (Mkdir_log ok (prefix ++ r ++ suffix) os.perm_0700 w) as H.
  destruct (os.Mkdir ok _ os.perm_0700 w) as [[]]; exact H.
Qed.

Lemma MkdirTemp_log ok tmp random dir pattern w :
  log (snd (os.MkdirTemp ok tmp random dir pattern w)) = log w.
Proof.
  unfold os.MkdirTemp. destruct (os.prefixAndSuffix pattern).
  apply mkdirtemp_loop_log.
Qed.

Lemma Chmod_log ok name perm w : log (snd (os.Chmod ok name perm w)) = log w.
Proof.
  unfold os.Chmod. destruct (os.Stat name w); [|reflexivity].
  destruct ok; reflexivity.
Qed.

Lemma OpenFile_log ok name flag perm w :
  log (snd (os.OpenFile ok name flag perm w)) = log w.
Proof.
  unfold os.OpenFile.
  destruct flag, (os.Stat name w) as [[]|]; try reflexivity;
    try (destruct ok; reflexivity).
  destruct (ok && negb (String.eqb name "")); reflexivity.
Qed.

Lemma Close_log h w : log (snd (os.Close h w)) = log w.
Proof. destruct h; reflexivity. Qed.

Lemma Remove_log ok name w : log (snd (os.Remove ok name w)) = log w.
Proof.
  unfold os.Remove. destruct (os.Stat name w) as [n|]; [|reflexivity].
  destruct (match n with NDir _ => _ | NFile _ _ => _ end); [reflexivity|].
  destruct ok; reflexivity.
Qed.

Lemma RemoveAll_log ok path w : log (snd (os.RemoveAll ok path w)) = log w.
Proof.
  unfold os.RemoveAll. destruct (String.eqb path ""); [reflexivity|].
  destruct ok; [reflexivity|]. destruct (os.Stat path w); reflexivity.
Qed.

Lemma Copy_log fault dst src w : log (snd (os.Copy fault dst src w)) = log w.
Proof.
  unfold os.Copy. destruct (os.ReadAll src w), dst, fault; reflexivity.
Qed.

Lemma Run_log out name argv w :
  log (snd (exec.Run out name argv w)) = (log w ++ [EvRun (name :: argv)])%list.
Proof.
  unfold exec.Run, bind, emit; simpl.
  destruct (exec.target argv) as [[dir base]|]; [|reflexivity].
  destruct (exec.written out); reflexivity.
Qed.

(** [frame E lem] turns an equation [E : op w = (r, w')] on a call that is
    not logged into [log w' = log w], by the lemma [lem] on that call. *)
Ltac frame E lem :=
  let H := fresh "Hlog" in
  pose proof lem as H; rewrite E in H; simpl in H.

Ltac logs :=
  simpl;
  repeat match goal with
         | H : log ?w = _ |- context [log ?w] => rewrite H
         end;
  rewrite <- ?app_assoc, ?app_nil_r; try reflexivity.

(** [Collect] logs nothing but the start of the external collector, and a
    call that returns a stream has started it. *)
Lemma Collect_log e n w :
  match sysdiagnose.Collect e n w with
  | (Ok _, w') => exists argv, log w' = (log w ++ [EvRun argv])%list
  | (Err _, w') =>
      exists l, log w' = (log w ++ l)%list
                /\ (l = [] \/ exists argv, l = [EvRun argv])
  end.
Proof.
  unfold sysdiagnose.Collect.
  destruct (String.eqb n ""); [exists []; rewrite app_nil_r; auto|].
  destruct (negb _); [exists []; rewrite app_nil_r; auto|].
  unfold bind, defer, ret.
  destruct (os.MkdirTemp _ _ _ _ _ w) as [[wd|m] w1] eqn:E1;
    frame E1 (MkdirTemp_log (sysdiagnose.mkdir_ok e) (sysdiagnose.TempDir e)
                (sysdiagnose.random e) "" "sysdiagnose-helper*" w);
    [|exists []; rewrite app_nil_r; auto].
  destruct (os.Chmod _ wd _ w1) as [[[]|m] w2] eqn:E2;
    frame E2 (Chmod_log (sysdiagnose.chmod_ok e) wd os.perm_0700 w1);
    [|exists []; split; [logs|auto]].
  destruct (sysdiagnose.sysdiagnoseArgs _) as [args|m];
    [|exists []; simpl; rewrite RemoveAll_log; split; [logs|auto]].
  destruct (exec.Run _ _ args w2) as [[[]|m] w3] eqn:E3;
    frame E3 (Run_log (sysdiagnose.run e) sysdiagnose.systemSysdiagnoseExecutable args w2).
  2:{ eexists; split; [|right; eexists; reflexivity].
      simpl. rewrite RemoveAll_log. logs. }
  destruct (os.OpenFile _ _ _ _ w3) as [[h|m] w4] eqn:E4;
    frame E4 (OpenFile_log (sysdiagnose.open_ok e)
                (sysdiagnose.archiveOutputPath wd n) os.O_RDONLY 0%N w3).
  2:{ eexists; split; [|right; eexists; reflexivity].
      simpl. rewrite RemoveAll_log. logs. }
  destruct (os.Remove _ _ w4) as [r5 w5] eqn:E5;
    frame E5 (Remove_log (sysdiagnose.remove_ok e)
                (sysdiagnose.archiveOutputPath wd n) w4).
  eexists. simpl. rewrite RemoveAll_log. logs.
Qed.

Lemma persist_log e path src w :
  match persist e path src w with
  | (Ok _, w') => exists n, log w' = (log w ++ [EvPersist path n])%list
  | (Err _, w') => log w' = log w
  end.
Proof.
  unfold persist, bind, defer, ret.
  destruct (os.OpenFile _ _ _ _ w) as [[h|m] w1] eqn:E1;
    frame E1 (OpenFile_log (create_ok e) path os.O_WRONLY_CREATE_EXCL os.perm_0400 w);
    [|assumption].
  destruct (os.Copy _ h src w1) as [[n|m] w2] eqn:E2;
    frame E2 (Copy_log (copy_fault e) h src w1).
  - simpl. exists n. rewrite Close_log. logs.
  - destruct (os.Remove _ _ w2) as [r3 w3] eqn:E3;
      frame E3 (Remove_log (unlink_ok e) path w2).
    simpl. rewrite Close_log. logs.
Qed.

(** What [runSysdiagnose] adds to the log: when it returns no error, one
    start of the external collector, one collection that succeeded and one
    persisted file; when it returns an error, no persisted file and at
    most one collection. *)
Lemma runSysdiagnose_log e args w :
  match runSysdiagnose e args w with
  | (Ok _, w') =>
      exists argv n,
        log w' = (log w ++ [EvRun argv;
                            EvCollect ("sysdiagnose_" ++ Format (now e)) true;
                            EvPersist (outputPath args (now e)) n])%list
  | (Err _, w') =>
      exists l, log w' = (log w ++ l)%list
                /\ count is_probe l = 0 /\ count is_persist l = 0
                /\ count is_collect l <= 1
  end.
Proof.
  unfold runSysdiagnose, bind, ret.
  destruct (os.MkdirAll _ _ _ w) as [[[]|m] w1] eqn:E1;
    frame E1 (MkdirAll_log (mkdirall_ok e) (outputDir args) os.perm_0700 w).
  2:{ exists []. rewrite app_nil_r. auto. }
  pose proof (Collect_log (collect e) ("sysdiagnose_" ++ Format (now e)) w1) as Hc.
  destruct (sysdiagnose.Collect _ _ w1) as [[h|m] w2] eqn:E2.
  - destruct Hc as [argv Hc]. unfold defer, emit; simpl.
    pose proof (persist_log e
      (filepath.Join [outputDir args; ("sysdiagnose_" ++ Format (now e)) ++ ".tar.gz"])
      h (mkWorld (names w2) (store w2) (opened w2) (next_ino w2)
           (log w2 ++ [EvCollect ("sysdiagnose_" ++ Format (now e)) true])%list)) as Hp.
    destruct (persist e _ h _) as [[[]|m] w3]; simpl in Hp |- *;
      rewrite Close_log.
    + destruct Hp as [k Hk]. exists argv, k. logs.
    + exists [EvRun argv; EvCollect ("sysdiagnose_" ++ Format (now e)) true].
      split; [logs|]. cbn. auto.
  - destruct Hc as (l & Hc & Hshape). unfold emit; simpl.
    destruct Hshape as [->|[argv ->]].
    + exists [EvCollect ("sysdiagnose_" ++ Format (now e)) false].
      split; [logs|]. cbn. auto.
    + exists [EvRun argv; EvCollect ("sysdiagnose_" ++ Format (now e)) false].
      split; [logs|]. cbn. auto.
Qed.

(** ** The file system after single calls *)

Lemma Mkdir_ok_inv ok name perm w w' :
  os.Mkdir ok name perm w = (Ok tt, w') ->
  os.Stat name w = None /\ os.Stat name w' = Some (NDir perm).
Proof.
  unfold os.Mkdir. destruct (os.Stat name w) eqn:Hs; [discriminate|].
  destruct ok; simpl; [|discriminate].
  destruct (String.eqb name "") eqn:Hn; simpl; [discriminate|].
  intros [= <-]. split; [reflexivity|].
  unfold os.Stat. rewrite Hn. simpl. apply lookup_insert_eq.
Qed.

Lemma mkdirtemp_loop_ok ok prefix suffix random w wd w' :
  os.mkdirtemp_loop ok prefix suffix random w = (Ok wd, w') ->
  os.Stat wd w = None /\ os.Stat wd w' = Some (NDir os.perm_0700).
Proof.
  induction random as [|r random IH]; simpl; [discriminate|].
  destruct (os.Stat (prefix ++ r ++ suffix) w) eqn:Hs; [exact IH|].
  destruct (os.Mkdir ok _ os.perm_0700 w) as [[[]|m] w1] eqn:Hm; [|discriminate].
  intros [= <- <-]. exact (Mkdir_ok_inv _ _ _ _ _ Hm).
Qed.

(** The directory [MkdirTemp] returns did not exist before the call and is
    a directory of mode [0700] after it. *)
Lemma MkdirTemp_ok ok tmp random dir pattern w wd w' :
  os.MkdirTemp ok tmp random dir pattern w = (Ok wd, w') ->
  os.Stat wd w = None /\ os.Stat wd w' = Some (NDir os.perm_0700).
Proof.
  unfold os.MkdirTemp. destruct (os.prefixAndSuffix pattern).
  apply mkdirtemp_loop_ok.
Qed.

Lemma OpenFile_create_inv ok path perm w dst w1 :
  os.OpenFile ok path os.O_WRONLY_CREATE_EXCL perm w = (Ok dst, w1) ->
  os.Stat path w = None /\ path <> "" /\
  dst = os.HFile (next_ino w) /\
  w1 = mkWorld (<[filepath.Clean path := NFile perm (next_ino w)]> (names w))
         (<[next_ino w := ""]> (store w)) ({[next_ino w]} ∪ opened w)
         (S (next_ino w)) (log w).
Proof.
  unfold os.OpenFile. destruct (os.Stat path w) eqn:Hs; [discriminate|].
  destruct ok; simpl; [|discriminate].
  destruct (String.eqb_spec path ""); simpl; [discriminate|].
  intros [= <- <-]. auto.
Qed.

Lemma Copy_names fault dst src w : names (snd (os.Copy fault dst src w)) = names w.
Proof.
  unfold os.Copy. destruct (os.ReadAll src w), dst, fault; reflexivity.
Qed.

Lemma Close_names h w : names (snd (os.Close h w)) = names w.
Proof. destruct h; reflexivity. Qed.

Lemma Stat_names p w w' : names w' = names w -> os.Stat p w' = os.Stat p w.
Proof. unfold os.Stat. intros ->. reflexivity. Qed.

(** ** Archive persistence *)

(** C8, counterexample: the copy fails after seven bytes and the removal of
    the partial file fails too; the error is surfaced and the partial file
    is still there. *)
Lemma C8_partial_file_left_behind :
  let r := persist copy_fails_unlink_fails new_archive (os.HFile 0) streaming_world in
  fst r = Err "failed to write sysdiagnose data: input/output error"
  /\ os.Stat new_archive (snd r) = Some (NFile os.perm_0400 2)
  /\ store (snd r) !! 2 = Some "ARCHIVE".
Proof. vm_compute. auto. Qed.

(** C8, as amended: when the target path names an existing entry,
    persistence fails and leaves the world as it was, the existing file
    neither truncated nor overwritten; when the copy of the stream fails,
    the removal of the partial file is attempted before the error is
    surfaced, and the file is gone whenever that removal succeeds (a
    removal that fails is ignored). *)
Theorem C8_persist (e : sys_env) (path : string) (src : os.handle) (w : World) :
  (os.Stat path w <> None -> exists msg, persist e path src w = (Err msg, w))
  /\ (forall dst w1 err w2,
        os.OpenFile (create_ok e) path os.O_WRONLY_CREATE_EXCL os.perm_0400 w
        = (Ok dst, w1) ->
        os.Copy (copy_fault e) dst src w1 = (Err err, w2) ->
        exists w',
          persist e path src w
          = (Err ("failed to write sysdiagnose data: " ++ err), w')
          /\ (unlink_ok e = true -> os.Stat path w' = None)).
Proof.
  split.
  - intros Hex. unfold persist, bind, os.OpenFile.
    destruct (os.Stat path w); [|contradiction]. eexists. reflexivity.
  - intros dst w1 err w2 Hopen Hcopy.
    unfold persist, bind, defer. rewrite Hopen, Hcopy.
    pose proof (Copy_names (copy_fault e) dst src w1) as Hn.
    rewrite Hcopy in Hn. simpl in Hn.
    destruct (OpenFile_create_inv _ _ _ _ _ _ Hopen) as (Hnone & Hne & -> & ->).
    destruct (os.Remove (unlink_ok e) path w2) as [r w3] eqn:Hrm.
    eexists; split; [reflexivity|].
    unfold os.Remove in Hrm.
    assert (Hs2 : os.Stat path w2 = Some (NFile os.perm_0400 (next_ino w))).
    { unfold os.Stat. destruct (String.eqb_spec path ""); [contradiction|].
      rewrite Hn. simpl. apply lookup_insert_eq. }
    rewrite Hs2 in Hrm. simpl in Hrm.
    destruct (unlink_ok e); injection Hrm as <- <-; simpl; [|discriminate].
    intros _. unfold os.Stat. destruct (String.eqb_spec path ""); [reflexivity|].
    simpl. apply lookup_delete_eq.
Qed.

Lemma C8_persist_witness :
  (exists msg, persist copy_fails earlier_archive (os.HFile 0) streaming_world
               = (Err msg, streaming_world))
  /\ (exists w',
        persist copy_fails new_archive (os.HFile 0) streaming_world
        = (Err "failed to write sysdiagnose data: input/output error", w')
        /\ os.Stat new_archive w' = None).
Proof.
  split.
  - apply (proj1 (C8_persist copy_fails earlier_archive (os.HFile 0) streaming_world)).
    vm_compute. discriminate.
  - destruct (proj2 (C8_persist copy_fails new_archive (os.HFile 0) streaming_world)
                _ _ "input/output error" _ eq_refl eq_refl) as (w' & Hp & Hs).
    exists w'. split; [exact Hp | apply Hs; reflexivity].
Defined.

(** ** The scheduler *)

Lemma count_app p l1 l2 : count p (l1 ++ l2)%list = count p l1 + count p l2.
Proof. unfold count. rewrite List.filter_app, length_app. reflexivity. Qed.

(** C1, counterexample: in each of these runs every probe fails and every
    collection returns its stream.  In the first the copy to the output
    file fails on the first tick, and the scheduler probes and collects a
    second time; the second is cancelled during the startup delay and never
    probes; in the third the host directory cannot be created on the first
    tick and the scheduler probes twice. *)
Lemma C1_more_or_fewer_than_one_probe :
  (let r := Execute 0 disk_full_run default_args host_world in
   probe_always_fails (snd r) = true /\ collector_always_succeeds (snd r) = true
   /\ fst r = Returned (Ok tt)
   /\ probes (snd r) = 2 /\ collections (snd r) = 2 /\ persisted (snd r) = 1)
  /\ (let r := Execute 0 cancelled_run default_args host_world in
      probe_always_fails (snd r) = true /\ collector_always_succeeds (snd r) = true
      /\ fst r = Returned (Err ctxErr)
      /\ probes (snd r) = 0 /\ collections (snd r) = 0 /\ persisted (snd r) = 0)
  /\ (let r := Execute 0 mkdir_denied_run default_args host_world in
      probe_always_fails (snd r) = true /\ collector_always_succeeds (snd r) = true
      /\ fst r = Returned (Ok tt)
      /\ probes (snd r) = 2 /\ collections (snd r) = 1 /\ persisted (snd r) = 1).
Proof. vm_compute. repeat split. Qed.

(** C1, as amended: in every run that reaches its first tick, on which the
    probe fails and the creation of the host directory, the collection and
    the persistence of the archive all succeed, the scheduler makes exactly
    one probe, one collection and one persisted file, and returns without
    error; whatever wake-ups would follow are never consumed, so no second
    collection starts. *)
Theorem C1_capture_once (args : networkHealthMonitorArgs) (t : tick)
    (rest : list wakeup) (w w1 w2 : World) :
  is_err (checkIMDS (probe t)) = true ->
  os.MkdirAll (dir_ok t) (baseDir args) os.perm_0700
    (snd (runCheckIMDS (probe t) w)) = (Ok tt, w1) ->
  runSysdiagnose (sys t) (mkSysArgs (baseDir args) (sysdiagnoseTimeout args)) w1
  = (Ok tt, w2) ->
  runNetworkHealthMonitor true (TimerFired t :: rest) args w = (Returned (Ok tt), w2)
  /\ probes w2 = probes w + 1
  /\ collections w2 = collections w + 1
  /\ persisted w2 = persisted w + 1.
Proof.
  intros Hprobe Hdir Hsys.
  pose proof (runSysdiagnose_log (sys t)
                (mkSysArgs (baseDir args) (sysdiagnoseTimeout args)) w1) as Hl.
  rewrite Hsys in Hl. destruct Hl as (argv & n & Hl).
  frame Hdir (MkdirAll_log (dir_ok t) (baseDir args) os.perm_0700
                (snd (runCheckIMDS (probe t) w))).
  split.
  - unfold runNetworkHealthMonitor; simpl.
    unfold bind at 1. unfold checkNetworkAndCollect, bind at 1.
    destruct (runCheckIMDS (probe t) w) as [r w0] eqn:Hr.
    assert (Hres : r = checkIMDS (probe t)) by (injection Hr as <- _; reflexivity).
    destruct r as [[]|m]; [rewrite <- Hres in Hprobe; discriminate|].
    simpl in Hdir. unfold bind. cbn [outputDir]. rewrite Hdir, Hsys.
    reflexivity.
  - unfold probes, collections, persisted.
    rewrite Hl, Hlog. unfold runCheckIMDS, bind, emit, ret; simpl.
    rewrite !count_app. cbn. lia.
Qed.

Lemma C1_capture_once_witness :
  exists w2,
    runNetworkHealthMonitor true [TimerFired outage_tick; TimerFired outage_tick]
      default_args host_world = (Returned (Ok tt), w2)
    /\ probes w2 = 1 /\ collections w2 = 1 /\ persisted w2 = 1.
Proof.
  eexists.
  eapply (C1_capture_once default_args outage_tick [TimerFired outage_tick]
            host_world);
    [reflexivity | vm_compute; reflexivity | vm_compute; reflexivity].
Defined.

(** C6, counterexample: the host directory cannot be created on the first
    tick; the run does not end there, it probes again on the next tick and
    is then still waiting for the one after. *)
Lemma C6_polling_continues_after_mkdir_failure :
  let r := Execute 0 mkdir_denied_then_healthy default_args host_world in
  fst r = Waiting /\ probes (snd r) = 2 /\ collections (snd r) = 0.
Proof. vm_compute. repeat split. Qed.

(** C6, as amended: a failure to create the base output directory at
    startup ends the run with that error; a failure to create the
    host-specific directory before a collection attempt does not: the
    scheduler goes on to its next wake-up. *)
Theorem C6_directory_failures (e : run_env) (args : networkHealthMonitorArgs)
    (sysArgs : sysdiagnoseArgs) (t : tick) (rest : list wakeup)
    (w w1 : World) (msg : string) :
  (os.MkdirAll (base_ok e) (baseDir args) os.perm_0700 w = (Err msg, w1) ->
   RunE e args w
   = (Returned (Err ("base output directory creation: " ++ msg)), w1))
  /\ (is_err (checkIMDS (probe t)) = true ->
      os.MkdirAll (dir_ok t) (outputDir sysArgs) os.perm_0700
        (snd (runCheckIMDS (probe t) w)) = (Err msg, w1) ->
      monitor_loop sysArgs (TimerFired t :: rest) w = monitor_loop sysArgs rest w1).
Proof.
  split.
  - intros Hdir. unfold RunE, bind. rewrite Hdir. reflexivity.
  - intros Hprobe Hdir. simpl. unfold bind at 1.
    unfold checkNetworkAndCollect, bind at 1.
    destruct (runCheckIMDS (probe t) w) as [r w0] eqn:Hr.
    assert (Hres : r = checkIMDS (probe t)) by (injection Hr as <- _; reflexivity).
    destruct r as [[]|m]; [rewrite <- Hres in Hprobe; discriminate|].
    simpl in Hdir. unfold bind. rewrite Hdir. reflexivity.
Qed.

Lemma C6_directory_failures_witness :
  RunE (mkRunEnv (Err "exit status 1") false true []) default_args host_world
  = (Returned (Err "base output directory creation: permission denied"), host_world)
  /\ monitor_loop (mkSysArgs default_base sysdiagnoseDefaultTimeout)
       [TimerFired (mkTick ConnectFailed false good_sys); TimerFired healthy_tick]
       host_world
     = monitor_loop (mkSysArgs default_base sysdiagnoseDefaultTimeout)
         [TimerFired healthy_tick]
         (snd (runCheckIMDS ConnectFailed host_world)).
Proof.
  split.
  - apply (proj1 (C6_directory_failures
                    (mkRunEnv (Err "exit status 1") false true []) default_args
                    (mkSysArgs default_base sysdiagnoseDefaultTimeout)
                    healthy_tick [] host_world host_world "permission denied")).
    reflexivity.
  - apply (proj2 (C6_directory_failures idle_env default_args
                    (mkSysArgs default_base sysdiagnoseDefaultTimeout)
                    (mkTick ConnectFailed false good_sys)
                    [TimerFired healthy_tick] host_world
                    (snd (runCheckIMDS ConnectFailed host_world))
                    "permission denied")); reflexivity.
Defined.

(** C2: the output directory is [/Volumes/Data [1]/sysdiagnose] and an
    archive of an earlier capture is in its host directory.  The pattern
    handed to [Glob] is built from the directory name as it is, so its
    [[1]] is read as a character class; nothing matches, and the scheduler
    starts, probes and collects a second archive.  *)
Theorem C2_bracket_in_directory_name :
  let r := Execute 0 outage_run bracket_args bracket_world in
  prefixDir outage_run bracket_args = "/Volumes/Data [1]/sysdiagnose/unknown"
  /\ filepath.Dir bracket_archive = prefixDir outage_run bracket_args
  /\ os.Stat bracket_archive bracket_world = Some (NFile os.perm_0400 0)
  /\ filepath_match.Match "sysdiagnose_*.tar.gz" (filepath.Base bracket_archive)
     = Ok true
  /\ filepath_match.Glob
       (filepath.Join [prefixDir outage_run bracket_args; "sysdiagnose_*.tar.gz"])
       bracket_world = Ok []
  /\ fst r = Returned (Ok tt)
  /\ probes (snd r) = 1 /\ collections (snd r) = 1 /\ persisted (snd r) = 1.
Proof. vm_compute. repeat split. Qed.

(** ** The collector *)

(** C3: the validation compares [Base] with [Clean], not with the name
    itself, so names with a separator that [Clean] removes pass it:
    [a/], [./a], [/] and [../].  For [../] the archive path is the parent
    of the workspace: the collector is told to write [/tmp/.tar.gz], and
    when the removal after opening fails the file stays there, outside the
    workspace [/tmp/sysdiagnose-helper3141592653].  The empty name is
    rejected with the world untouched. *)
Theorem C3_name_with_separator_accepted :
  (forall e w, sysdiagnose.Collect e "" w = (Err "archive name required", w))
  /\ sysdiagnose.valid_name "a/" = true
  /\ sysdiagnose.valid_name "./a" = true
  /\ sysdiagnose.valid_name "/" = true
  /\ sysdiagnose.valid_name "../" = true
  /\ sysdiagnose.archiveOutputPath work_dir "../" = "/tmp/.tar.gz"
  /\ os.under work_dir "/tmp/.tar.gz" = false
  /\ (let r := sysdiagnose.Collect unlink_denied "../" host_world in
      fst r = Ok (os.HFile 0)
      /\ log (snd r)
         = [EvRun ["/usr/bin/sysdiagnose"; "-f"; "/tmp"; "-A"; ".tar.gz"; "-u"; "-b"]]
      /\ os.Stat "/tmp/.tar.gz" host_world = None
      /\ os.Stat "/tmp/.tar.gz" (snd r) = Some (NFile exec.archive_perm 0)
      /\ os.Stat work_dir (snd r) = None).
Proof.
  split; [reflexivity|]. vm_compute. repeat split.
Qed.

(** C4, counterexample: neither the removal of the archive after opening
    nor the removal of the workspace succeeds; [Collect] still returns the
    stream, and the archive can be opened by its path. *)
Lemma C4_archive_entry_still_present :
  let name := "sysdiagnose_20240601_120000" in
  let path := sysdiagnose.archiveOutputPath work_dir name in
  let r := sysdiagnose.Collect nothing_removable name host_world in
  fst r = Ok (os.HFile 0)
  /\ os.Stat path (snd r) = Some (NFile exec.archive_perm 0)
  /\ is_ok (fst (os.OpenFile true path os.O_RDONLY 0 (snd r))) = true.
Proof. vm_compute. repeat split. Qed.

(** C5: when [Chmod] on the new workspace fails, [Collect] returns before
    the removal of the workspace is deferred, and the workspace directory
    is still there when the call has returned. *)
Theorem C5_chmod_failure_leaks_workspace (e : sysdiagnose.env) (name : string)
    (w w1 : World) (workDir : string) :
  sysdiagnose.valid_name name = true ->
  os.MkdirTemp (sysdiagnose.mkdir_ok e) (sysdiagnose.TempDir e)
    (sysdiagnose.random e) "" "sysdiagnose-helper*" w = (Ok workDir, w1) ->
  sysdiagnose.chmod_ok e = false ->
  sysdiagnose.Collect e name w
  = (Err "unable to chmod sysdiagnose dir: operation not permitted", w1)
  /\ os.Stat workDir w = None
  /\ os.Stat workDir w1 = Some (NDir os.perm_0700).
Proof.
  intros Hvalid Hmk Hch.
  destruct (MkdirTemp_ok _ _ _ _ _ _ _ _ Hmk) as [Hbefore Hafter].
  split; [|split; assumption].
  unfold sysdiagnose.valid_name in Hvalid.
  apply andb_prop in Hvalid as [Hne Hbase].
  unfold sysdiagnose.Collect.
  destruct (String.eqb name ""); [discriminate|]. rewrite Hbase. simpl.
  unfold bind. rewrite Hmk. unfold os.Chmod. rewrite Hafter, Hch. reflexivity.
Qed.

Lemma C5_chmod_failure_leaks_workspace_witness :
  sysdiagnose.Collect chmod_denied "sysdiagnose_20240601_120000" host_world
  = (Err "unable to chmod sysdiagnose dir: operation not permitted",
     set_names (insert work_dir (NDir os.perm_0700)) host_world)
  /\ os.Stat work_dir host_world = None
  /\ os.Stat work_dir (set_names (insert work_dir (NDir os.perm_0700)) host_world)
     = Some (NDir os.perm_0700).
Proof.
  apply (C5_chmod_failure_leaks_workspace chmod_denied
           "sysdiagnose_20240601_120000" host_world); reflexivity.
Defined.

(** ** Cleaned paths *)

Lemma split_noslash e : noslash e -> split e = [e].
Proof.
  unfold noslash. induction e as [|c e IH]; simpl; [reflexivity|].
  intros H. inversion H as [|? ? Hc He]; subst. rewrite Hc, (IH He). reflexivity.
Qed.

Lemma split_app_sep e s :
  noslash e -> split (e ++ String Separator s) = e :: split s.
Proof.
  unfold noslash. induction e as [|c e IH]; simpl; intros H.
  - reflexivity.
  - inversion H as [|? ? Hc He]; subst. rewrite Hc, (IH He). reflexivity.
Qed.

Lemma split_join es :
  es <> [] -> Forall noslash es -> split (join es) = es.
Proof.
  induction es as [|e es IH]; [congruence|]. intros _ H.
  inversion H as [|? ? He Hes]; subst.
  destruct es as [|e' es]; simpl.
  - apply split_noslash, He.
  - rewrite split_app_sep by exact He. f_equal. apply IH; [discriminate|exact Hes].
Qed.

Lemma split_all_noslash s : Forall noslash (split s).
Proof.
  induction s as [|c s IH]; simpl.
  - repeat constructor.
  - destruct (IsPathSeparator c) eqn:Hc.
    + constructor; [constructor|exact IH].
    + destruct (split s) as [|e es]; [repeat constructor; exact Hc|].
      inversion IH; subst. constructor; [|assumption].
      constructor; assumption.
Qed.

Lemma stack_ok_canon r out : stack_ok r out -> canon r (rev out).
Proof.
  unfold stack_ok, canon. destruct r.
  - intros H. apply List.Forall_rev. exact H.
  - intros (ps & ds & -> & Hp & Hd). exists (rev ds), (rev ps).
    rewrite rev_app_distr. repeat split; apply List.Forall_rev; assumption.
Qed.

Lemma plain_not_dotdot e : plain e -> e <> "..".
Proof. intros (_ & _ & _ & H). exact H. Qed.

Lemma eqb_false_iff_ne (a b : string) : String.eqb a b = false <-> a <> b.
Proof. destruct (String.eqb_spec a b); split; congruence. Qed.

Lemma clean_loop_stack r out es :
  stack_ok r out -> Forall noslash es ->
  exists out', clean_loop r out es = rev out' /\ stack_ok r out'.
Proof.
  revert out. induction es as [|e es IH]; intros out Hout Hes; simpl.
  - exists out. auto.
  - inversion Hes as [|? ? He Hes']; subst.
    destruct (String.eqb_spec e ""); simpl; [apply IH; assumption|].
    destruct (String.eqb_spec e "."); simpl; [apply IH; assumption|].
    destruct (String.eqb_spec e "..").
    + destruct out as [|top out'].
      * destruct r; apply IH; try assumption.
        exists [], [".."]. repeat split; repeat constructor.
      * destruct (String.eqb_spec top "..").
        -- apply IH; [|assumption]. subst. unfold stack_ok in *. destruct r.
           ++ inversion Hout as [|? ? Hp _]; subst.
              exfalso. exact (plain_not_dotdot _ Hp eq_refl).
           ++ destruct Hout as (ps & ds & Heq & Hp & Hd).
              destruct ps as [|p ps]; simpl in Heq.
              ** exists [], (".." :: ds). subst ds.
                 repeat split; [constructor|constructor; [reflexivity|exact Hd]].
              ** injection Heq as <- _. inversion Hp as [|? ? Hp1 _]; subst.
                 exfalso. exact (plain_not_dotdot _ Hp1 eq_refl).
        -- apply IH; [|assumption]. unfold stack_ok in *. destruct r.
           ++ inversion Hout; assumption.
           ++ destruct Hout as (ps & ds & Heq & Hp & Hd).
              destruct ps as [|p ps]; simpl in Heq.
              ** subst ds. inversion Hd as [|? ? Ht _]; subst. contradiction.
              ** injection Heq as <- ->. inversion Hp; subst.
                 exists ps, ds. auto.
    + apply IH; [|assumption].
      assert (Hpl : plain e) by (repeat split; assumption).
      unfold stack_ok in *. destruct r.
      * constructor; assumption.
      * destruct Hout as (ps & ds & -> & Hp & Hd).
        exists (e :: ps), ds. repeat split; [constructor|]; assumption.
Qed.

Lemma clean_loop_canon r es :
  Forall noslash es -> canon r (clean_loop r [] es).
Proof.
  intros Hes. destruct (clean_loop_stack r [] es) as (out' & -> & Hok).
  - unfold stack_ok. destruct r; [constructor|].
    exists [], []. repeat split; constructor.
  - exact Hes.
  - apply stack_ok_canon, Hok.
Qed.

(** A canonical list is left as it is by [clean_loop]. *)
Lemma clean_loop_plain r out ps :
  Forall plain ps -> clean_loop r out ps = (rev out ++ ps)%list.
Proof.
  revert out. induction ps as [|p ps IH]; intros out H; simpl.
  - rewrite app_nil_r. reflexivity.
  - inversion H as [|? ? (Hn & H1 & H2 & H3) Hps]; subst.
    apply eqb_false_iff_ne in H1, H2, H3. rewrite H1, H2, H3. simpl.
    rewrite IH by assumption. simpl. rewrite <- app_assoc. reflexivity.
Qed.

Lemma clean_loop_dotdots out ds ps :
  Forall is_dotdot out -> Forall is_dotdot ds -> Forall plain ps ->
  clean_loop false out (ds ++ ps) = (rev out ++ ds ++ ps)%list.
Proof.
  revert out. induction ds as [|d ds IH]; intros out Hout Hds Hps; simpl.
  - apply clean_loop_plain, Hps.
  - inversion Hds as [|? ? Hd Hds']; subst. red in Hd. subst d. simpl.
    destruct out as [|top out'].
    + rewrite IH; [reflexivity|repeat constructor|assumption|assumption].
    + inversion Hout as [|? ? Ht _]; subst. red in Ht. subst top. simpl.
      rewrite IH; [|constructor; [reflexivity|exact Hout]|assumption|assumption].
      simpl. rewrite <- !app_assoc. reflexivity.
Qed.

Lemma clean_loop_fix r l : canon r l -> clean_loop r [] l = l.
Proof.
  unfold canon. destruct r.
  - intros H. apply (clean_loop_plain true [] l H).
  - intros (ds & ps & -> & Hd & Hp).
    apply (clean_loop_dotdots [] ds ps); [constructor|assumption|assumption].
Qed.

Lemma Clean_render_split path :
  path <> "" ->
  Clean path = render (rooted path) (clean_loop (rooted path) [] (split path)).
Proof.
  intros Hne. unfold Clean, render.
  destruct (String.eqb_spec path ""); [contradiction|]. reflexivity.
Qed.

Lemma canon_noslash r l : canon r l -> Forall noslash l.
Proof.
  unfold canon. destruct r.
  - apply List.Forall_impl. intros e (H & _). exact H.
  - intros (ds & ps & -> & Hd & Hp). apply Forall_app. split.
    + revert Hd. apply List.Forall_impl. intros e ->. repeat constructor.
    + revert Hp. apply List.Forall_impl. intros e (H & _). exact H.
Qed.

Lemma canon_head_nonempty r e l : canon r (e :: l) -> e <> "" /\ noslash e.
Proof.
  intros H. split.
  - unfold canon in H. destruct r.
    + inversion H as [|? ? (_ & Hne & _) _]; subst. exact Hne.
    + destruct H as (ds & ps & Heq & Hd & Hp).
      destruct ds as [|d ds]; simpl in Heq.
      * subst ps. inversion Hp as [|? ? (_ & Hne & _) _]; subst. exact Hne.
      * injection Heq as <- _. inversion Hd as [|? ? Hdd _]; subst.
        rewrite Hdd. discriminate.
  - pose proof (canon_noslash _ _ H) as Hn. inversion Hn; assumption.
Qed.

Lemma join_head c t l : exists s, join (String c t :: l) = String c s.
Proof. destruct l; simpl; eauto. Qed.

Lemma noslash_head c t : noslash (String c t) -> IsPathSeparator c = false.
Proof. intros H. inversion H; assumption. Qed.

Lemma Clean_render r l : canon r l -> Clean (render r l) = render r l.
Proof.
  intros Hc. pose proof (canon_noslash _ _ Hc) as Hn.
  destruct r.
  - rewrite Clean_render_split by discriminate.
    change (rooted (render true l)) with true.
    change (split (render true l)) with ("" :: split (join l)).
    change (clean_loop true [] ("" :: split (join l)))
      with (clean_loop true [] (split (join l))).
    destruct l as [|e l']; [reflexivity|].
    rewrite split_join by (try discriminate; assumption).
    rewrite (clean_loop_fix true _ Hc). reflexivity.
  - destruct l as [|e l']; [reflexivity|].
    destruct (canon_head_nonempty _ _ _ Hc) as [Hne Hns].
    destruct e as [|c t]; [contradiction|].
    destruct (join_head c t l') as [s Hs].
    assert (Hr : rooted (render false (String c t :: l')) = false).
    { unfold render. rewrite Hs. simpl. apply (noslash_head _ _ Hns). }
    rewrite Clean_render_split by (unfold render; rewrite Hs; discriminate).
    rewrite Hr.
    change (render false (String c t :: l')) with (join (String c t :: l')) at 1.
    rewrite split_join by (try discriminate; assumption).
    rewrite (clean_loop_fix false _ Hc). reflexivity.
Qed.

(** Every cleaned path is the rendering of a canonical list of elements. *)
Lemma Clean_canon path :
  exists r l, canon r l /\ Clean path = render r l.
Proof.
  destruct (String.eqb_spec path "") as [->|Hne].
  - exists false, []. split; [|reflexivity].
    exists [], []. repeat split; constructor.
  - exists (rooted path), (clean_loop (rooted path) [] (split path)).
    split; [|apply Clean_render_split, Hne].
    apply clean_loop_canon, split_all_noslash.
Qed.

Lemma Clean_idempotent path : Clean (Clean path) = Clean path.
Proof.
  destruct (Clean_canon path) as (r & l & Hc & ->). apply Clean_render, Hc.
Qed.

Lemma Clean_nonempty path : Clean path <> "".
Proof.
  destruct (Clean_canon path) as (r & l & Hc & ->).
  destruct r; [discriminate|]. destruct l as [|e l']; [discriminate|].
  destruct (canon_head_nonempty _ _ _ Hc) as [Hne _].
  destruct e as [|c t]; [contradiction|].
  destruct (join_head c t l') as [s Hs]. unfold render. rewrite Hs. discriminate.
Qed.

Lemma append_nil_l (b : string) : "" ++ b = b.
Proof. reflexivity. Qed.

Lemma append_cons (x : ascii) (a b : string) : String x a ++ b = String x (a ++ b).
Proof. reflexivity. Qed.

Lemma append_assoc (a b c : string) : (a ++ b) ++ c = a ++ (b ++ c).
Proof.
  induction a as [|x a IH]; [reflexivity|].
  rewrite !append_cons, IH. reflexivity.
Qed.

Lemma join_snoc init e :
  init <> [] -> join (init ++ [e]) = join init ++ String Separator e.
Proof.
  induction init as [|a init IH]; [congruence|]. intros _.
  destruct init as [|b init]; [reflexivity|].
  change (join ((a :: b :: init) ++ [e]))
    with (a ++ String Separator (join ((b :: init) ++ [e]))).
  rewrite IH by discriminate.
  change (join (a :: b :: init)) with (a ++ String Separator (join (b :: init))).
  rewrite append_assoc. reflexivity.
Qed.

Lemma clean_loop_snoc_empty r out es :
  clean_loop r out (es ++ [""]) = clean_loop r out es.
Proof.
  revert out. induction es as [|e es IH]; intros out; [reflexivity|].
  simpl. destruct (String.eqb e "" || String.eqb e "."); [apply IH|].
  destruct (String.eqb e ".."); [|apply IH].
  destruct out as [|top out']; [destruct r; apply IH|].
  destruct (String.eqb top ".."); apply IH.
Qed.

Lemma canon_elem r l e : canon r l -> In e l -> noslash e /\ e <> "".
Proof.
  intros Hc Hin. unfold canon in Hc.
  assert (Hp : forall x, plain x -> noslash x /\ x <> "")
    by (intros x (H1 & H2 & _); auto).
  assert (Hd : forall x, is_dotdot x -> noslash x /\ x <> "")
    by (intros x ->; split; [repeat constructor|discriminate]).
  destruct r.
  - rewrite List.Forall_forall in Hc. auto.
  - destruct Hc as (ds & ps & -> & Hds & Hps).
    rewrite List.Forall_forall in Hds, Hps.
    apply in_app_or in Hin as [H|H]; auto.
Qed.

Lemma canon_init r init e : canon r (init ++ [e]) -> canon r init.
Proof.
  unfold canon. destruct r.
  - intros H. apply Forall_app in H. tauto.
  - intros (ds & ps & Heq & Hd & Hp).
    destruct ps as [|p ps] using rev_ind.
    + rewrite app_nil_r in Heq. subst ds.
      apply Forall_app in Hd as [Hd _].
      exists init, []. rewrite app_nil_r. repeat split; [assumption|constructor].
    + clear IHps. rewrite app_assoc in Heq. apply app_inj_tail in Heq as [-> _].
      apply Forall_app in Hp as [Hp _]. exists ds, ps. auto.
Qed.

(** The last element of a path and what comes before it. *)
Lemma last_elem_rev_app y rest acc :
  Forall (fun c => IsPathSeparator c = false) y ->
  match rest with [] => True | c :: _ => IsPathSeparator c = true end ->
  last_elem_rev (y ++ rest) acc = (rev y ++ acc)%list.
Proof.
  revert acc. induction y as [|c y IH]; intros acc Hy Hrest; simpl.
  - destruct rest as [|c rest]; [reflexivity|]. simpl. rewrite Hrest. reflexivity.
  - inversion Hy as [|? ? Hc Hy']; subst. rewrite Hc, IH by assumption.
    rewrite <- app_assoc. reflexivity.
Qed.

Lemma upto_last_sep_rev_app y rest :
  Forall (fun c => IsPathSeparator c = false) y ->
  upto_last_sep_rev (y ++ rest) = upto_last_sep_rev rest.
Proof.
  induction y as [|c y IH]; intros Hy; [reflexivity|].
  inversion Hy as [|? ? Hc Hy']; subst. simpl. rewrite Hc. apply IH, Hy'.
Qed.

Lemma list_ascii_app a b :
  list_ascii_of_string (a ++ b)
  = (list_ascii_of_string a ++ list_ascii_of_string b)%list.
Proof.
  induction a as [|c a IH]; [reflexivity|].
  rewrite append_cons. simpl. rewrite IH. reflexivity.
Qed.

Lemma rev_dir_part pre :
  dir_part pre ->
  match rev (list_ascii_of_string pre) with
  | [] => pre = ""
  | c :: _ => IsPathSeparator c = true
  end.
Proof.
  intros [->|[q ->]]; [reflexivity|].
  rewrite list_ascii_app, rev_app_distr. reflexivity.
Qed.

Lemma Base_app pre e :
  dir_part pre -> noslash e -> e <> "" -> Base (pre ++ e) = e.
Proof.
  intros Hpre He Hne. unfold Base.
  destruct (String.eqb_spec (pre ++ e) "") as [Heq|_].
  { destruct pre; [simpl in Heq; contradiction|discriminate]. }
  rewrite list_ascii_app, rev_app_distr.
  assert (Hrev : Forall (fun c => IsPathSeparator c = false)
                   (rev (list_ascii_of_string e)))
    by (apply List.Forall_rev, He).
  destruct (rev (list_ascii_of_string e)) as [|c y] eqn:Hy.
  { exfalso. apply Hne. apply (f_equal (@rev ascii)) in Hy.
    rewrite rev_involutive in Hy. simpl in Hy.
    rewrite <- (string_of_list_ascii_of_string e), Hy. reflexivity. }
  simpl. inversion Hrev as [|? ? Hc Hy']; subst. rewrite Hc.
  change (c :: (y ++ rev (list_ascii_of_string pre))%list)
    with ((c :: y) ++ rev (list_ascii_of_string pre))%list.
  rewrite last_elem_rev_app; [|exact Hrev|].
  - rewrite app_nil_r, <- Hy, rev_involutive.
    destruct (list_ascii_of_string e) eqn:He'.
    + exfalso. apply Hne.
      rewrite <- (string_of_list_ascii_of_string e), He'. reflexivity.
    + rewrite <- (string_of_list_ascii_of_string e). rewrite He'. reflexivity.
  - pose proof (rev_dir_part pre Hpre) as H.
    destruct (rev (list_ascii_of_string pre)); [exact I|exact H].
Qed.

Lemma Dir_app pre e :
  dir_part pre -> noslash e -> Dir (pre ++ e) = Clean pre.
Proof.
  intros Hpre He. unfold Dir. f_equal.
  rewrite list_ascii_app, rev_app_distr.
  rewrite upto_last_sep_rev_app by (apply List.Forall_rev, He).
  pose proof (rev_dir_part pre Hpre) as H.
  destruct (rev (list_ascii_of_string pre)) as [|c y] eqn:Hy.
  - subst pre. reflexivity.
  - simpl. rewrite H. rewrite <- Hy, rev_involutive.
    apply string_of_list_ascii_of_string.
Qed.

Lemma render_snoc r init e : render r (init ++ [e]) = pre_of r init ++ e.
Proof.
  unfold render, pre_of.
  destruct init as [|a init].
  - destruct r; reflexivity.
  - assert (Hj : join ((a :: init) ++ [e])
                 = (join (a :: init) ++ String Separator "") ++ e).
    { rewrite join_snoc by discriminate. rewrite append_assoc. reflexivity. }
    destruct r.
    + rewrite Hj, append_cons, append_nil_l. reflexivity.
    + rewrite append_nil_l, <- Hj. reflexivity.
Qed.

Lemma dir_part_pre_of r init : dir_part (pre_of r init).
Proof.
  unfold dir_part, pre_of. destruct init as [|a init].
  - destruct r; [right; exists ""; reflexivity|left; reflexivity].
  - right. destruct r.
    + exists (String Separator (join (a :: init))). reflexivity.
    + exists (join (a :: init)). reflexivity.
Qed.

Lemma Clean_pre_of r init : canon r init -> Clean (pre_of r init) = render r init.
Proof.
  intros Hc. destruct init as [|a init]; [destruct r; reflexivity|].
  assert (Hns : Forall noslash ((a :: init) ++ [""])).
  { apply Forall_app. split; [exact (canon_noslash _ _ Hc)|repeat constructor]. }
  assert (Hpre : pre_of r (a :: init)
                 = (if r then String Separator "" else "")
                   ++ join ((a :: init) ++ [""])).
  { unfold pre_of. rewrite join_snoc by discriminate. reflexivity. }
  rewrite Hpre. destruct r.
  - rewrite append_cons, append_nil_l.
    rewrite Clean_render_split by discriminate.
    change (rooted (String Separator (join ((a :: init) ++ [""])))) with true.
    change (split (String Separator (join ((a :: init) ++ [""]))))
      with ("" :: split (join ((a :: init) ++ [""]))).
    change (clean_loop true [] ("" :: split (join ((a :: init) ++ [""]))))
      with (clean_loop true [] (split (join ((a :: init) ++ [""])))).
    rewrite split_join by (try assumption; discriminate).
    rewrite clean_loop_snoc_empty, (clean_loop_fix true _ Hc). reflexivity.
  - rewrite append_nil_l.
    destruct (canon_head_nonempty _ _ _ Hc) as [Hne Hn].
    destruct a as [|c t]; [contradiction|].
    destruct (join_head c t (init ++ [""])) as [s Hs].
    change ((String c t :: init) ++ [""])%list
      with (String c t :: (init ++ [""]))%list in *.
    assert (Hr : rooted (join (String c t :: init ++ [""])) = false).
    { rewrite Hs. simpl. apply (noslash_head _ _ Hn). }
    rewrite Clean_render_split by (rewrite Hs; discriminate).
    rewrite Hr, split_join by (try assumption; discriminate).
    change (String c t :: (init ++ [""]))%list
      with ((String c t :: init) ++ [""])%list.
    rewrite clean_loop_snoc_empty, (clean_loop_fix false _ Hc). reflexivity.
Qed.

Lemma canon_last r init e : canon r (init ++ [e]) -> noslash e /\ e <> "".
Proof.
  intros Hc. apply (canon_elem r (init ++ [e])); [exact Hc|].
  apply in_or_app. right. left. reflexivity.
Qed.

Lemma Dir_render r init e :
  canon r (init ++ [e]) -> Dir (render r (init ++ [e])) = render r init.
Proof.
  intros Hc. destruct (canon_last _ _ _ Hc) as [Hn Hne].
  rewrite render_snoc, Dir_app by (try assumption; apply dir_part_pre_of).
  apply Clean_pre_of, (canon_init _ _ _ Hc).
Qed.

Lemma Base_render r init e :
  canon r (init ++ [e]) -> Base (render r (init ++ [e])) = e.
Proof.
  intros Hc. destruct (canon_last _ _ _ Hc) as [Hn Hne].
  rewrite render_snoc. apply Base_app; try assumption. apply dir_part_pre_of.
Qed.

Lemma canon_single_clean r e :
  canon r [e] -> clean_loop r [] [e] = [e].
Proof. apply clean_loop_fix. Qed.

Lemma Join_render r init e :
  canon r (init ++ [e]) ->
  Join [render r init; e] = render r (init ++ [e]).
Proof.
  intros Hc. destruct (canon_last _ _ _ Hc) as [Hn Hne].
  assert (HJ : Join [render r init; e]
               = Clean (render r init ++ String Separator e)).
  { unfold Join. destruct (String.eqb_spec (render r init) "") as [He|_];
      [|reflexivity].
    exfalso. rewrite <- (Clean_render r init (canon_init _ _ _ Hc)) in He.
    exact (Clean_nonempty _ He). }
  rewrite HJ. destruct init as [|a init].
  - simpl app in *. pose proof (canon_single_clean r e Hc) as Hfix.
    destruct r.
    + rewrite Clean_render_split by discriminate.
      change (rooted (render true [] ++ String Separator e)) with true.
      change (split (render true [] ++ String Separator e))
        with ("" :: "" :: split e).
      change (clean_loop true [] ("" :: "" :: split e))
        with (clean_loop true [] (split e)).
      rewrite (split_noslash e Hn), Hfix. reflexivity.
    + rewrite Clean_render_split by discriminate.
      change (rooted (render false [] ++ String Separator e)) with false.
      change (split (render false [] ++ String Separator e))
        with ("." :: split e).
      change (clean_loop false [] ("." :: split e))
        with (clean_loop false [] (split e)).
      rewrite (split_noslash e Hn), Hfix. reflexivity.
  - assert (Heq : render r (a :: init) ++ String Separator e
                  = render r ((a :: init) ++ [e])).
    { unfold render. destruct r.
      - rewrite append_cons, join_snoc by discriminate. reflexivity.
      - rewrite join_snoc by discriminate. reflexivity. }
    rewrite Heq. apply Clean_render, Hc.
Qed.

(** Splitting a cleaned path into directory and base and joining the two
    gives the path back. *)
Lemma Join_Dir_Base path :
  Join [Dir (Clean path); Base (Clean path)] = Clean path.
Proof.
  destruct (Clean_canon path) as (r & l & Hc & ->).
  destruct l as [|e l] using rev_ind; [destruct r; reflexivity|].
  clear IHl. rewrite Dir_render, Base_render by exact Hc.
  apply Join_render, Hc.
Qed.

(** ** The collector's stream and the archive's directory entry *)

Lemma Join_two a b : a <> "" -> Join [a; b] = Clean (a ++ String Separator b).
Proof.
  intros Hne. unfold Join. destruct (String.eqb_spec a ""); [contradiction|].
  reflexivity.
Qed.

(** Looking up a cleaned path. *)
Lemma Stat_Clean x w : os.Stat (Clean x) w = names w !! Clean x.
Proof.
  unfold os.Stat. destruct (String.eqb_spec (Clean x) "") as [H|_].
  - exfalso. exact (Clean_nonempty _ H).
  - rewrite Clean_idempotent. reflexivity.
Qed.

Lemma Stat_Some_nonempty p w n : os.Stat p w = Some n -> p <> "".
Proof. unfold os.Stat. intros H ->. discriminate. Qed.

Lemma Remove_store ok name w :
  store (snd (os.Remove ok name w)) = store w
  /\ opened (snd (os.Remove ok name w)) = opened w.
Proof.
  unfold os.Remove. destruct (os.Stat name w) as [n|]; [|auto].
  destruct (match n with NDir _ => _ | NFile _ _ => _ end); [auto|].
  destruct ok; auto.
Qed.

Lemma RemoveAll_store ok path w :
  store (snd (os.RemoveAll ok path w)) = store w
  /\ opened (snd (os.RemoveAll ok path w)) = opened w.
Proof.
  unfold os.RemoveAll. destruct (String.eqb path ""); [auto|].
  destruct ok; [auto|]. destruct (os.Stat path w); auto.
Qed.

(** After [RemoveAll], a cleaned path that was absent stays absent, and one
    below the removed directory is absent when the removal succeeded. *)
Lemma RemoveAll_absent ok dir x w :
  dir <> "" ->
  os.Stat (Clean x) w = None \/ (ok = true /\ os.under (Clean dir) (Clean x) = true) ->
  os.Stat (Clean x) (snd (os.RemoveAll ok dir w)) = None.
Proof.
  intros Hd H. rewrite Stat_Clean in *. unfold os.RemoveAll.
  destruct (String.eqb_spec dir "") as [|_]; [contradiction|].
  destruct ok.
  - simpl. apply map_lookup_filter_None.
    destruct H as [H|[_ H]]; [left; exact H|].
    right. intros n _. simpl. rewrite H. discriminate.
  - destruct H as [H|[H _]]; [|discriminate].
    destruct (os.Stat dir w); exact H.
Qed.

(** C4, as amended: when [Collect] returns a stream and the external
    collector has written its archive, reading the stream yields the
    archive's bytes; and the archive cannot be opened by its path if the
    removal after opening succeeded, or if the removal of the workspace
    succeeded and the archive path lies in the workspace. *)
Theorem C4_stream_outlives_entry (e : sysdiagnose.env) (name : string)
    (w w' : World) (h : os.handle) (data : string) :
  sysdiagnose.Collect e name w = (Ok h, w') ->
  exec.written (sysdiagnose.run e) = Some data ->
  exists workDir w1,
    os.MkdirTemp (sysdiagnose.mkdir_ok e) (sysdiagnose.TempDir e)
      (sysdiagnose.random e) "" "sysdiagnose-helper*" w = (Ok workDir, w1)
    /\ os.ReadAll h w' = Ok data
    /\ (sysdiagnose.remove_ok e = true
        \/ (sysdiagnose.removeall_ok e = true
            /\ os.under (Clean workDir)
                 (sysdiagnose.archiveOutputPath workDir name) = true) ->
        os.Stat (sysdiagnose.archiveOutputPath workDir name) w' = None
        /\ forall ok,
             fst (os.OpenFile ok (sysdiagnose.archiveOutputPath workDir name)
                    os.O_RDONLY 0 w')
             = Err "no such file or directory").
Proof.
  intros Hcol Hw. revert Hcol. unfold sysdiagnose.Collect.
  destruct (String.eqb name ""); [discriminate|].
  destruct (negb _); [discriminate|].
  unfold bind, defer, ret.
  destruct (os.MkdirTemp _ _ _ _ _ w) as [[wd|m] w1] eqn:E1; [|discriminate].
  destruct (MkdirTemp_ok _ _ _ _ _ _ _ _ E1) as [_ Hwd].
  pose proof (Stat_Some_nonempty _ _ _ Hwd) as Hwdne.
  destruct (os.Chmod _ wd _ w1) as [[[]|m] w2] eqn:E2; [|discriminate].
  unfold sysdiagnose.archiveOutputPath.
  rewrite (Join_two wd _ Hwdne).
  set (x := wd ++ String Separator (name ++ ".tar.gz")).
  unfold sysdiagnose.sysdiagnoseArgs.
  destruct (String.eqb_spec (Clean x) "") as [H|_];
    [exfalso; exact (Clean_nonempty _ H)|].
  unfold exec.Run, bind, emit. cbn [exec.target String.eqb Ascii.eqb Bool.eqb andb].
  rewrite Hw, Join_Dir_Base.
  destruct (exec.exit_ok (sysdiagnose.run e)); [|discriminate].
  match goal with
  | |- context [os.OpenFile _ _ _ _ ?w3] => set (w3' := w3)
  end.
  assert (Hs3 : os.Stat (Clean x) w3' = Some (NFile exec.archive_perm (next_ino w2))).
  { rewrite Stat_Clean. subst w3'. simpl. apply lookup_insert_eq. }
  unfold os.OpenFile. rewrite Hs3.
  destruct (sysdiagnose.open_ok e); [|discriminate].
  match goal with
  | |- context [os.Remove _ _ ?w4] => set (w4' := w4)
  end.
  pose proof (Remove_store (sysdiagnose.remove_ok e) (Clean x) w4') as [Hst5 Hop5].
  assert (Hs5 : sysdiagnose.remove_ok e = true ->
                os.Stat (Clean x) (snd (os.Remove (sysdiagnose.remove_ok e) (Clean x) w4'))
                = None).
  { intros Hok. unfold os.Remove.
    replace (os.Stat (Clean x) w4') with (Some (NFile exec.archive_perm (next_ino w2)))
      by (symmetry; exact Hs3).
    rewrite Hok. rewrite Stat_Clean. simpl. rewrite Clean_idempotent.
    apply lookup_delete_eq. }
  destruct (os.Remove _ _ w4') as [r5 w5]. simpl in Hst5, Hop5, Hs5.
  pose proof (RemoveAll_store (sysdiagnose.removeall_ok e) wd w5) as [Hst6 Hop6].
  pose proof (RemoveAll_absent (sysdiagnose.removeall_ok e) wd x w5 Hwdne) as Habs.
  intros [= <- <-].
  exists wd, w1. split; [reflexivity|]. split.
  - unfold os.ReadAll. rewrite Hop6, Hop5, Hst6, Hst5. subst w4' w3'. simpl.
    rewrite bool_decide_eq_true_2
      by (apply elem_of_union_l, elem_of_singleton; reflexivity).
    rewrite lookup_insert_eq. reflexivity.
  - unfold sysdiagnose.archiveOutputPath. rewrite (Join_two wd _ Hwdne).
    intros Hrm.
    assert (Hgone : os.Stat (Clean x)
                      (snd (os.RemoveAll (sysdiagnose.removeall_ok e) wd w5)) = None)
      by (destruct Hrm as [Hok|[Hok Hunder]]; apply Habs; auto).
    split; [exact Hgone|].
    intros ok. unfold os.OpenFile. unfold x in Hgone. rewrite Hgone. reflexivity.
Qed.

Lemma C4_stream_outlives_entry_witness :
  let name := "sysdiagnose_20240601_120000" in
  let w' := snd (sysdiagnose.Collect good_collect name host_world) in
  exists workDir w1,
    os.MkdirTemp true "/tmp" ["3141592653"] "" "sysdiagnose-helper*" host_world
    = (Ok workDir, w1)
    /\ os.ReadAll (os.HFile 0) w' = Ok "ARCHIVE-BYTES"
    /\ os.Stat (sysdiagnose.archiveOutputPath workDir name) w' = None.
Proof.
  intros name w'.
  assert (Hcol : sysdiagnose.Collect good_collect name host_world
                 = (Ok (os.HFile 0), w')) by (vm_compute; reflexivity).
  destruct (C4_stream_outlives_entry good_collect name host_world w'
              (os.HFile 0) "ARCHIVE-BYTES" Hcol eq_refl)
    as (workDir & w1 & Hmk & Hread & Hgone).
  exists workDir, w1. split; [exact Hmk|]. split; [exact Hread|].
  apply Hgone. left. reflexivity.
Defined.

(** ** The workspace on the exit paths after [Chmod] *)

Lemma RemoveAll_removes_dir dir w :
  dir <> "" -> os.Stat dir (snd (os.RemoveAll true dir w)) = None.
Proof.
  intros Hne. unfold os.RemoveAll, os.Stat.
  destruct (String.eqb_spec dir ""); [contradiction|]. simpl.
  apply map_lookup_filter_None. right. intros nd _. simpl.
  unfold os.under. rewrite String.eqb_refl. discriminate.
Qed.

(** X12: Once [Chmod] has succeeded the removal of the workspace is deferred,
    and when that removal succeeds the workspace is gone by the time
    [Collect] returns, whatever it returns. *)
Lemma Collect_removes_workspace (e : sysdiagnose.env) (name : string)
    (w w1 : World) (workDir : string) :
  sysdiagnose.valid_name name = true ->
  os.MkdirTemp (sysdiagnose.mkdir_ok e) (sysdiagnose.TempDir e)
    (sysdiagnose.random e) "" "sysdiagnose-helper*" w = (Ok workDir, w1) ->
  sysdiagnose.chmod_ok e = true ->
  sysdiagnose.removeall_ok e = true ->
  os.Stat workDir (snd (sysdiagnose.Collect e name w)) = None.
Proof.
  intros Hvalid Hmk Hch Hrm.
  destruct (MkdirTemp_ok _ _ _ _ _ _ _ _ Hmk) as [_ Hafter].
  pose proof (Stat_Some_nonempty _ _ _ Hafter) as Hne.
  unfold sysdiagnose.valid_name in Hvalid.
  apply andb_prop in Hvalid as [Hname Hbase].
  unfold sysdiagnose.Collect.
  destruct (String.eqb name ""); [discriminate Hname|]. rewrite Hbase. simpl.
  unfold bind at 1. rewrite Hmk. unfold bind at 1.
  unfold os.Chmod. rewrite Hafter, Hch, Hrm. unfold defer.
  match goal with
  | |- context [let '(a, w') := ?body ?w0 in _] => destruct (body w0) as [r w3]
  end.
  simpl. apply RemoveAll_removes_dir, Hne.
Qed.

Lemma Collect_removes_workspace_witness :
  os.Stat work_dir (snd (sysdiagnose.Collect good_collect capture_name host_world)) = None.
Proof.
  eapply (Collect_removes_workspace good_collect capture_name host_world);
    [vm_compute; reflexivity | vm_compute; reflexivity | reflexivity | reflexivity].
Defined.

(** ** The host identity *)

Lemma first_LSeq b size lo hi :
  first b = LSeq size lo hi ->
  (size = 2 \/ size = 3 \/ size = 4) /\ (0x80 <= lo)%N /\ (hi <= 0xBF)%N
  /\ is_cont b = false.
Proof.
  unfold first, is_cont, in_range.
  repeat match goal with
         | |- context [(?x <? ?y)%N] => destruct (N.ltb_spec x y)
         | |- context [(?x =? ?y)%N] => destruct (N.eqb_spec x y)
         end;
    intros [= <- <- <-] || discriminate;
    (split; [tauto|]); (split; [lia|]); (split; [lia|]);
    apply andb_false_iff; right; apply N.leb_gt; lia.
Qed.

Lemma in_range_not_cont lo hi b :
  (0x80 <= lo)%N -> (hi <= 0xBF)%N -> is_cont b = false -> in_range lo hi b = false.
Proof.
  unfold is_cont, in_range. intros Hlo Hhi H.
  apply andb_false_iff in H. apply andb_false_iff.
  destruct H as [H|H]; [left|right].
  - apply N.leb_gt in H. apply N.leb_gt. lia.
  - apply N.leb_gt in H. apply N.leb_gt. lia.
Qed.

(** Bytes appended after a sequence do not change how its first rune
    decodes, unless they begin with a continuation byte. *)
Lemma DecodeRune_app a b :
  a <> [] -> starter b -> DecodeRune (a ++ b) = DecodeRune a.
Proof.
  destruct a as [|a0 a']; [congruence|]. intros _ Hb.
  cbn [app]. unfold DecodeRune.
  destruct (first (N_of_ascii a0)) as [| |size lo hi] eqn:Hf; try reflexivity.
  destruct (first_LSeq _ _ _ _ Hf) as (Hsize & Hlo & Hhi & _).
  assert (Hr : forall c rest, b = c :: rest ->
                 in_range lo hi (N_of_ascii c) = false
                 /\ is_cont (N_of_ascii c) = false).
  { intros c rest ->. simpl in Hb. split; [|exact Hb].
    apply in_range_not_cont; assumption. }
  destruct Hsize as [-> | [-> | ->]];
    destruct a' as [|a1 [|a2 [|a3 a'']]]; cbn [app]; try reflexivity;
    destruct b as [|b0 b']; cbn [app]; try reflexivity;
    destruct (Hr b0 b' eq_refl) as [Hr1 Hr2];
    try (rewrite Hr1; reflexivity);
    try (destruct b' as [|b1 b'']; cbn [app]; try reflexivity);
    try (rewrite Hr1; reflexivity);
    try (rewrite Hr2, ?andb_false_r; reflexivity).
  all: try (destruct b'' as [|b2 b''']; cbn [app]; try reflexivity;
            rewrite Hr1; reflexivity).
Qed.

Lemma DecodeRune_width c t :
  1 <= snd (DecodeRune (c :: t)) <= length (c :: t).
Proof.
  unfold DecodeRune.
  destruct (first (N_of_ascii c)) as [| |size lo hi] eqn:Hf; simpl; try lia.
  destruct (first_LSeq _ _ _ _ Hf) as (Hsize & _).
  destruct Hsize as [-> | [-> | ->]];
    destruct t as [|c1 [|c2 [|c3 t']]]; simpl; try lia;
    repeat match goal with
           | |- context [if ?b then _ else _] => destruct b
           end; simpl; lia.
Qed.

(** A rune that [unicode.IsSpace] accepts does not begin with a
    continuation byte. *)
Lemma space_starter c t :
  unicode.IsSpace (fst (DecodeRune (c :: t))) = true ->
  is_cont (N_of_ascii c) = false.
Proof.
  unfold DecodeRune.
  destruct (first (N_of_ascii c)) as [| |size lo hi] eqn:Hf.
  - intros _. unfold first in Hf. unfold is_cont, in_range.
    destruct (N.ltb_spec (N_of_ascii c) 0x80); [|repeat destruct (_ <? _)%N;
      repeat destruct (_ =? _)%N; discriminate].
    apply andb_false_iff. left. apply N.leb_gt. assumption.
  - simpl. discriminate.
  - intros _. exact (proj2 (proj2 (proj2 (first_LSeq _ _ _ _ Hf)))).
Qed.

Lemma runes_fuel_enough f1 f2 s :
  length s <= f1 -> length s <= f2 -> runes_fuel f1 s = runes_fuel f2 s.
Proof.
  revert f2 s. induction f1 as [|f1 IH]; intros f2 s H1 H2.
  - destruct s; [|simpl in H1; lia]. destruct f2; reflexivity.
  - destruct s as [|c t]; [destruct f2; reflexivity|].
    destruct f2 as [|f2]; [simpl in H2; lia|].
    cbn [runes_fuel].
    pose proof (DecodeRune_width c t) as Hw.
    destruct (DecodeRune (c :: t)) as [r n]. simpl in Hw.
    f_equal. apply IH; rewrite length_skipn; simpl in *; lia.
Qed.

(** The equation of [Runes]. *)
Lemma Runes_cons c t :
  Runes (c :: t)
  = (fst (DecodeRune (c :: t)), firstn (snd (DecodeRune (c :: t))) (c :: t))
    :: Runes (skipn (snd (DecodeRune (c :: t))) (c :: t)).
Proof.
  unfold Runes. cbn [length runes_fuel].
  pose proof (DecodeRune_width c t) as Hw.
  destruct (DecodeRune (c :: t)) as [r n]. cbn [fst snd] in *.
  f_equal. apply runes_fuel_enough; rewrite ?length_skipn; simpl in *; lia.
Qed.

Lemma Runes_nil : Runes [] = [].
Proof. reflexivity. Qed.

(** Induction on a byte sequence, one rune at a time. *)
Lemma rune_ind (P : list ascii -> Prop) :
  P [] ->
  (forall c t, P (skipn (snd (DecodeRune (c :: t))) (c :: t)) -> P (c :: t)) ->
  forall s, P s.
Proof.
  intros Hnil Hcons s.
  assert (H : forall n s, length s <= n -> P s).
  { clear s. induction n as [|n IH]; intros s Hs.
    - destruct s; [exact Hnil|simpl in Hs; lia].
    - destruct s as [|c t]; [exact Hnil|].
      apply Hcons. apply IH.
      pose proof (DecodeRune_width c t). rewrite length_skipn. simpl in *. lia. }
  apply (H (length s)). lia.
Qed.

Lemma Runes_app a b : starter b -> Runes (a ++ b) = (Runes a ++ Runes b)%list.
Proof.
  intros Hb. induction a as [|c t IH] using rune_ind; [reflexivity|].
  pose proof (DecodeRune_width c t) as Hw.
  change ((c :: t) ++ b)%list with (c :: (t ++ b))%list.
  rewrite Runes_cons.
  change (c :: (t ++ b))%list with ((c :: t) ++ b)%list.
  rewrite (DecodeRune_app (c :: t) b) by (try discriminate; assumption).
  rewrite (Runes_cons c t).
  set (n := snd (DecodeRune (c :: t))) in *.
  rewrite firstn_app, skipn_app.
  replace (n - length (c :: t)) with 0 by lia.
  rewrite firstn_O, skipn_O, app_nil_r, IH. reflexivity.
Qed.

Lemma bytes_of_Runes s : bytes_of (Runes s) = s.
Proof.
  induction s as [|c t IH] using rune_ind; [reflexivity|].
  rewrite Runes_cons. unfold bytes_of in *. cbn [map concat snd].
  rewrite IH. apply firstn_skipn.
Qed.

Lemma Runes_chunks_nonempty s :
  Forall (fun rb => snd rb <> []) (Runes s).
Proof.
  induction s as [|c t IH] using rune_ind; [constructor|].
  rewrite Runes_cons. constructor; [|exact IH].
  pose proof (DecodeRune_width c t) as Hw. cbn [snd].
  destruct (snd (DecodeRune (c :: t))); [lia|]. discriminate.
Qed.

(** A tail of the runes of [s] is the runes of its own bytes. *)
Lemma Runes_suffix s pre post :
  Runes s = (pre ++ post)%list -> Runes (bytes_of post) = post.
Proof.
  revert s. induction pre as [|p pre IH]; intros s H.
  - simpl in H. rewrite <- H, bytes_of_Runes. reflexivity.
  - destruct s as [|c t]; [discriminate|].
    rewrite Runes_cons in H. injection H as _ H. exact (IH _ H).
Qed.

Lemma Runes_head_space r bs post :
  Runes (bytes_of ((r, bs) :: post)) = (r, bs) :: post ->
  unicode.IsSpace r = true -> starter (bytes_of ((r, bs) :: post)).
Proof.
  intros H Hsp.
  destruct (bytes_of ((r, bs) :: post)) as [|c t]; [exact I|].
  rewrite Runes_cons in H.
  apply (f_equal (fun l => fst (hd (0%N, []) l))) in H. cbn [hd fst] in H.
  unfold starter. apply (space_starter c t). rewrite H. exact Hsp.
Qed.

Lemma bytes_of_app x y : bytes_of (x ++ y) = (bytes_of x ++ bytes_of y)%list.
Proof. unfold bytes_of. rewrite map_app, concat_app. reflexivity. Qed.

Lemma fields_count_some f w w' rs :
  length (fields_loop f (Some w) rs) = length (fields_loop f (Some w') rs).
Proof.
  revert w w'. induction rs as [|[r bs] rs IH]; intros w w'; simpl; [reflexivity|].
  destruct (f r); [reflexivity|]. apply IH.
Qed.

Lemma fields_count_open f w rs :
  length (fields_loop f None rs) <= length (fields_loop f (Some w) rs)
  /\ 1 <= length (fields_loop f (Some w) rs).
Proof.
  destruct rs as [|[r bs] rs]; simpl; [lia|].
  destruct (f r); simpl; [lia|].
  rewrite (fields_count_some f (w ++ bs) bs). split; [lia|].
  clear w. revert bs. induction rs as [|[r' bs'] rs IH]; intros bs; simpl; [lia|].
  destruct (f r'); simpl; [lia|]. apply IH.
Qed.

(** Splitting a concatenation loses at most one field: the last of the
    first part and the first of the second may merge. *)
Lemma fields_count_app f start x y :
  length (fields_loop f start x) + length (fields_loop f None y)
  <= length (fields_loop f start (x ++ y)) + 1.
Proof.
  revert start. induction x as [|[r bs] x IH]; intros start.
  - simpl app. destruct start as [w|]; simpl; [|lia].
    pose proof (fields_count_open f w y). lia.
  - simpl. destruct (f r), start as [w|]; simpl;
      try (specialize (IH None); lia); apply IH.
Qed.

(** The first field of a loop entered with an open field starts with the
    bytes of that field. *)
Lemma fields_first_prefix f w rs :
  exists x ts, fields_loop f (Some w) rs = (w ++ x)%list :: ts.
Proof.
  revert w. induction rs as [|[r bs] rs IH]; intros w; simpl.
  - exists [], []. rewrite app_nil_r. reflexivity.
  - destruct (f r).
    + exists [], (fields_loop f None rs). rewrite app_nil_r. reflexivity.
    + destruct (IH (w ++ bs)%list) as (x & ts & ->).
      exists (bs ++ x)%list, ts. rewrite app_assoc. reflexivity.
Qed.

Lemma fields_nonspace f w seg :
  Forall (nonspace f) seg ->
  fields_loop f (Some w) seg = [(w ++ bytes_of seg)%list].
Proof.
  revert w. induction seg as [|[r bs] seg IH]; intros w H; simpl.
  - rewrite app_nil_r. reflexivity.
  - inversion H as [|? ? Hr Hseg]; subst. unfold nonspace in Hr. simpl in Hr.
    rewrite Hr, IH by assumption.
    change (bytes_of ((r, bs) :: seg)) with (bs ++ bytes_of seg)%list.
    rewrite app_assoc. reflexivity.
Qed.

(** Every field is the bytes of a run of non-space runes that ends at a
    space or at the end of the input. *)
Lemma fields_loop_tokens f rs0 rs :
  forall pre seg0 start t,
    rs0 = (pre ++ seg0 ++ rs)%list ->
    Forall (nonspace f) seg0 ->
    match start with
    | None => seg0 = []
    | Some w => w = bytes_of seg0 /\ seg0 <> []
    end ->
    In t (fields_loop f start rs) ->
    exists pre' seg post,
      rs0 = (pre' ++ seg ++ post)%list /\ t = bytes_of seg /\ seg <> []
      /\ Forall (nonspace f) seg
      /\ match post with
         | [] => True
         | (r, _) :: _ => f r = true
         end.
Proof.
  induction rs as [|[r bs] rs IH]; intros pre seg0 start t Heq Hseg Hstart Hin.
  - destruct start as [w|]; simpl in Hin; [|contradiction].
    destruct Hin as [<-|[]]. destruct Hstart as [-> Hne].
    exists pre, seg0, []. auto.
  - simpl in Hin. destruct (f r) eqn:Hr.
    + destruct start as [w|].
      * destruct Hin as [<-|Hin].
        -- destruct Hstart as [-> Hne].
           exists pre, seg0, ((r, bs) :: rs). rewrite Hr. auto.
        -- apply (IH (pre ++ seg0 ++ [(r, bs)])%list [] None t);
             [|constructor|reflexivity|exact Hin].
           rewrite Heq, <- !app_assoc. reflexivity.
      * apply (IH (pre ++ [(r, bs)])%list [] None t);
          [|constructor|reflexivity|exact Hin].
        rewrite Heq, Hstart, <- !app_assoc. reflexivity.
    + assert (Hrb : nonspace f (r, bs)) by exact Hr.
      destruct start as [w|].
      * destruct Hstart as [-> Hne].
        apply (IH pre (seg0 ++ [(r, bs)])%list (Some (bytes_of seg0 ++ bs)%list) t);
          [| | |exact Hin].
        -- rewrite Heq, <- !app_assoc. reflexivity.
        -- apply Forall_app. split; [exact Hseg|]. repeat constructor. exact Hrb.
        -- split; [|intros H; apply app_eq_nil in H as [_ H]; discriminate].
           rewrite bytes_of_app. unfold bytes_of at 3. simpl.
           rewrite app_nil_r. reflexivity.
      * apply (IH pre [(r, bs)] (Some bs) t); [| | |exact Hin].
        -- rewrite Heq, Hstart. reflexivity.
        -- repeat constructor. exact Hrb.
        -- split; [|discriminate]. unfold bytes_of. simpl.
           rewrite app_nil_r. reflexivity.
Qed.

Lemma bytes_of_nonempty seg :
  seg <> [] -> Forall (fun rb => snd rb <> []) seg -> bytes_of seg <> [].
Proof.
  destruct seg as [|[r bs] seg]; [congruence|]. intros _ H.
  inversion H as [|? ? Hbs _]; subst. simpl in Hbs.
  unfold bytes_of. simpl. destruct bs; [contradiction|discriminate].
Qed.

(** A field of [s]: it is not empty, its bytes are bytes of [s], and
    decoded on its own it is the run of non-space runes it was cut from. *)
Lemma field_runes s t :
  In t (fields_loop unicode.IsSpace None (Runes s)) ->
  t <> [] /\ (forall c, In c t -> In c s)
  /\ Forall (nonspace unicode.IsSpace) (Runes t).
Proof.
  intros Hin.
  destruct (fields_loop_tokens unicode.IsSpace (Runes s) (Runes s) [] [] None t
              eq_refl (Forall_nil_2 _) eq_refl Hin)
    as (pre & seg & post & Heq & -> & Hne & Hseg & Hpost).
  pose proof (Runes_chunks_nonempty s) as Hch. rewrite Heq in Hch.
  apply Forall_app in Hch as [_ Hch]. apply Forall_app in Hch as [Hch _].
  split; [apply bytes_of_nonempty; assumption|]. split.
  - intros c Hc. rewrite <- (bytes_of_Runes s), Heq, !bytes_of_app.
    apply in_or_app. right. apply in_or_app. left. exact Hc.
  - assert (Hsuf : Runes (bytes_of (seg ++ post)) = (seg ++ post)%list)
      by (apply (Runes_suffix s pre), Heq).
    assert (Hpost' : Runes (bytes_of post) = post)
      by (apply (Runes_suffix s (pre ++ seg)); rewrite Heq, app_assoc; reflexivity).
    assert (Hst : starter (bytes_of post)).
    { destruct post as [|[r bs] post]; [exact I|].
      apply Runes_head_space; assumption. }
    rewrite bytes_of_app, (Runes_app _ _ Hst), Hpost' in Hsuf.
    apply app_inv_tail in Hsuf. rewrite Hsuf. exact Hseg.
Qed.

(** C7, counterexample: a line without quote characters around the key is
    well formed in the sense of the specification, and the matcher rejects
    it, because it does not contain the quoted key token. *)
Lemma C7_unquoted_key_rejected :
  well_formed_line unquoted_line /\ match_line unquoted_line = None.
Proof.
  split; [|reflexivity].
  exists key, "=", "5A1B2C3D". split; [vm_compute; reflexivity|].
  split; [reflexivity|discriminate].
Qed.

Lemma Trim_token : Trim platformUUIDKeyToken quote_s = key.
Proof. reflexivity. Qed.

Lemma match_line_Some line uuid :
  match_line line = Some uuid <->
  Contains line platformUUIDKeyToken = true
  /\ exists f2, Fields (stripped line) = [key; f2; uuid] /\ uuid <> "".
Proof.
  unfold match_line. fold (stripped line). rewrite Trim_token.
  destruct (Contains line platformUUIDKeyToken); simpl;
    [|split; [discriminate|intros [H _]; discriminate]].
  destruct (Fields (stripped line)) as [|f1 [|f2 [|f3 [|f4 fs]]]]; simpl;
    try (split; [discriminate|intros [_ (f & H & _)]; discriminate]).
  destruct (String.eqb_spec f1 key) as [->|Hk]; simpl.
  - destruct (String.eqb_spec f3 "") as [->|Hne]; simpl.
    + split; [discriminate|]. intros [_ (f & [= _ <-] & H)]. contradiction.
    + split.
      * intros [= <-]. split; [reflexivity|]. exists f2. auto.
      * intros [_ (f & [= _ <-] & _)]. reflexivity.
  - split; [discriminate|]. intros [_ (f & [= H _ _] & _)]. contradiction.
Qed.

Lemma ReplaceAll_app a b c :
  ReplaceAll (a ++ b) c "" = ReplaceAll a c "" ++ ReplaceAll b c "".
Proof.
  induction a as [|x a IH]; [reflexivity|].
  rewrite append_cons. simpl. destruct (Ascii.eqb x c).
  - rewrite !append_nil_l. exact IH.
  - rewrite append_cons, IH. reflexivity.
Qed.

Lemma ReplaceAll_removes a c :
  forall x, In x (list_ascii_of_string (ReplaceAll a c "")) -> x <> c.
Proof.
  induction a as [|y a IH]; intros x; simpl; [contradiction|].
  destruct (Ascii.eqb_spec y c).
  - rewrite append_nil_l. apply IH.
  - simpl. intros [<-|H]; [assumption|apply IH, H].
Qed.

Lemma Fields_length s :
  length (Fields s)
  = length (fields_loop unicode.IsSpace None (Runes (list_ascii_of_string s))).
Proof. unfold Fields, FieldsFunc. apply length_map. Qed.

(** A string whose first field is the key does not begin with a
    continuation byte. *)
Lemma first_field_key_starter s fs :
  Fields s = key :: fs -> starter (list_ascii_of_string s).
Proof.
  unfold Fields, FieldsFunc. intros H.
  destruct (list_ascii_of_string s) as [|c t]; [exact I|].
  rewrite Runes_cons in H. unfold starter. cbn [fields_loop] in H.
  destruct (unicode.IsSpace (fst (DecodeRune (c :: t)))) eqn:Hsp.
  - apply (space_starter c t), Hsp.
  - pose proof (DecodeRune_width c t) as Hw.
    destruct (snd (DecodeRune (c :: t))) as [|n]; [lia|].
    cbn [firstn] in H.
    destruct (fields_first_prefix unicode.IsSpace (c :: firstn n t)
                (Runes (skipn (S n) (c :: t)))) as (x & ts & Hf).
    rewrite Hf in H. cbn [map app string_of_list_ascii] in H.
    unfold key in H. injection H. intros. subst c. reflexivity.
Qed.

Lemma concatenation_rejected l1 l2 :
  well_formed_line l1 -> well_formed_line l2 -> match_line (l1 ++ l2) = None.
Proof.
  intros (a1 & a2 & a3 & Ha & _) (b1 & b2 & b3 & Hb & -> & _).
  destruct (match_line (l1 ++ l2)) as [uuid|] eqn:Hm; [|reflexivity].
  exfalso. apply match_line_Some in Hm as [_ (f2 & Hf & _)].
  pose proof (first_field_key_starter _ _ Hb) as Hst.
  apply (f_equal (@length string)) in Ha, Hb, Hf.
  rewrite Fields_length in Ha, Hb, Hf.
  unfold stripped in Hf. rewrite ReplaceAll_app, list_ascii_app in Hf.
  fold (stripped l1) (stripped l2) in Hf.
  rewrite (Runes_app _ _ Hst) in Hf.
  pose proof (fields_count_app unicode.IsSpace None
                (Runes (list_ascii_of_string (stripped l1)))
                (Runes (list_ascii_of_string (stripped l2)))) as Hc.
  rewrite Ha, Hb, Hf in Hc. simpl in Hc. lia.
Qed.

(** C7, as amended: the matcher accepts a line, returning its third field,
    if and only if the line contains the quoted key token and, stripped of
    quote characters, splits into exactly three fields of which the first
    is the key and the third is not empty; and the concatenation of two
    lines that are well formed in this sense is rejected. *)
Theorem C7_line_matcher :
  (forall line uuid,
      match_line line = Some uuid <->
      Contains line platformUUIDKeyToken = true
      /\ exists f2, Fields (stripped line) = [key; f2; uuid] /\ uuid <> "")
  /\ (forall l1 l2,
        well_formed_line l1 -> well_formed_line l2 ->
        match_line (l1 ++ l2) = None).
Proof. split; [exact match_line_Some | exact concatenation_rejected]. Qed.

Lemma C7_line_matcher_witness :
  match_line (quoted_line ++ quoted_line) = None.
Proof.
  assert (Hwf : well_formed_line quoted_line).
  { exists key, "=", "5A1B2C3D". split; [vm_compute; reflexivity|].
    split; [reflexivity|discriminate]. }
  exact (proj2 C7_line_matcher quoted_line quoted_line Hwf Hwf).
Defined.

Lemma first_nonascii b : first b <> LAscii -> (0x80 <= b)%N.
Proof.
  unfold first. destruct (N.ltb_spec b 0x80); [congruence|]. intros _. assumption.
Qed.

Lemma in_range_ge lo hi b : (0x80 <= lo)%N -> in_range lo hi b = true -> (0x80 <= b)%N.
Proof.
  unfold in_range. intros Hlo H. apply andb_prop in H as [H _].
  apply N.leb_le in H. lia.
Qed.

(** An ASCII byte is never part of a longer sequence: where it is decoded,
    it is the rune. *)
Lemma DecodeRune_ascii c t x :
  In x (firstn (snd (DecodeRune (c :: t))) (c :: t)) ->
  (N_of_ascii x < 0x80)%N ->
  fst (DecodeRune (c :: t)) = N_of_ascii x.
Proof.
  unfold DecodeRune.
  destruct (first (N_of_ascii c)) as [| |size lo hi] eqn:Hf.
  - simpl. intros [<-|[]] _. reflexivity.
  - simpl. intros [<-|[]] Hx.
    assert (0x80 <= N_of_ascii c)%N by (apply first_nonascii; congruence). lia.
  - assert (Hc : (0x80 <= N_of_ascii c)%N) by (apply first_nonascii; congruence).
    destruct (first_LSeq _ _ _ _ Hf) as (Hsize & Hlo & _ & _).
    assert (Hcont : forall b, is_cont b = true -> (0x80 <= b)%N)
      by (intros b; apply in_range_ge; lia).
    pose proof (in_range_ge lo) as Hrange.
    destruct Hsize as [-> | [-> | ->]];
      destruct t as [|c1 [|c2 [|c3 t']]]; simpl;
      repeat match goal with
             | |- context [in_range lo ?hi ?b] =>
                 let E := fresh "E" in
                 destruct (in_range lo hi b) eqn:E;
                 [apply Hrange in E; [|assumption]|]
             | |- context [is_cont ?b] =>
                 let E := fresh "E" in
                 destruct (is_cont b) eqn:E; [apply Hcont in E|]
             end;
      simpl;
      intros Hin Hx; exfalso;
      repeat match goal with
             | H : _ \/ _ |- _ => destruct H as [H|H]
             | H : _ = x |- _ => subst x
             | H : False |- _ => exact H
             end; lia.
Qed.

Lemma no_ascii_space t :
  Forall (nonspace unicode.IsSpace) (Runes t) ->
  forall x, In x t -> (N_of_ascii x < 0x80)%N ->
            unicode.IsSpace (N_of_ascii x) = false.
Proof.
  induction t as [|c t IH] using rune_ind; intros H x Hin Hx; [contradiction|].
  rewrite Runes_cons in H.
  pose proof (List.Forall_inv H) as Hr. pose proof (List.Forall_inv_tail H) as Hrest.
  rewrite <- (firstn_skipn (snd (DecodeRune (c :: t))) (c :: t)) in Hin.
  apply in_app_or in Hin as [Hin|Hin].
  - unfold nonspace in Hr. cbn [fst] in Hr.
    rewrite (DecodeRune_ascii c t x Hin Hx) in Hr. exact Hr.
  - apply IH; assumption.
Qed.

Lemma fields_all_nonspace rs :
  rs <> [] -> Forall (nonspace unicode.IsSpace) rs ->
  fields_loop unicode.IsSpace None rs = [bytes_of rs].
Proof.
  destruct rs as [|[r bs] rs]; [congruence|]. intros _ H.
  inversion H as [|? ? Hr Hrest]; subst. unfold nonspace in Hr. simpl in Hr.
  simpl. rewrite Hr. apply fields_nonspace, Hrest.
Qed.

Lemma field_is_token line f :
  In f (Fields (stripped line)) -> is_token f.
Proof.
  unfold Fields, FieldsFunc. intros Hin.
  apply in_map_iff in Hin as (t & <- & Hin).
  destruct (field_runes _ _ Hin) as (Hne & Hsub & Hns).
  unfold is_token. rewrite list_ascii_of_string_of_list_ascii.
  split; [|split; [|split; [|split]]].
  - destruct t; [contradiction|discriminate].
  - intros c Hc. apply (ReplaceAll_removes line quote), Hsub, Hc.
  - exact Hns.
  - apply no_ascii_space, Hns.
  - unfold Fields, FieldsFunc. rewrite list_ascii_of_string_of_list_ascii.
    rewrite fields_all_nonspace, bytes_of_Runes; [reflexivity| |exact Hns].
    destruct t as [|c t]; [contradiction|]. rewrite Runes_cons. discriminate.
Qed.

Lemma scan_loop_Ok pending uuid :
  scan_loop pending = Ok uuid -> exists line, match_line line = Some uuid.
Proof.
  induction pending as [|raw rest IH]; simpl; [discriminate|].
  destruct (bufio.token raw) as [line|]; [|discriminate].
  destruct (match_line line) as [u|] eqn:Hm; [|exact IH].
  intros [= <-]. exists line. exact Hm.
Qed.

(** C10: whenever the host identity is resolved, it is a single token: not
    empty, without a double quote, without white space (no rune of it is a
    space for [unicode.IsSpace], no byte of it is an ASCII space), and
    splitting it into fields gives it back. *)
Theorem C10_host_identity_is_a_token (ioreg : result string) (uuid : string) :
  GetHostIOPlatformUUID ioreg = Ok uuid -> is_token uuid.
Proof.
  unfold GetHostIOPlatformUUID, parseIOPlatformUUID.
  destruct ioreg as [out|e]; [|discriminate]. intros H.
  apply scan_loop_Ok in H as [line Hm].
  apply match_line_Some in Hm as [_ (f2 & Hf & _)].
  apply (field_is_token line). rewrite Hf. right. right. left. reflexivity.
Qed.

Lemma C10_host_identity_is_a_token_witness :
  is_token "ABCD1234-5678-90EF-GHIJ-KLMNOPQRSTUV".
Proof.
  apply (C10_host_identity_is_a_token (Ok sample_ioreg)).
  vm_compute. reflexivity.
Defined.

(** ** An archive of an earlier capture *)

Import filepath_match.

Lemma hasMeta_alt s :
  hasMeta s = negb (forallb literal (list_ascii_of_string s)).
Proof.
  unfold hasMeta, literal.
  induction (list_ascii_of_string s) as [|c l IH]; [reflexivity|].
  cbn [existsb forallb]. rewrite IH.
  destruct (strings.mem_byte c _); reflexivity.
Qed.

Lemma parse_literal c rest fuel :
  literal c = true ->
  parse (S fuel) (c :: rest) = option_map (cons (TLit c)) (parse fuel rest).
Proof.
  unfold literal. simpl. intros H. apply negb_true_iff in H.
  repeat (apply orb_false_iff in H as [? H]).
  repeat match goal with
         | E : Ascii.eqb c ?d = false |- _ =>
             rewrite E; clear E
         end.
  reflexivity.
Qed.

Lemma parse_literals a rest fuel ts :
  forallb literal a = true ->
  parse fuel rest = Some ts ->
  parse (length a + fuel) (a ++ rest) = Some (map TLit a ++ ts)%list.
Proof.
  intros Ha Hp. induction a as [|c a IH]; [exact Hp|].
  simpl in Ha. apply andb_prop in Ha as [Hc Ha].
  change (length (c :: a) + fuel) with (S (length a + fuel)).
  change ((c :: a) ++ rest)%list with (c :: (a ++ rest))%list.
  rewrite parse_literal, (IH Ha) by exact Hc. reflexivity.
Qed.

Lemma Match_archive_pattern n :
  Match archive_pattern n = Ok (match_terms archive_terms (list_ascii_of_string n)).
Proof. reflexivity. Qed.

Lemma star_tail x suffix ts :
  Forall (fun c => IsPathSeparator c = false) x ->
  match_terms ts suffix = true ->
  match_terms (TStar :: ts) (x ++ suffix) = true.
Proof.
  intros Hx Hs. induction x as [|c x IH].
  - simpl app. destruct suffix; simpl; rewrite Hs; reflexivity.
  - inversion Hx as [|? ? Hc Hx']; subst. specialize (IH Hx').
    change ((c :: x) ++ suffix)%list with (c :: (x ++ suffix))%list.
    simpl in IH |- *. rewrite Hc. simpl.
    destruct (x ++ suffix)%list; rewrite IH; apply orb_true_r.
Qed.

Lemma match_literals a ts s :
  match_terms (map TLit a ++ ts) (a ++ s) = match_terms ts s.
Proof.
  induction a as [|c a IH]; [reflexivity|].
  cbn [map app match_terms]. rewrite Ascii.eqb_refl. exact IH.
Qed.

Lemma archive_terms_eq :
  archive_terms
  = (map TLit (list_ascii_of_string "sysdiagnose_")
     ++ TStar :: map TLit (list_ascii_of_string ".tar.gz"))%list.
Proof. reflexivity. Qed.

Lemma archive_name_matches name :
  archive_name name -> Match archive_pattern name = Ok true.
Proof.
  intros (x & -> & Hx). rewrite Match_archive_pattern. f_equal.
  rewrite !list_ascii_app, archive_terms_eq, match_literals.
  apply star_tail; [exact Hx|reflexivity].
Qed.

Lemma canon_snoc_plain r l e : canon r l -> plain e -> canon r (l ++ [e]).
Proof.
  unfold canon. destruct r; intros Hl He.
  - apply Forall_app. split; [exact Hl|constructor; [exact He|constructor]].
  - destruct Hl as (ds & ps & -> & Hd & Hp).
    exists ds, (ps ++ [e])%list. rewrite app_assoc. repeat split; [exact Hd|].
    apply Forall_app. split; [exact Hp|constructor; [exact He|constructor]].
Qed.

Lemma noslash_app a b : noslash a -> noslash b -> noslash (a ++ b).
Proof.
  unfold noslash. rewrite list_ascii_app. intros Ha Hb.
  apply Forall_app. split; assumption.
Qed.

Lemma plain_archive_pattern : plain archive_pattern.
Proof.
  unfold plain. repeat split; try discriminate.
  unfold noslash. repeat constructor.
Qed.

Lemma plain_archive_name name : archive_name name -> plain name.
Proof.
  intros (x & -> & Hx). unfold plain. repeat split; try discriminate.
  apply noslash_app; [unfold noslash; repeat constructor|].
  apply noslash_app; [exact Hx|unfold noslash; repeat constructor].
Qed.

Lemma Split_render r l e :
  canon r (l ++ [e]) -> Split (render r (l ++ [e])) = (pre_of r l, e).
Proof.
  intros Hc. destruct (canon_last _ _ _ Hc) as [Hn Hne].
  rewrite render_snoc. unfold Split.
  rewrite list_ascii_app, rev_app_distr.
  assert (Hrev : Forall (fun c => IsPathSeparator c = false)
                   (rev (list_ascii_of_string e)))
    by (apply List.Forall_rev, Hn).
  pose proof (rev_dir_part _ (dir_part_pre_of r l)) as Hpre.
  rewrite upto_last_sep_rev_app by exact Hrev.
  rewrite last_elem_rev_app; [|exact Hrev|].
  - rewrite rev_involutive, app_nil_r, string_of_list_ascii_of_string.
    f_equal. destruct (rev (list_ascii_of_string (pre_of r l))) as [|c y] eqn:Hy.
    + rewrite Hpre. reflexivity.
    + cbn [upto_last_sep_rev]. rewrite Hpre, <- Hy, rev_involutive.
      apply string_of_list_ascii_of_string.
  - destruct (rev (list_ascii_of_string (pre_of r l))); [exact I|exact Hpre].
Qed.

Lemma cleanGlobPath_slash s :
  s <> "" -> cleanGlobPath (s ++ String Separator "") = s.
Proof.
  intros Hne. unfold cleanGlobPath.
  destruct s as [|c s]; [contradiction|]. rewrite append_cons.
  destruct (String.eqb_spec (String c (s ++ String Separator "")) "") as [H|_];
    [discriminate|].
  destruct (String.eqb_spec (String c (s ++ String Separator "")) "/") as [H|_].
  { exfalso. injection H as _ H. destruct s; discriminate. }
  rewrite <- append_cons, list_ascii_app.
  change (list_ascii_of_string (String Separator "")) with [Separator].
  rewrite removelast_last. apply string_of_list_ascii_of_string.
Qed.

Lemma pre_of_render r l :
  l <> [] -> pre_of r l = render r l ++ String Separator "".
Proof.
  destruct l as [|a l]; [congruence|]. intros _. unfold pre_of, render.
  destruct r; [rewrite !append_cons, append_nil_l|rewrite append_nil_l]; reflexivity.
Qed.

Lemma render_nonempty r l : canon r l -> render r l <> "".
Proof. intros Hc. rewrite <- (Clean_render r l Hc). apply Clean_nonempty. Qed.

Lemma cleanGlobPath_pre_of r l : canon r l -> cleanGlobPath (pre_of r l) = render r l.
Proof.
  intros Hc. destruct l as [|a l]; [destruct r; reflexivity|].
  rewrite pre_of_render by discriminate.
  apply cleanGlobPath_slash, render_nonempty, Hc.
Qed.

Lemma hasMeta_app a b : hasMeta (a ++ b) = hasMeta a || hasMeta b.
Proof.
  unfold hasMeta. rewrite list_ascii_app, existsb_app. reflexivity.
Qed.

Lemma append_length a b : String.length (a ++ b) = String.length a + String.length b.
Proof.
  induction a as [|c a IH]; [reflexivity|].
  rewrite append_cons. simpl. rewrite IH. reflexivity.
Qed.

Lemma render_snoc_ne r l e : canon r (l ++ [e]) -> render r (l ++ [e]) <> render r l.
Proof.
  intros Hc H. destruct (canon_last _ _ _ Hc) as [Hn Hne].
  destruct l as [|a l].
  - destruct r; simpl in H.
    + injection H as H. contradiction.
    + subst e. destruct Hc as (ds & ps & Heq & Hd & Hp).
      destruct ds as [|d ds]; simpl in Heq.
      * subst ps. inversion Hp as [|? ? (_ & _ & Hdot & _) _]; subst. congruence.
      * injection Heq as <- _. inversion Hd as [|? ? Hdd _]; subst. discriminate.
  - rewrite render_snoc, pre_of_render in H by discriminate.
    apply (f_equal String.length) in H. rewrite !append_length in H.
    simpl in H. destruct e; [contradiction|]. simpl in H. lia.
Qed.

Lemma glob_names_archive dir ns acc :
  exists m, glob_names dir archive_pattern ns acc = Ok m
            /\ length acc <= length m
            /\ ((exists n, In n ns /\ archive_name n) -> 0 < length m).
Proof.
  revert acc. induction ns as [|n ns IH]; intros acc.
  - exists acc. simpl. split; [reflexivity|]. split; [lia|].
    intros (n & [] & _).
  - cbn [glob_names]. rewrite Match_archive_pattern.
    destruct (match_terms archive_terms (list_ascii_of_string n)) eqn:Hm.
    + destruct (IH (acc ++ [Join [dir; n]])%list) as (m & -> & Hlen & _).
      rewrite length_app in Hlen. simpl in Hlen.
      exists m. split; [reflexivity|]. split; lia.
    + destruct (IH acc) as (m & -> & Hlen & Hex).
      exists m. split; [reflexivity|]. split; [exact Hlen|].
      intros (n' & [<-|Hin] & Hn').
      * pose proof (archive_name_matches _ Hn') as HM.
        rewrite Match_archive_pattern, Hm in HM. discriminate.
      * apply Hex. exists n'. auto.
Qed.

Lemma Readdirnames_entry r l e w nd :
  canon r (l ++ [e]) ->
  names w !! render r (l ++ [e]) = Some nd ->
  In e (Readdirnames (render r l) w).
Proof.
  intros Hc Hk. unfold Readdirnames.
  rewrite <- (Base_render r l e Hc) at 1.
  apply in_map, filter_In. split.
  - apply (in_map fst _ (render r (l ++ [e]), nd)).
    apply list_elem_of_In, elem_of_map_to_list, Hk.
  - rewrite (Clean_render r l (canon_init _ _ _ Hc)), (Dir_render r l e Hc).
    rewrite String.eqb_refl. simpl. apply negb_true_iff.
    apply eqb_false_iff_ne, render_snoc_ne, Hc.
Qed.

Lemma literal_slash : literal Separator = true.
Proof. reflexivity. Qed.

Lemma hasMeta_pre_of r l :
  canon r l -> hasMeta (render r l) = false -> hasMeta (pre_of r l) = false.
Proof.
  intros Hc H. destruct l as [|a l]; [destruct r; reflexivity|].
  rewrite pre_of_render, hasMeta_app, H by discriminate. reflexivity.
Qed.

(** The pattern [RunE] hands to [Glob], for a host directory without
    pattern metacharacters in its name, finds every archive in it. *)
Lemma Glob_finds_archive r l w m nd name :
  canon r l ->
  hasMeta (render r l) = false ->
  os.Stat (render r l) w = Some (NDir m) ->
  names w !! Join [render r l; name] = Some nd ->
  archive_name name ->
  exists existing,
    Glob (Join [render r l; archive_pattern]) w = Ok existing
    /\ 0 < length existing.
Proof.
  intros Hc Hmeta Hdir Hk Hname.
  pose proof (canon_snoc_plain r l _ Hc plain_archive_pattern) as Hcp.
  pose proof (canon_snoc_plain r l _ Hc (plain_archive_name _ Hname)) as Hcn.
  rewrite (Join_render r l _ Hcp). rewrite (Join_render r l _ Hcn) in Hk.
  unfold Glob.
  change pathSeparatorsLimit with (S (Nat.pred pathSeparatorsLimit)).
  cbn [globWithLimit].
  assert (Hparse : exists ts,
             parse (S (length (list_ascii_of_string (render r (l ++ [archive_pattern])))))
               (list_ascii_of_string (render r (l ++ [archive_pattern]))) = Some ts).
  { rewrite render_snoc, list_ascii_app, length_app.
    replace (S (length (list_ascii_of_string (pre_of r l))
                + length (list_ascii_of_string archive_pattern)))
      with (length (list_ascii_of_string (pre_of r l)) + 21) by (simpl; lia).
    eexists. apply parse_literals; [|vm_compute; reflexivity].
    pose proof (hasMeta_pre_of r l Hc Hmeta) as H.
    rewrite hasMeta_alt in H. apply negb_false_iff in H. exact H. }
  destruct Hparse as [ts Hts]. unfold Match at 1. rewrite Hts.
  assert (HM : hasMeta (render r (l ++ [archive_pattern])) = true).
  { rewrite render_snoc, hasMeta_app. apply orb_true_r. }
  rewrite HM. cbn [negb].
  rewrite (Split_render r l _ Hcp), (cleanGlobPath_pre_of r l Hc), Hmeta.
  cbn [negb]. unfold glob. rewrite Hdir.
  destruct (glob_names_archive (render r l) (Readdirnames (render r l) w) [])
    as (existing & Hg & _ & Hpos).
  exists existing. split; [exact Hg|]. apply Hpos.
  exists name. split; [|exact Hname].
  apply (Readdirnames_entry r l name w nd Hcn Hk).
Qed.

(** [RunE] returns at once when [Glob] finds something. *)
Lemma RunE_glob_found (e : run_env) (args : networkHealthMonitorArgs) (w : World)
    (m0 : N) (existing : list string) :
  os.Stat (baseDir args) w = Some (NDir m0) ->
  Glob (Join [prefixDir e args; "sysdiagnose_*.tar.gz"]) w = Ok existing ->
  0 < length existing ->
  RunE e args w = (Returned (Ok tt), w).
Proof.
  intros Hbase Hg Hpos. unfold RunE, bind, os.MkdirAll. rewrite Hbase.
  fold (prefixDir e args). rewrite Hg.
  apply Nat.ltb_lt in Hpos. rewrite Hpos. reflexivity.
Qed.

(** An archive in a host directory without pattern metacharacters is
    found by the [Glob] of [RunE]. *)
Lemma Glob_prefixDir (e : run_env) (args : networkHealthMonitorArgs) (w : World)
    (name : string) (m0 m : N) (nd : node) :
  hasMeta (prefixDir e args) = false ->
  os.Stat (baseDir args) w = Some (NDir m0) ->
  os.Stat (prefixDir e args) w = Some (NDir m) ->
  names w !! Join [prefixDir e args; name] = Some nd ->
  archive_name name ->
  exists existing,
    Glob (Join [prefixDir e args; "sysdiagnose_*.tar.gz"]) w = Ok existing
    /\ 0 < length existing.
Proof.
  intros Hmeta Hbase Hdir Hk Hname.
  assert (Hbne : baseDir args <> "") by exact (Stat_Some_nonempty _ _ _ Hbase).
  unfold prefixDir in *.
  rewrite (Join_two _ (collectionPrefix e) Hbne) in *.
  destruct (Clean_canon (baseDir args ++ String Separator (collectionPrefix e)))
    as (r & l & Hc & Heq).
  rewrite Heq in *.
  exact (Glob_finds_archive r l w m nd name Hc Hmeta Hdir Hk Hname).
Qed.

(** X6: When the host directory has no pattern metacharacter in its name, an
    archive of an earlier capture in it ends the command at once: the
    world is left as it was, with no probe and no collection. *)
Theorem RunE_existing_archive (e : run_env) (args : networkHealthMonitorArgs)
    (w : World) (name : string) (m0 m : N) (nd : node) :
  hasMeta (prefixDir e args) = false ->
  os.Stat (baseDir args) w = Some (NDir m0) ->
  os.Stat (prefixDir e args) w = Some (NDir m) ->
  names w !! Join [prefixDir e args; name] = Some nd ->
  archive_name name ->
  RunE e args w = (Returned (Ok tt), w).
Proof.
  intros Hmeta Hbase Hdir Hk Hname.
  destruct (Glob_prefixDir e args w name m0 m nd Hmeta Hbase Hdir Hk Hname)
    as (existing & Hg & Hpos).
  exact (RunE_glob_found e args w m0 existing Hbase Hg Hpos).
Qed.

Lemma RunE_existing_archive_witness :
  RunE outage_run default_args captured_world = (Returned (Ok tt), captured_world).
Proof.
  apply (RunE_existing_archive outage_run default_args captured_world
           "sysdiagnose_20240531_235959.tar.gz" 448 448 (NFile 256 0)).
  - vm_compute. reflexivity.
  - vm_compute. reflexivity.
  - vm_compute. reflexivity.
  - vm_compute. reflexivity.
  - exists "20240531_235959". split; [reflexivity|].
    unfold noslash. vm_compute. repeat constructor.
Defined.

(** * Further properties of the sources *)

(** ** Joining a directory and a name *)

Lemma split_app (a s : string) :
  split (a ++ String Separator s) = (split a ++ split s)%list.
Proof.
  induction a as [|c a IH].
  - rewrite append_nil_l. reflexivity.
  - rewrite append_cons. cbn [split]. rewrite IH.
    destruct (IsPathSeparator c); [reflexivity|].
    destruct (split a) as [|e es] eqn:He; [|reflexivity].
    destruct a; simpl in He; [discriminate|].
    destruct (IsPathSeparator a); [discriminate|]. destruct (split a0); discriminate.
Qed.

Lemma clean_loop_app r out es1 es2 :
  clean_loop r out (es1 ++ es2) = clean_loop r (rev (clean_loop r out es1)) es2.
Proof.
  revert out. induction es1 as [|e es1 IH]; intros out.
  - simpl. rewrite rev_involutive. reflexivity.
  - cbn [app clean_loop].
    destruct (String.eqb e "" || String.eqb e "."); [apply IH|].
    destruct (String.eqb e ".."); [|apply IH].
    destruct out as [|top out']; [destruct r; apply IH|].
    destruct (String.eqb top ".."); apply IH.
Qed.

Lemma rooted_app a b : a <> "" -> rooted (a ++ b) = rooted a.
Proof. destruct a; [contradiction|]. intros _. rewrite append_cons. reflexivity. Qed.

Lemma plain_clean_push r out x :
  plain x -> clean_loop r out [x] = rev (x :: out).
Proof.
  intros (Hn & Hne & Hd & Hdd). cbn [clean_loop].
  apply eqb_false_iff_ne in Hne, Hd, Hdd. rewrite Hne, Hd, Hdd. reflexivity.
Qed.

(** Joining a directory and a plain name: the name becomes the last
    element of the directory's cleaned form. *)
Lemma Join_plain a x :
  a <> "" -> plain x ->
  exists l, canon (rooted a) l /\ Clean a = render (rooted a) l
            /\ canon (rooted a) (l ++ [x])
            /\ Join [a; x] = render (rooted a) (l ++ [x]).
Proof.
  intros Ha Hx. exists (clean_loop (rooted a) [] (split a)).
  pose proof (clean_loop_canon (rooted a) (split a) (split_all_noslash a)) as Hc.
  split; [exact Hc|]. split; [apply Clean_render_split, Ha|].
  split; [apply canon_snoc_plain; assumption|].
  rewrite (Join_two a x Ha), Clean_render_split.
  2:{ destruct a; [contradiction|]. rewrite append_cons. discriminate. }
  rewrite (rooted_app a _ Ha), split_app, clean_loop_app.
  destruct Hx as (Hn & Hx). rewrite (split_noslash x Hn).
  rewrite plain_clean_push by (split; assumption).
  cbn [rev]. rewrite rev_involutive. reflexivity.
Qed.

Lemma plain_tar_gz name : noslash name -> plain (name ++ ".tar.gz").
Proof.
  intros Hn. split; [|split; [|split]].
  - apply noslash_app; [exact Hn|]. unfold noslash. simpl. repeat constructor.
  - destruct name; [rewrite append_nil_l|rewrite append_cons]; discriminate.
  - destruct name as [|c [|c' n]]; rewrite ?append_cons, ?append_nil_l; discriminate.
  - destruct name as [|c [|c' [|c'' n]]]; rewrite ?append_cons, ?append_nil_l;
      discriminate.
Qed.

Lemma last_elem_rev_noslash r acc :
  Forall (fun c => IsPathSeparator c = false) acc ->
  Forall (fun c => IsPathSeparator c = false) (last_elem_rev r acc).
Proof.
  revert acc. induction r as [|c r IH]; intros acc Ha; simpl; [exact Ha|].
  destruct (IsPathSeparator c) eqn:Hc; [exact Ha|]. apply IH. constructor; assumption.
Qed.

Lemma list_ascii_of_string_of l : list_ascii_of_string (string_of_list_ascii l) = l.
Proof. apply list_ascii_of_string_of_list_ascii. Qed.

(** [Base] returns the root or a name without separators. *)
Lemma Base_shape path : Base path = String Separator "" \/ noslash (Base path).
Proof.
  unfold Base. destruct (String.eqb path ""); [right; repeat constructor|].
  pose proof (last_elem_rev_noslash
                (strip_trailing_seps_rev (rev (list_ascii_of_string path))) []
                (Forall_nil_2 _)) as H.
  destruct (last_elem_rev _ []) as [|c l]; [left; reflexivity|].
  right. unfold noslash. rewrite list_ascii_of_string_of. exact H.
Qed.

Lemma Clean_noslash e : noslash e -> e <> "" -> Clean e = e.
Proof.
  intros Hn Hne. rewrite Clean_render_split by exact Hne.
  assert (Hr : rooted e = false).
  { destruct e; [contradiction|]. exact (noslash_head _ _ Hn). }
  rewrite Hr, (split_noslash e Hn). cbn [clean_loop].
  destruct (String.eqb_spec e "") as [|_]; [contradiction|].
  destruct (String.eqb_spec e ".") as [->|_]; [reflexivity|].
  destruct (String.eqb_spec e "..") as [->|_]; reflexivity.
Qed.

(** ** Validation of the archive name *)

(** A name that passes the validation cleans to the root or to a single
    path element. *)
Lemma valid_name_shape name :
  sysdiagnose.valid_name name = true ->
  Clean name = String Separator "" \/ noslash (Clean name).
Proof.
  unfold sysdiagnose.valid_name. intros H. apply andb_prop in H as [_ H].
  apply String.eqb_eq in H. rewrite <- H. apply Base_shape.
Qed.

(** X9: A name whose cleaned form still has a separator in it, the root
    apart, is rejected before anything is created or run: the world is
    left as it was. *)
Theorem Collect_rejects_directory_parts (e : sysdiagnose.env) (name : string)
    (w : World) :
  Clean name <> String Separator "" ->
  ~ noslash (Clean name) ->
  sysdiagnose.Collect e name w
  = (Err "archive name must be a valid path basename without directory parts", w).
Proof.
  intros Hroot Hsl. unfold sysdiagnose.Collect.
  destruct (String.eqb_spec name "") as [->|Hne].
  - exfalso. apply Hsl. repeat constructor.
  - destruct (String.eqb (Base name) (Clean name)) eqn:Hv; [|reflexivity].
    exfalso. destruct (valid_name_shape name) as [H|H]; [|auto|auto].
    unfold sysdiagnose.valid_name. rewrite Hv.
    destruct (String.eqb_spec name ""); [contradiction|reflexivity].
Qed.

Lemma Collect_rejects_directory_parts_witness :
  sysdiagnose.Collect good_collect "logs/today" host_world
  = (Err "archive name must be a valid path basename without directory parts",
     host_world).
Proof.
  apply (Collect_rejects_directory_parts good_collect "logs/today" host_world).
  - vm_compute. discriminate.
  - assert (Hc : Clean "logs/today" = "logs/today") by (vm_compute; reflexivity).
    rewrite Hc. unfold noslash. intros H.
    apply List.Forall_forall with (x := Separator) in H; [discriminate H|].
    simpl. do 4 right. left. reflexivity.
Defined.

(** X10: A non-empty name without a separator passes the validation, and its
    archive is the entry [name.tar.gz] directly inside the workspace. *)
Theorem Collect_accepts_plain_names (name workDir : string) :
  noslash name -> name <> "" -> workDir <> "" ->
  sysdiagnose.valid_name name = true
  /\ Dir (sysdiagnose.archiveOutputPath workDir name) = Clean workDir
  /\ Base (sysdiagnose.archiveOutputPath workDir name) = name ++ ".tar.gz".
Proof.
  intros Hn Hne Hw. split.
  - unfold sysdiagnose.valid_name.
    destruct (String.eqb_spec name ""); [contradiction|]. simpl.
    apply String.eqb_eq. rewrite (Clean_noslash name Hn Hne).
    rewrite <- (append_nil_l name) at 1. apply Base_app; [left; reflexivity| |]; assumption.
  - unfold sysdiagnose.archiveOutputPath.
    destruct (Join_plain workDir (name ++ ".tar.gz") Hw (plain_tar_gz name Hn))
      as (l & Hc & Hcl & Hc' & ->).
    rewrite Hcl. split; [apply Dir_render|apply Base_render]; exact Hc'.
Qed.

Lemma Collect_accepts_plain_names_witness :
  sysdiagnose.valid_name "sysdiagnose_20240601_120000" = true
  /\ Dir (sysdiagnose.archiveOutputPath work_dir "sysdiagnose_20240601_120000")
     = Clean work_dir
  /\ Base (sysdiagnose.archiveOutputPath work_dir "sysdiagnose_20240601_120000")
     = "sysdiagnose_20240601_120000" ++ ".tar.gz".
Proof.
  apply (Collect_accepts_plain_names "sysdiagnose_20240601_120000" work_dir).
  - unfold noslash. vm_compute. repeat constructor.
  - discriminate.
  - discriminate.
Defined.

(** ** What single calls do to the directory entries *)

Lemma mkdirtemp_loop_inv ok prefix suffix random w wd w' :
  os.mkdirtemp_loop ok prefix suffix random w = (Ok wd, w') ->
  (exists r, In r random /\ wd = prefix ++ r ++ suffix)
  /\ w' = set_names (insert (Clean wd) (NDir os.perm_0700)) w.
Proof.
  induction random as [|r random IH]; simpl; [discriminate|].
  destruct (os.Stat (prefix ++ r ++ suffix) w) eqn:Hs.
  - intros H. destruct (IH H) as [(r' & Hin & ->) ->]. split; [|reflexivity].
    exists r'. auto.
  - unfold os.Mkdir. rewrite Hs.
    destruct (ok && negb (String.eqb (prefix ++ r ++ suffix) "")); [|discriminate].
    intros [= <- <-]. split; [|reflexivity]. exists r. auto.
Qed.

Lemma mkdirtemp_loop_err ok prefix suffix random w msg w' :
  os.mkdirtemp_loop ok prefix suffix random w = (Err msg, w') -> w' = w.
Proof.
  induction random as [|r random IH]; simpl; [intros [= _ <-]; reflexivity|].
  destruct (os.Stat (prefix ++ r ++ suffix) w) eqn:Hs; [exact IH|].
  unfold os.Mkdir. rewrite Hs.
  destruct (ok && negb (String.eqb (prefix ++ r ++ suffix) "")); [discriminate|].
  intros [= _ <-]. reflexivity.
Qed.

Lemma MkdirTemp_inv ok tmp random w wd w' :
  os.MkdirTemp ok tmp random "" "sysdiagnose-helper*" w = (Ok wd, w') ->
  (exists r, wd = os.joinPath tmp "sysdiagnose-helper" ++ r)
  /\ w' = set_names (insert (Clean wd) (NDir os.perm_0700)) w.
Proof.
  unfold os.MkdirTemp.
  change (os.prefixAndSuffix "sysdiagnose-helper*") with ("sysdiagnose-helper", "").
  cbn [String.eqb]. intros H.
  destruct (mkdirtemp_loop_inv _ _ _ _ _ _ _ H) as [(r & _ & ->) ->].
  split; [|reflexivity]. exists r.
  replace (r ++ "") with r; [reflexivity|].
  clear. induction r; [reflexivity|]. rewrite append_cons. f_equal. exact IHr.
Qed.

Lemma MkdirTemp_err ok tmp random dir pattern w msg w' :
  os.MkdirTemp ok tmp random dir pattern w = (Err msg, w') -> w' = w.
Proof.
  unfold os.MkdirTemp. destruct (os.prefixAndSuffix pattern).
  apply mkdirtemp_loop_err.
Qed.

(** The archive path [Collect] computes is a cleaned path. *)
Lemma archiveOutputPath_clean workDir name :
  exists x, sysdiagnose.archiveOutputPath workDir name = Clean x.
Proof.
  unfold sysdiagnose.archiveOutputPath. cbn [Join].
  destruct (String.eqb workDir "").
  - destruct (String.eqb_spec (name ++ ".tar.gz") "") as [H|_]; [|eexists; reflexivity].
    exfalso. destruct name; [rewrite append_nil_l in H|rewrite append_cons in H];
      discriminate.
  - eexists; reflexivity.
Qed.


Lemma valid_name_noslash name :
  noslash name -> name <> "" -> sysdiagnose.valid_name name = true.
Proof.
  intros Hn Hne. unfold sysdiagnose.valid_name.
  destruct (String.eqb_spec name ""); [contradiction|]. simpl.
  apply String.eqb_eq. rewrite (Clean_noslash name Hn Hne).
  rewrite <- (append_nil_l name) at 1. apply Base_app; [left; reflexivity| |]; assumption.
Qed.

Lemma prefix_app a b : String.prefix a (a ++ b) = true.
Proof.
  induction a as [|c a IH]; [destruct b; reflexivity|].
  rewrite append_cons. simpl. rewrite IH.
  destruct (ascii_dec c c); [reflexivity|contradiction].
Qed.

Lemma under_refl dir : os.under dir dir = true.
Proof. unfold os.under. rewrite String.eqb_refl. reflexivity. Qed.

(** An element appended to a directory's cleaned form lies under it. *)
Lemma under_render_snoc r l x :
  r = true \/ l <> [] ->
  os.under (render r l) (render r (l ++ [x])) = true.
Proof.
  intros H. unfold os.under. apply orb_true_iff. right.
  rewrite render_snoc. destruct l as [|a l].
  - destruct H as [->|H]; [|contradiction].
    change (String.prefix "/" ("/" ++ x) = true). apply prefix_app.
  - rewrite pre_of_render by discriminate.
    destruct (String.eqb (render r (a :: l)) "/").
    + rewrite append_assoc. apply prefix_app.
    + apply prefix_app.
Qed.

Lemma rooted_joinPath tmp p r :
  rooted tmp = true -> rooted (os.joinPath tmp p ++ r) = true.
Proof.
  intros H. destruct tmp as [|c t]; [discriminate|].
  unfold os.joinPath. destruct (rev _) as [|d ?]; [|destruct (IsPathSeparator d)];
    rewrite !append_cons; exact H.
Qed.

Lemma RemoveAll_lookup dir w k :
  dir <> "" ->
  names (snd (os.RemoveAll true dir w)) !! k
  = if os.under (Clean dir) k then None else names w !! k.
Proof.
  intros Hne. unfold os.RemoveAll.
  destruct (String.eqb_spec dir ""); [contradiction|]. simpl.
  destruct (os.under (Clean dir) k) eqn:Hu.
  - apply map_lookup_filter_None. right. intros nd _. simpl. rewrite Hu. discriminate.
  - destruct (names w !! k) as [nd|] eqn:Hk.
    + apply map_lookup_filter_Some. split; [exact Hk|exact Hu].
    + apply map_lookup_filter_None. left. exact Hk.
Qed.

Lemma Run_names out exe argv w k :
  (forall dir base, exec.target argv = Some (dir, base) -> k <> Join [dir; base]) ->
  names (snd (exec.Run out exe argv w)) !! k = names w !! k.
Proof.
  intros Hk. unfold exec.Run, bind, emit.
  destruct (exec.target argv) as [[dir base]|]; [|reflexivity].
  destruct (exec.written out); [|reflexivity]. simpl.
  apply lookup_insert_ne. intros E. exact (Hk dir base eq_refl (eq_sym E)).
Qed.

Lemma OpenFile_read_names ok name perm w :
  names (snd (os.OpenFile ok name os.O_RDONLY perm w)) = names w.
Proof.
  unfold os.OpenFile. destruct (os.Stat name w) as [[]|]; try reflexivity;
    destruct ok; reflexivity.
Qed.

Lemma Remove_names ok name w k :
  k <> Clean name -> names (snd (os.Remove ok name w)) !! k = names w !! k.
Proof.
  intros Hk. unfold os.Remove. destruct (os.Stat name w) as [n|]; [|reflexivity].
  destruct (match n with NDir _ => _ | NFile _ _ => _ end); [reflexivity|].
  destruct ok; [|reflexivity]. simpl. apply lookup_delete_ne. auto.
Qed.

(** X13: With an absolute temporary directory, a name without separators and
    the removal of the workspace succeeding, [Collect] leaves no entry
    behind, whatever it returns: the workspace and everything below it is
    gone, and every other entry is as it was. *)
Theorem Collect_leaves_no_residue (e : sysdiagnose.env) (name : string)
    (w w1 : World) (workDir : string) (k : string) :
  noslash name -> name <> "" ->
  rooted (sysdiagnose.TempDir e) = true ->
  os.MkdirTemp (sysdiagnose.mkdir_ok e) (sysdiagnose.TempDir e)
    (sysdiagnose.random e) "" "sysdiagnose-helper*" w = (Ok workDir, w1) ->
  sysdiagnose.chmod_ok e = true ->
  sysdiagnose.removeall_ok e = true ->
  names (snd (sysdiagnose.Collect e name w)) !! k
  = if os.under (Clean workDir) k then None else names w !! k.
Proof.
  intros Hn Hne Hroot Hmk Hch Hrm.
  pose proof (valid_name_noslash name Hn Hne) as Hvalid.
  destruct (MkdirTemp_ok _ _ _ _ _ _ _ _ Hmk) as [_ Hafter].
  pose proof (Stat_Some_nonempty _ _ _ Hafter) as Hwd.
  destruct (MkdirTemp_inv _ _ _ _ _ _ Hmk) as [(rnd & Hshape) Hw1].
  assert (Hr : rooted workDir = true) by (rewrite Hshape; apply rooted_joinPath, Hroot).
  destruct (Join_plain workDir (name ++ ".tar.gz") Hwd (plain_tar_gz name Hn))
    as (l & Hc & Hcl & Hc' & HA).
  rewrite Hr in *.
  assert (HuA : os.under (Clean workDir) (sysdiagnose.archiveOutputPath workDir name)
                = true).
  { unfold sysdiagnose.archiveOutputPath. rewrite HA, Hcl.
    apply under_render_snoc. left. reflexivity. }
  assert (HA' : Clean (sysdiagnose.archiveOutputPath workDir name)
                = sysdiagnose.archiveOutputPath workDir name).
  { unfold sysdiagnose.archiveOutputPath. rewrite HA. apply Clean_render, Hc'. }
  unfold sysdiagnose.valid_name in Hvalid. apply andb_prop in Hvalid as [Hname Hbase].
  unfold sysdiagnose.Collect.
  destruct (String.eqb name ""); [discriminate Hname|]. rewrite Hbase. simpl.
  unfold bind at 1. rewrite Hmk. unfold bind at 1.
  unfold os.Chmod. rewrite Hafter, Hch, Hrm. unfold defer.
  match goal with
  | |- context [let '(a, w') := ?body ?w0 in _] =>
      assert (Hbody : forall k, os.under (Clean workDir) k = false ->
                                names (snd (body w0)) !! k = names w !! k);
      [|destruct (body w0) as [r w3]]
  end.
  2:{ simpl in Hbody |- *. rewrite RemoveAll_lookup by exact Hwd.
      destruct (os.under (Clean workDir) k) eqn:Hu; [reflexivity|].
      apply Hbody, Hu. }
  clear k. intros k Hu.
  assert (Hk1 : k <> Clean workDir).
  { intros ->. rewrite under_refl in Hu. discriminate. }
  assert (Hk2 : k <> sysdiagnose.archiveOutputPath workDir name).
  { intros ->. rewrite HuA in Hu. discriminate. }
  assert (H2 : names (set_names (insert (Clean workDir) (NDir os.perm_0700)) w1) !! k
               = names w !! k).
  { rewrite Hw1. simpl. rewrite !lookup_insert_ne by auto. reflexivity. }
  revert H2. generalize (set_names (insert (Clean workDir) (NDir os.perm_0700)) w1).
  intros w2 H2.
  destruct (archiveOutputPath_clean workDir name) as [x Hx].
  unfold bind, ret. rewrite Hx in *.
  unfold sysdiagnose.sysdiagnoseArgs.
  destruct (String.eqb_spec (Clean x) "") as [H|_];
    [exfalso; exact (Clean_nonempty _ H)|].
  match goal with
  | |- context [exec.Run ?o ?exe ?argv w2] =>
      pose proof (Run_names o exe argv w2 k) as H3;
      destruct (exec.Run o exe argv w2) as [[[]|m3] w3]
  end; cbn [fst snd] in H3 |- *.
  2:{ rewrite H3; [exact H2|]. intros dir base [= <- <-].
      rewrite Join_Dir_Base. exact Hk2. }
  assert (H3' : names w3 !! k = names w !! k).
  { rewrite H3; [exact H2|]. intros dir base [= <- <-].
      rewrite Join_Dir_Base. exact Hk2. }
  pose proof (OpenFile_read_names (sysdiagnose.open_ok e) (Clean x) 0%N w3) as H4.
  destruct (os.OpenFile _ _ _ _ w3) as [[h|m4] w4]; cbn [fst snd] in H4 |- *.
  2:{ rewrite H4. exact H3'. }
  pose proof (Remove_names (sysdiagnose.remove_ok e) (Clean x) w4 k) as H5.
  destruct (os.Remove _ _ w4) as [r5 w5]; cbn [fst snd] in H5 |- *.
  rewrite H5, H4; [exact H3'|]. rewrite HA'. exact Hk2.
Qed.

Lemma Collect_leaves_no_residue_witness :
  names (snd (sysdiagnose.Collect good_collect capture_name host_world)) !! "/tmp"
  = if os.under (Clean work_dir) "/tmp" then None else names host_world !! "/tmp".
Proof.
  eapply (Collect_leaves_no_residue good_collect capture_name host_world);
    [unfold noslash; vm_compute; repeat constructor | discriminate | reflexivity
    | vm_compute; reflexivity | reflexivity | reflexivity].
Defined.

(** X11: [Collect] starts at most one process, and only the system's
    [sysdiagnose], told to write the archive into a workspace that did not
    exist before the call, without user interface; a call that returns a
    stream has started it. *)
Theorem Collect_runs_only_sysdiagnose (e : sysdiagnose.env) (name : string)
    (w : World) :
  let r := sysdiagnose.Collect e name w in
  (log (snd r) = log w /\ is_ok (fst r) = false)
  \/ exists workDir,
       os.Stat workDir w = None
       /\ log (snd r)
          = (log w ++ [EvRun ["/usr/bin/sysdiagnose";
                              "-f"; Dir (sysdiagnose.archiveOutputPath workDir name);
                              "-A"; Base (sysdiagnose.archiveOutputPath workDir name);
                              "-u"; "-b"]])%list.
Proof.
  unfold sysdiagnose.Collect.
  destruct (String.eqb name ""); [left; auto|].
  destruct (negb _); [left; auto|].
  unfold bind, defer, ret.
  destruct (os.MkdirTemp _ _ _ _ _ w) as [[wd|m] w1] eqn:E1;
    frame E1 (MkdirTemp_log (sysdiagnose.mkdir_ok e) (sysdiagnose.TempDir e)
                (sysdiagnose.random e) "" "sysdiagnose-helper*" w);
    [|left; auto].
  destruct (MkdirTemp_ok _ _ _ _ _ _ _ _ E1) as [Hfresh _].
  destruct (os.Chmod _ wd _ w1) as [[[]|m] w2] eqn:E2;
    frame E2 (Chmod_log (sysdiagnose.chmod_ok e) wd os.perm_0700 w1);
    [|left; split; [logs|reflexivity]].
  destruct (archiveOutputPath_clean wd name) as [x Hx]. rewrite Hx.
  unfold sysdiagnose.sysdiagnoseArgs.
  destruct (String.eqb_spec (Clean x) "") as [H|_];
    [exfalso; exact (Clean_nonempty _ H)|].
  right. exists wd. split; [exact Hfresh|]. rewrite Hx.
  match goal with
  | |- context [exec.Run ?o ?exe ?argv w2] =>
      pose proof (Run_log o exe argv w2) as H3;
      destruct (exec.Run o exe argv w2) as [[[]|m3] w3]
  end; cbn [fst snd] in H3 |- *.
  2:{ rewrite RemoveAll_log. logs. }
  pose proof (OpenFile_log (sysdiagnose.open_ok e) (Clean x) os.O_RDONLY 0%N w3) as H4.
  destruct (os.OpenFile _ _ _ _ w3) as [[h|m4] w4]; cbn [fst snd] in H4 |- *.
  2:{ rewrite RemoveAll_log. logs. }
  pose proof (Remove_log (sysdiagnose.remove_ok e) (Clean x) w4) as H5.
  destruct (os.Remove _ _ w4) as [r5 w5]; cbn [fst snd] in H5 |- *.
  rewrite RemoveAll_log. logs.
Qed.

(** ** Calls that touch directory entries only *)

Lemma same_files_refl w : same_files w w.
Proof. repeat split. Qed.

Lemma same_files_trans w1 w2 w3 :
  same_files w1 w2 -> same_files w2 w3 -> same_files w1 w3.
Proof. unfold same_files. intros (-> & -> & ->) (-> & -> & ->). auto. Qed.

Lemma MkdirAll_files ok path perm w : same_files w (snd (os.MkdirAll ok path perm w)).
Proof.
  unfold os.MkdirAll. destruct (os.Stat path w) as [[]|];
    [| |destruct (ok && negb (String.eqb path ""));
        [destruct (os.mkdir_each perm (os.lineage path) (names w))|]];
    repeat split.
Qed.

Lemma Chmod_files ok name perm w : same_files w (snd (os.Chmod ok name perm w)).
Proof.
  unfold os.Chmod. destruct (os.Stat name w); [destruct ok|]; repeat split.
Qed.

Lemma Remove_files ok name w : same_files w (snd (os.Remove ok name w)).
Proof.
  unfold os.Remove. destruct (os.Stat name w) as [n|]; [|repeat split].
  destruct (match n with NDir _ => _ | NFile _ _ => _ end); [|destruct ok];
    repeat split.
Qed.

Lemma RemoveAll_files ok path w : same_files w (snd (os.RemoveAll ok path w)).
Proof.
  unfold os.RemoveAll. destruct (String.eqb path ""); [|destruct ok;
    [|destruct (os.Stat path w)]]; repeat split.
Qed.

Lemma MkdirTemp_files ok tmp random dir pattern w :
  same_files w (snd (os.MkdirTemp ok tmp random dir pattern w)).
Proof.
  unfold os.MkdirTemp. destruct (os.prefixAndSuffix pattern) as [p s].
  generalize (firstn os.maxTries random) as rs.
  induction rs as [|r rs IH]; simpl; [repeat split|].
  destruct (os.Stat _ w) eqn:Hs; [exact IH|].
  unfold os.Mkdir. rewrite Hs.
  destruct (ok && _); repeat split.
Qed.

(** ** The stream [Collect] returns *)

(** When the collector writes its archive, the stream [Collect] returns
    is a new open file holding the archive's bytes; a call that fails
    leaves no file open. *)
Lemma Collect_stream e name w data :
  exec.written (sysdiagnose.run e) = Some data ->
  match sysdiagnose.Collect e name w with
  | (Ok h, w') =>
      h = os.HFile (next_ino w)
      /\ store w' = <[next_ino w := data]> (store w)
      /\ opened w' = {[next_ino w]} ∪ opened w
      /\ next_ino w' = S (next_ino w)
  | (Err _, w') => opened w' = opened w /\ next_ino w <= next_ino w'
  end.
Proof.
  intros Hw. unfold sysdiagnose.Collect.
  destruct (String.eqb name ""); [simpl; auto|].
  destruct (negb _); [simpl; auto|].
  unfold bind, defer, ret.
  pose proof (MkdirTemp_files (sysdiagnose.mkdir_ok e) (sysdiagnose.TempDir e)
                (sysdiagnose.random e) "" "sysdiagnose-helper*" w) as F1.
  destruct (os.MkdirTemp _ _ _ _ _ w) as [[wd|m] w1]; cbn [fst snd] in F1.
  2:{ destruct F1 as (_ & -> & ->). auto. }
  pose proof (Chmod_files (sysdiagnose.chmod_ok e) wd os.perm_0700 w1) as F2.
  destruct (os.Chmod _ wd _ w1) as [[[]|m] w2]; cbn [fst snd] in F2.
  2:{ destruct F2 as (_ & -> & ->), F1 as (_ & -> & ->). auto. }
  pose proof (same_files_trans _ _ _ F1 F2) as (Hs2 & Ho2 & Hi2). clear F1 F2.
  destruct (archiveOutputPath_clean wd name) as [x Hx]. rewrite Hx.
  unfold sysdiagnose.sysdiagnoseArgs.
  destruct (String.eqb_spec (Clean x) "") as [H|_];
    [exfalso; exact (Clean_nonempty _ H)|].
  unfold exec.Run, bind, emit. cbn [exec.target String.eqb Ascii.eqb Bool.eqb andb].
  rewrite Hw, Join_Dir_Base. cbn [fst snd names store opened next_ino log].
  match goal with
  | |- context [os.RemoveAll ?ok wd] => generalize ok; intros okall
  end.
  destruct (exec.exit_ok (sysdiagnose.run e)).
  2:{ cbn [fst snd].
      match goal with
      | |- context [os.RemoveAll okall wd ?w3] =>
          destruct (RemoveAll_files okall wd w3) as (_ & -> & ->)
      end. simpl. rewrite Ho2, Hi2. split; [reflexivity|lia]. }
  match goal with
  | |- context [os.OpenFile _ _ _ _ ?w3] => set (w3' := w3)
  end.
  assert (Hs3 : os.Stat (Clean x) w3' = Some (NFile exec.archive_perm (next_ino w2))).
  { rewrite Stat_Clean. subst w3'. simpl. apply lookup_insert_eq. }
  unfold os.OpenFile. rewrite Hs3.
  destruct (sysdiagnose.open_ok e).
  2:{ cbn [fst snd].
      destruct (RemoveAll_files okall wd w3') as (_ & -> & ->).
      subst w3'. simpl. rewrite Ho2, Hi2. split; [reflexivity|lia]. }
  match goal with
  | |- context [os.Remove ?ok ?p ?w4] =>
      destruct (Remove_files ok p w4) as (Hs5 & Ho5 & Hi5);
      destruct (os.Remove ok p w4) as [r5 w5]
  end.
  cbn [fst snd] in *.
  destruct (RemoveAll_files okall wd w5) as (-> & -> & ->).
  rewrite Hs5, Ho5, Hi5. subst w3'. simpl.
  rewrite Hs2, Ho2, Hi2. auto.
Qed.

(** Closing a file that was not open before leaves the files that were. *)
Lemma close_fresh (X : gset nat) (i : nat) : i ∉ X -> ({[i]} ∪ X) ∖ {[i]} = X.
Proof.
  intros Hi. apply set_eq. intros x.
  rewrite elem_of_difference, elem_of_union, !elem_of_singleton. split.
  - intros [[->|H] Hn]; [contradiction Hn; reflexivity|exact H].
  - intros H. split; [right; exact H|]. intros ->. contradiction.
Qed.

(** ** Persistence of the stream *)

(** What a successful persistence step leaves: the output file, of mode
    [0400], with the bytes of the stream, and the number of bytes in the
    log. *)
Lemma persist_Ok e path i0 data w w' :
  i0 ∈ opened w -> store w !! i0 = Some data -> i0 <> next_ino w ->
  persist e path (os.HFile i0) w = (Ok tt, w') ->
  os.Stat path w = None
  /\ os.Stat path w' = Some (NFile os.perm_0400 (next_ino w))
  /\ store w' !! next_ino w = Some data
  /\ log w' = (log w ++ [EvPersist path (String.length data)])%list.
Proof.
  intros Hin Hst Hne. unfold persist, bind, defer, ret.
  destruct (os.OpenFile _ _ _ _ w) as [[dst|m] w1] eqn:E1; [|discriminate].
  destruct (OpenFile_create_inv _ _ _ _ _ _ E1) as (Hnone & Hp & -> & ->).
  unfold os.Copy, os.ReadAll. cbn [opened store names next_ino log].
  rewrite bool_decide_eq_true_2 by (apply elem_of_union_r; exact Hin).
  rewrite lookup_insert_ne by auto. rewrite Hst.
  destruct (copy_fault e).
  - destruct (os.Remove _ _ _). discriminate.
  - unfold emit. cbn. intros [= <-]. cbn.
    split; [exact Hnone|]. split; [|split; [apply lookup_insert_eq|reflexivity]].
    unfold os.Stat. destruct (String.eqb_spec path ""); [contradiction|].
    cbn. apply lookup_insert_eq.
Qed.

(** Whatever it returns, the persistence step leaves open at most the
    files that were open before it, the output file being closed again. *)
Lemma persist_opened e path src w :
  opened (snd (persist e path src w)) = opened w
  \/ opened (snd (persist e path src w)) = ({[next_ino w]} ∪ opened w) ∖ {[next_ino w]}.
Proof.
  unfold persist, bind, defer, ret.
  destruct (os.OpenFile _ _ _ _ w) as [[dst|m] w1] eqn:E1.
  2:{ left. unfold os.OpenFile in E1. destruct (os.Stat path w);
        [|destruct (_ && _)]; try discriminate E1;
        injection E1 as _ <-; reflexivity. }
  right.
  destruct (OpenFile_create_inv _ _ _ _ _ _ E1) as (Hnone & Hp & -> & ->).
  match goal with
  | |- context [os.Copy ?f ?d src ?w1] =>
      assert (Hc : opened (snd (os.Copy f d src w1)) = opened w1)
        by (unfold os.Copy; destruct (os.ReadAll src w1), f; reflexivity);
      destruct (os.Copy f d src w1) as [[n|m] w2]
  end; cbn [fst snd] in Hc.
  - cbn. rewrite Hc. reflexivity.
  - match goal with
    | |- context [os.Remove ?ok ?p w2] =>
        destruct (Remove_files ok p w2) as (_ & Ho & _);
        destruct (os.Remove ok p w2) as [r3 w3]
    end. cbn in Ho |- *. rewrite Ho, Hc. reflexivity.
Qed.

(** ** [runSysdiagnose] from end to end *)

(** X14: When [runSysdiagnose] returns no error and the collector has written
    an archive, the file at the output path has mode [0400] and holds
    exactly the bytes the collector wrote, and their number is what is
    logged. *)
Theorem runSysdiagnose_persists_archive (e : sys_env) (args : sysdiagnoseArgs)
    (w w' : World) (data : string) :
  runSysdiagnose e args w = (Ok tt, w') ->
  exec.written (sysdiagnose.run (collect e)) = Some data ->
  exists i argv,
    os.Stat (outputPath args (now e)) w' = Some (NFile os.perm_0400 i)
    /\ store w' !! i = Some data
    /\ log w' = (log w ++ [EvRun argv;
                           EvCollect ("sysdiagnose_" ++ Format (now e)) true;
                           EvPersist (outputPath args (now e)) (String.length data)])%list.
Proof.
  intros Hrun Hw. revert Hrun. unfold runSysdiagnose, bind, ret.
  pose proof (MkdirAll_files (mkdirall_ok e) (outputDir args) os.perm_0700 w)
    as (Hs1 & Ho1 & Hi1).
  pose proof (MkdirAll_log (mkdirall_ok e) (outputDir args) os.perm_0700 w) as Hl1.
  destruct (os.MkdirAll _ _ _ w) as [[[]|m] w1]; [|discriminate].
  cbn [fst snd] in Hs1, Ho1, Hi1, Hl1.
  pose proof (Collect_stream (collect e) ("sysdiagnose_" ++ Format (now e)) w1 data Hw)
    as Hc.
  pose proof (Collect_log (collect e) ("sysdiagnose_" ++ Format (now e)) w1) as Hl2.
  destruct (sysdiagnose.Collect _ _ w1) as [[h|m] w2]; [|discriminate].
  destruct Hc as (-> & Hs2 & Ho2 & Hi2). destruct Hl2 as [argv Hl2].
  unfold defer, emit. cbn [is_ok fst snd].
  match goal with
  | |- context [persist e ?p ?h ?w3] =>
      pose proof (persist_Ok e p (next_ino w1) data w3) as Hp;
      destruct (persist e p h w3) as [[[]|m] w4]
  end; [|discriminate].
  intros [= <-].
  cbn [opened store next_ino log names] in Hp.
  destruct (Hp w4) as (_ & Hstat & Hdata & Hlog).
  - rewrite Ho2. apply elem_of_union_l, elem_of_singleton. reflexivity.
  - rewrite Hs2. apply lookup_insert_eq.
  - rewrite Hi2. lia.
  - reflexivity.
  - exists (next_ino w2), argv.
    split; [|split].
    + rewrite (Stat_names _ w4) by reflexivity. exact Hstat.
    + exact Hdata.
    + cbn [log]. rewrite Hlog, Hl2, Hl1. rewrite <- !app_assoc. reflexivity.
Qed.

Lemma runSysdiagnose_persists_archive_witness :
  let args := mkSysArgs default_base sysdiagnoseDefaultTimeout in
  let w' := snd (runSysdiagnose good_sys args host_world) in
  exists i argv,
    os.Stat (outputPath args noon) w' = Some (NFile os.perm_0400 i)
    /\ store w' !! i = Some "ARCHIVE-BYTES"
    /\ log w' = (log host_world
                 ++ [EvRun argv;
                     EvCollect ("sysdiagnose_" ++ Format noon) true;
                     EvPersist (outputPath args noon) (String.length "ARCHIVE-BYTES")])%list.
Proof.
  intros args w'.
  assert (Hrun : runSysdiagnose good_sys args host_world = (Ok tt, w'))
    by (vm_compute; reflexivity).
  exact (runSysdiagnose_persists_archive good_sys args host_world w' "ARCHIVE-BYTES"
           Hrun eq_refl).
Defined.

(** X15: When the collector writes an archive, [runSysdiagnose] returns with
    the same files open as before the call, on every exit path: the
    stream and the output file are both closed again. *)
Theorem runSysdiagnose_closes_its_files (e : sys_env) (args : sysdiagnoseArgs)
    (w : World) (data : string) :
  exec.written (sysdiagnose.run (collect e)) = Some data ->
  (forall i, i ∈ opened w -> i < next_ino w) ->
  opened (snd (runSysdiagnose e args w)) = opened w.
Proof.
  intros Hw Hfresh. unfold runSysdiagnose, bind, ret.
  pose proof (MkdirAll_files (mkdirall_ok e) (outputDir args) os.perm_0700 w)
    as (Hs1 & Ho1 & Hi1).
  destruct (os.MkdirAll _ _ _ w) as [[[]|m] w1]; [|exact Ho1].
  cbn [fst snd] in Hs1, Ho1, Hi1.
  pose proof (Collect_stream (collect e) ("sysdiagnose_" ++ Format (now e)) w1 data Hw)
    as Hc.
  destruct (sysdiagnose.Collect _ _ w1) as [[h|m] w2].
  2:{ cbn. destruct Hc as [-> _]. exact Ho1. }
  destruct Hc as (-> & Hs2 & Ho2 & Hi2).
  unfold defer, emit. cbn [is_ok fst snd].
  match goal with
  | |- context [persist e ?p ?h ?w3] =>
      pose proof (persist_opened e p h w3) as Hp;
      destruct (persist e p h w3) as [r4 w4]
  end.
  unfold os.Close. cbn [fst snd opened next_ino] in Hp |- *.
  assert (H1 : next_ino w1 ∉ opened w).
  { intros H. apply Hfresh in H. lia. }
  assert (H2 : next_ino w2 ∉ opened w).
  { intros H. apply Hfresh in H. lia. }
  assert (H3 : next_ino w2 ∉ ({[next_ino w1]} ∪ opened w : gset nat)).
  { rewrite elem_of_union, elem_of_singleton. intros [H|H]; [lia|contradiction]. }
  destruct Hp as [-> | ->]; rewrite Ho2, Ho1, ?(close_fresh _ _ H3);
    apply close_fresh, H1.
Qed.

Lemma runSysdiagnose_closes_its_files_witness :
  opened (snd (runSysdiagnose disk_full_sys
                 (mkSysArgs default_base sysdiagnoseDefaultTimeout) host_world))
  = opened host_world.
Proof.
  apply (runSysdiagnose_closes_its_files disk_full_sys
           (mkSysArgs default_base sysdiagnoseDefaultTimeout) host_world "ARCHIVE-BYTES").
  - reflexivity.
  - intros i Hi. apply elem_of_empty in Hi. destruct Hi.
Defined.

(** ** Runs of the scheduler *)

Lemma emit_log e w : log (snd (emit e w)) = (log w ++ [e])%list.
Proof. reflexivity. Qed.

(** What one pass through the timer case adds to the log. *)
Lemma checkNetworkAndCollect_log t a w :
  match checkNetworkAndCollect t a w with
  | (Ok true, w') =>
      exists argv n,
        log w' = (log w ++ [EvProbe false; EvRun argv;
                            EvCollect ("sysdiagnose_" ++ Format (now (sys t))) true;
                            EvPersist (outputPath a (now (sys t))) n])%list
  | (Ok false, w') =>
      w' = mkWorld (names w) (store w) (opened w) (next_ino w)
             (log w ++ [EvProbe true])%list
  | (Err _, w') =>
      exists l, log w' = (log w ++ EvProbe false :: l)%list
                /\ count is_probe l = 0 /\ count is_persist l = 0
                /\ count is_collect l <= 1
  end.
Proof.
  unfold checkNetworkAndCollect, bind at 1, runCheckIMDS, bind at 1, emit, ret.
  destruct (checkIMDS (probe t)) as [[]|m]; [reflexivity|].
  cbn [is_ok]. unfold bind at 1.
  match goal with
  | |- context [os.MkdirAll ?ok ?p ?perm ?w0] =>
      pose proof (MkdirAll_log ok p perm w0) as Hd;
      destruct (os.MkdirAll ok p perm w0) as [[[]|m1] w1]
  end; simpl in Hd.
  2:{ exists []. split; [rewrite Hd; reflexivity|]. cbn. auto. }
  unfold bind.
  pose proof (runSysdiagnose_log (sys t) a w1) as Hs.
  destruct (runSysdiagnose (sys t) a w1) as [[[]|m2] w2].
  - destruct Hs as (argv & n & Hs). exists argv, n. rewrite Hs, Hd.
    rewrite <- app_assoc. reflexivity.
  - destruct Hs as (l & Hs & Hc). exists l. split; [|exact Hc].
    rewrite Hs, Hd. rewrite <- app_assoc. reflexivity.
Qed.

Lemma persisted_app w l :
  count is_persist (log w ++ l) = persisted w + count is_persist l.
Proof. apply count_app. Qed.

(** X1: The scheduler persists an archive exactly when it returns without
    error, and then exactly one. *)
Theorem monitor_persists_iff_returns_nil (startup : bool) (wakeups : list wakeup)
    (args : networkHealthMonitorArgs) (w : World) :
  let r := runNetworkHealthMonitor startup wakeups args w in
  persisted (snd r)
  = persisted w + match fst r with Returned (Ok _) => 1 | _ => 0 end.
Proof.
  unfold runNetworkHealthMonitor. destruct startup; simpl; [|unfold persisted; simpl; lia].
  generalize (mkSysArgs (baseDir args) (sysdiagnoseTimeout args)) as a. intros a.
  revert w. induction wakeups as [|[|t] ws IH]; intros w; simpl; try lia.
  unfold bind.
  pose proof (checkNetworkAndCollect_log t a w) as Hl.
  destruct (checkNetworkAndCollect t a w) as [[[]|m] w1].
  - destruct Hl as (argv & n & Hl). simpl. unfold persisted. rewrite Hl, count_app.
    reflexivity.
  - rewrite IH. subst w1. unfold persisted. simpl. rewrite count_app. cbn. lia.
  - rewrite IH. destruct Hl as (l & Hl & _ & Hp & _). unfold persisted.
    rewrite Hl, count_app.
    change (EvProbe false :: l) with ([EvProbe false] ++ l)%list.
    rewrite count_app, Hp. cbn. lia.
Qed.


Lemma monitor_loop_healthy (a : sysdiagnoseArgs) (wakeups : list wakeup) (w : World) :
  Forall healthy wakeups ->
  fst (monitor_loop a wakeups w) <> Returned (Ok tt)
  /\ names (snd (monitor_loop a wakeups w)) = names w
  /\ store (snd (monitor_loop a wakeups w)) = store w
  /\ opened (snd (monitor_loop a wakeups w)) = opened w
  /\ next_ino (snd (monitor_loop a wakeups w)) = next_ino w
  /\ exists k, k <= ticks wakeups
               /\ log (snd (monitor_loop a wakeups w))
                  = (log w ++ repeat (EvProbe true) k)%list.
Proof.
  intros Hh. revert w. induction Hh as [|[|t] ws Ht Hws IH]; intros w; simpl.
  - repeat split; try discriminate. exists 0. split; [lia|].
    simpl. rewrite app_nil_r. reflexivity.
  - repeat split; try discriminate. exists 0. split; [lia|].
    simpl. rewrite app_nil_r. reflexivity.
  - unfold bind. unfold checkNetworkAndCollect, bind, runCheckIMDS, bind, emit, ret.
    simpl in Ht. rewrite Ht. simpl.
    match goal with
    | |- context [monitor_loop a ws ?w0] => specialize (IH w0)
    end.
    destruct IH as (Hr & Hn & Hs & Ho & Hi & k & Hk & Hl).
    repeat split; try assumption.
    exists (S k). split; [unfold ticks in *; simpl; lia|].
    rewrite Hl. simpl. rewrite <- app_assoc. reflexivity.
Qed.

(** X3: While the metadata service answers every probe with status 200 the
    scheduler does not return without error, attempts no collection and
    leaves the file system as it is; all it does is one probe per tick. *)
Theorem monitor_idle_while_healthy (startup : bool) (wakeups : list wakeup)
    (args : networkHealthMonitorArgs) (w : World) :
  Forall healthy wakeups ->
  let r := runNetworkHealthMonitor startup wakeups args w in
  fst r <> Returned (Ok tt)
  /\ names (snd r) = names w /\ store (snd r) = store w
  /\ opened (snd r) = opened w /\ next_ino (snd r) = next_ino w
  /\ exists k, k <= ticks wakeups
               /\ log (snd r) = (log w ++ repeat (EvProbe true) k)%list.
Proof.
  intros Hh. unfold runNetworkHealthMonitor. destruct startup; simpl.
  - apply monitor_loop_healthy, Hh.
  - repeat split; try discriminate. exists 0. split; [lia|].
    simpl. rewrite app_nil_r. reflexivity.
Qed.

Lemma monitor_idle_while_healthy_witness :
  let r := runNetworkHealthMonitor true [TimerFired healthy_tick; TimerFired healthy_tick]
             default_args host_world in
  fst r <> Returned (Ok tt)
  /\ names (snd r) = names host_world /\ store (snd r) = store host_world
  /\ opened (snd r) = opened host_world /\ next_ino (snd r) = next_ino host_world
  /\ exists k, k <= ticks [TimerFired healthy_tick; TimerFired healthy_tick]
               /\ log (snd r) = (log host_world ++ repeat (EvProbe true) k)%list.
Proof.
  apply (monitor_idle_while_healthy true
           [TimerFired healthy_tick; TimerFired healthy_tick] default_args host_world).
  repeat constructor.
Defined.

(** X5: As long as every probe is answered with status 200, the command
    creates nothing but the base output directory: the host directory is
    only made when a collection is attempted. *)
Theorem RunE_creates_only_base_directory (e : run_env)
    (args : networkHealthMonitorArgs) (w : World) :
  Forall healthy (wakeups e) ->
  let r := RunE e args w in
  names (snd r) = names (snd (os.MkdirAll (base_ok e) (baseDir args) os.perm_0700 w))
  /\ store (snd r) = store w
  /\ opened (snd r) = opened w
  /\ collections (snd r) = collections w.
Proof.
  intros Hh. unfold RunE, bind.
  pose proof (MkdirAll_files (base_ok e) (baseDir args) os.perm_0700 w) as (Hs & Ho & _).
  pose proof (MkdirAll_log (base_ok e) (baseDir args) os.perm_0700 w) as Hl.
  destruct (os.MkdirAll _ _ _ w) as [[[]|m] w1]; cbn [fst snd] in *.
  2:{ unfold collections, ret. cbn [snd]. rewrite Hl. auto. }
  destruct (filepath_match.Glob _ w1) as [existing|msg];
    [|unfold collections; cbn [snd]; rewrite Hl; auto].
  destruct (Nat.ltb 0 (length existing));
    [unfold collections; cbn [snd]; rewrite Hl; auto|].
  unfold runNetworkHealthMonitor. destruct (startup e); cbn [negb];
    [|unfold collections, ret; cbn [snd]; rewrite Hl; auto].
  match goal with
  | |- context [monitor_loop ?a (wakeups e) w1] =>
      destruct (monitor_loop_healthy a (wakeups e) w1 Hh)
        as (_ & Hn & Hs' & Ho' & _ & k & _ & Hk)
  end.
  rewrite Hn, Hs', Ho', Hs, Ho. repeat split.
  unfold collections. rewrite Hk, Hl, count_app.
  assert (H0 : count is_collect (repeat (EvProbe true) k) = 0)
    by (clear; induction k as [|k IH]; [reflexivity|exact IH]).
  lia.
Qed.

Lemma RunE_creates_only_base_directory_witness :
  let r := RunE healthy_run default_args host_world in
  names (snd r)
  = names (snd (os.MkdirAll (base_ok healthy_run) (baseDir default_args) os.perm_0700
                  host_world))
  /\ store (snd r) = store host_world
  /\ opened (snd r) = opened host_world
  /\ collections (snd r) = collections host_world.
Proof.
  apply (RunE_creates_only_base_directory healthy_run default_args host_world).
  repeat constructor.
Defined.

(** X4: One probe per tick at most, and a collection only after a probe that
    failed. *)
Theorem monitor_collects_only_after_failed_probe (startup : bool)
    (wakeups : list wakeup) (args : networkHealthMonitorArgs) (w : World) :
  let r := runNetworkHealthMonitor startup wakeups args w in
  exists l,
    log (snd r) = (log w ++ l)%list
    /\ count is_probe l <= ticks wakeups
    /\ count is_collect l <= count is_failed_probe l
    /\ (fst r = Waiting -> count is_probe l = length wakeups).
Proof.
  unfold runNetworkHealthMonitor. destruct startup; simpl.
  2:{ exists []. rewrite app_nil_r. cbn. repeat split; try lia. discriminate. }
  generalize (mkSysArgs (baseDir args) (sysdiagnoseTimeout args)) as a. intros a.
  revert w. induction wakeups as [|[|t] ws IH]; intros w; simpl.
  - exists []. rewrite app_nil_r. cbn. repeat split; lia.
  - exists []. rewrite app_nil_r. cbn. repeat split; try lia. discriminate.
  - unfold bind.
    pose proof (checkNetworkAndCollect_log t a w) as Hl.
    destruct (checkNetworkAndCollect t a w) as [[[]|m] w1].
    + destruct Hl as (argv & n & Hl). eexists. split; [exact Hl|].
      cbn. unfold ticks; simpl. repeat split; try lia. discriminate.
    + destruct (IH w1) as (l & Hl1 & Hp & Hc & Hw). subst w1. simpl in Hl1.
      exists (EvProbe true :: l). rewrite Hl1, <- app_assoc. split; [reflexivity|].
      change (EvProbe true :: l) with ([EvProbe true] ++ l)%list.
      rewrite !count_app. cbn. unfold ticks in *; simpl.
      repeat split; try lia. intros H. specialize (Hw H). lia.
    + destruct (IH w1) as (l & Hl1 & Hp & Hc & Hw).
      destruct Hl as (l0 & Hl0 & Hp0 & _ & Hc0).
      exists ((EvProbe false :: l0) ++ l)%list. rewrite Hl1, Hl0, <- app_assoc.
      split; [reflexivity|].
      change (EvProbe false :: l0) with ([EvProbe false] ++ l0)%list.
      rewrite !count_app. cbn. unfold ticks in *; simpl.
      repeat split; try lia. intros H. specialize (Hw H). lia.
Qed.

(** ** The lines of the registry query's output *)

Lemma raw_lines_app_newline cur a b :
  exists l,
    bufio.raw_lines cur (a ++ String bufio.newline b) = (l ++ bufio.raw_lines "" b)%list
    /\ (l = bufio.raw_lines cur a \/ l = (bufio.raw_lines cur a ++ [""])%list).
Proof.
  revert cur. induction a as [|c a IH]; intros cur.
  - rewrite append_nil_l. cbn [bufio.raw_lines].
    rewrite Ascii.eqb_refl.
    destruct (String.eqb_spec cur "") as [->|Hne].
    + exists [""]. split; [reflexivity|]. right. reflexivity.
    + exists [rev_string cur]. split; [reflexivity|]. left. reflexivity.
  - rewrite append_cons. cbn [bufio.raw_lines].
    destruct (Ascii.eqb c bufio.newline).
    + destruct (IH "") as (l & -> & Hl).
      exists (rev_string cur :: l). split; [reflexivity|].
      destruct Hl as [->| ->]; [left|right]; reflexivity.
    + apply IH.
Qed.

Lemma scan_loop_app pending more uuid :
  scan_loop pending = Ok uuid -> scan_loop (pending ++ more) = Ok uuid.
Proof.
  induction pending as [|raw rest IH]; simpl; [discriminate|].
  destruct (bufio.token raw) as [line|]; [|discriminate].
  destruct (match_line line); [auto|exact IH].
Qed.

(** X19: The first line that yields an identifier decides: whatever lines
    follow it, the result is the same. *)
Theorem parseIOPlatformUUID_first_match (data more uuid : string) :
  parseIOPlatformUUID data = Ok uuid ->
  parseIOPlatformUUID (data ++ String bufio.newline more) = Ok uuid.
Proof.
  unfold parseIOPlatformUUID. intros H.
  destruct (raw_lines_app_newline "" data more) as (l & -> & [->| ->]).
  - apply scan_loop_app, H.
  - rewrite <- app_assoc. apply scan_loop_app, H.
Qed.

Lemma parseIOPlatformUUID_first_match_witness :
  parseIOPlatformUUID (sample_ioreg ++ String bufio.newline other_line)
  = Ok "ABCD1234-5678-90EF-GHIJ-KLMNOPQRSTUV".
Proof.
  apply (parseIOPlatformUUID_first_match sample_ioreg other_line).
  vm_compute. reflexivity.
Defined.

(** ** Strings as byte lists *)

Lemma string_list_inj a b :
  list_ascii_of_string a = list_ascii_of_string b -> a = b.
Proof.
  intros H. rewrite <- (string_of_list_ascii_of_string a),
    <- (string_of_list_ascii_of_string b), H. reflexivity.
Qed.

Lemma append_nil_r (a : string) : a ++ "" = a.
Proof. induction a; [reflexivity|]. rewrite append_cons, IHa. reflexivity. Qed.

Lemma rev_string_cons c s : rev_string (String c s) = rev_string s ++ String c "".
Proof.
  apply string_list_inj. unfold rev_string.
  rewrite list_ascii_app, !list_ascii_of_string_of_list_ascii. reflexivity.
Qed.

Lemma rev_string_length s : String.length (rev_string s) = String.length s.
Proof.
  induction s as [|c s IH]; [reflexivity|].
  rewrite rev_string_cons, append_length, IH. simpl. lia.
Qed.

(** ** Lines too long for the scanner *)

Lemma raw_lines_no_newline cur a rest :
  no_newline a = true ->
  exists cur',
    bufio.raw_lines cur (a ++ rest) = bufio.raw_lines cur' rest
    /\ rev_string cur' = rev_string cur ++ a.
Proof.
  revert cur. induction a as [|c a IH]; intros cur Hn.
  - exists cur. rewrite append_nil_l, append_nil_r. auto.
  - unfold no_newline in Hn. simpl in Hn. apply andb_prop in Hn as [Hc Hn].
    apply negb_true_iff in Hc.
    rewrite append_cons. cbn [bufio.raw_lines]. rewrite Hc.
    destruct (IH (String c cur) Hn) as (cur' & -> & Hr).
    exists cur'. split; [reflexivity|].
    rewrite Hr, rev_string_cons, append_assoc. reflexivity.
Qed.

Lemma raw_lines_first cur rest :
  cur <> "" ->
  exists l ls, bufio.raw_lines cur rest = l :: ls
               /\ String.length cur <= String.length l.
Proof.
  revert cur. induction rest as [|c rest IH]; intros cur Hne; cbn [bufio.raw_lines].
  - destruct (String.eqb_spec cur ""); [contradiction|].
    eexists _, _. split; [reflexivity|]. rewrite rev_string_length. lia.
  - destruct (Ascii.eqb c bufio.newline).
    + eexists _, _. split; [reflexivity|]. rewrite rev_string_length. lia.
    + destruct (IH (String c cur)) as (l & ls & -> & Hl); [discriminate|].
      exists l, ls. split; [reflexivity|]. simpl in Hl. lia.
Qed.

(** X21: A first line of [MaxScanTokenSize] bytes or more makes the scanner
    stop with its error: no identifier is returned, whatever follows. *)
Theorem parseIOPlatformUUID_line_too_long (long rest : string) :
  no_newline long = true ->
  bufio.MaxScanTokenSize <= String.length long ->
  parseIOPlatformUUID (long ++ rest)
  = Err "error scanning ioreg output: bufio.Scanner: token too long".
Proof.
  intros Hn Hlen. unfold parseIOPlatformUUID.
  destruct (raw_lines_no_newline "" long rest Hn) as (cur' & -> & Hr).
  change (rev_string "") with "" in Hr. rewrite append_nil_l in Hr.
  assert (Hc : String.length cur' = String.length long)
    by (rewrite <- Hr; symmetry; apply rev_string_length).
  destruct (raw_lines_first cur' rest) as (l & ls & -> & Hl).
  { intros ->. simpl in Hc. unfold bufio.MaxScanTokenSize in Hlen. lia. }
  cbn [scan_loop]. unfold bufio.token.
  destruct (Nat.leb_spec bufio.MaxScanTokenSize (String.length l)); [reflexivity|lia].
Qed.

Lemma parseIOPlatformUUID_line_too_long_witness :
  parseIOPlatformUUID (long_line ++ String bufio.newline quoted_line)
  = Err "error scanning ioreg output: bufio.Scanner: token too long".
Proof.
  apply (parseIOPlatformUUID_line_too_long long_line (String bufio.newline quoted_line)).
  - vm_compute. reflexivity.
  - apply Nat.leb_le. vm_compute. reflexivity.
Defined.

(** X20: A line that is short enough and yields no identifier is skipped. *)
Theorem parseIOPlatformUUID_skips_line (line data : string) :
  no_newline line = true ->
  String.length line < bufio.MaxScanTokenSize ->
  match_line (bufio.dropCR line) = None ->
  parseIOPlatformUUID (line ++ String bufio.newline data) = parseIOPlatformUUID data.
Proof.
  intros Hn Hlen Hm. unfold parseIOPlatformUUID.
  destruct (raw_lines_no_newline "" line (String bufio.newline data) Hn)
    as (cur' & -> & Hr).
  change (rev_string "") with "" in Hr. rewrite append_nil_l in Hr.
  cbn [bufio.raw_lines]. rewrite Ascii.eqb_refl, Hr. cbn [scan_loop].
  unfold bufio.token.
  destruct (Nat.leb_spec bufio.MaxScanTokenSize (String.length line)); [lia|].
  rewrite Hm. reflexivity.
Qed.

Lemma parseIOPlatformUUID_skips_line_witness :
  parseIOPlatformUUID (unquoted_line ++ String bufio.newline quoted_line)
  = parseIOPlatformUUID quoted_line.
Proof.
  apply (parseIOPlatformUUID_skips_line unquoted_line quoted_line).
  - vm_compute. reflexivity.
  - apply Nat.ltb_lt. vm_compute. reflexivity.
  - vm_compute. reflexivity.
Defined.

(** ** Output without the key *)

Lemma prefix_inv a s : String.prefix a s = true -> exists b, s = a ++ b.
Proof.
  revert s. induction a as [|c a IH]; intros s H.
  - exists s. reflexivity.
  - destruct s as [|d s]; [discriminate|]. simpl in H.
    destruct (ascii_dec c d) as [->|]; [|discriminate].
    destruct (IH s H) as [b ->]. exists b. rewrite append_cons. reflexivity.
Qed.

(** [Contains s sub] holds exactly when [sub] occurs in [s]. *)
Lemma Contains_spec s sub :
  Contains s sub = true <-> exists a b, s = a ++ sub ++ b.
Proof.
  split.
  - induction s as [|c s IH]; cbn [Contains]; intros H; apply orb_prop in H as [H|H].
    + apply prefix_inv in H as [b ->]. exists "", b. reflexivity.
    + discriminate.
    + apply prefix_inv in H as [b ->]. exists "", b. reflexivity.
    + destruct (IH H) as (a & b & ->). exists (String c a), b.
      rewrite append_cons. reflexivity.
  - intros (a & b & ->). induction a as [|c a IH].
    + rewrite append_nil_l.
      assert (Hp : String.prefix sub (sub ++ b) = true) by apply prefix_app.
      destruct (sub ++ b); cbn [Contains]; rewrite Hp; reflexivity.
    + rewrite append_cons. cbn [Contains]. rewrite IH. apply orb_true_r.
Qed.

Lemma raw_lines_substring cur s l :
  In l (bufio.raw_lines cur s) -> exists a b, rev_string cur ++ s = a ++ l ++ b.
Proof.
  revert cur. induction s as [|c s IH]; intros cur; cbn [bufio.raw_lines].
  - destruct (String.eqb cur ""); [intros []|].
    intros [<-|[]]. exists "", "". rewrite append_nil_l. reflexivity.
  - destruct (Ascii.eqb c bufio.newline).
    + intros [<-|H].
      * exists "", (String c s). rewrite append_nil_l. reflexivity.
      * destruct (IH "" H) as (a & b & E).
        change (rev_string "") with "" in E. rewrite append_nil_l in E.
        exists (rev_string cur ++ String c a), b.
        rewrite E, !append_assoc, append_cons. reflexivity.
    + intros H. destruct (IH (String c cur) H) as (a & b & E).
      exists a, b. rewrite <- E, rev_string_cons, append_assoc. reflexivity.
Qed.

Lemma dropCR_substring data : exists b, data = bufio.dropCR data ++ b.
Proof.
  unfold bufio.dropCR.
  destruct (list_ascii_of_string (rev_string data)) as [|c r] eqn:E;
    [exists ""; symmetry; apply append_nil_r|].
  destruct (Ascii.eqb c bufio.carriage_return);
    [|exists ""; symmetry; apply append_nil_r].
  exists (String c ""). apply string_list_inj.
  rewrite list_ascii_app, list_ascii_of_string_of_list_ascii.
  unfold rev_string in E. rewrite list_ascii_of_string_of_list_ascii in E.
  change (list_ascii_of_string (String c "")) with [c].
  rewrite <- (rev_involutive (list_ascii_of_string data)), E. reflexivity.
Qed.

Lemma scan_loop_no_key pending :
  (forall raw line, In raw pending -> bufio.token raw = Some line ->
                    match_line line = None) ->
  scan_loop pending = Err "UUID not found in ioreg output"
  \/ scan_loop pending = Err "error scanning ioreg output: bufio.Scanner: token too long".
Proof.
  induction pending as [|raw rest IH]; intros H; cbn [scan_loop]; [left; reflexivity|].
  destruct (bufio.token raw) as [line|] eqn:Ht; [|right; reflexivity].
  rewrite (H raw line (or_introl eq_refl) Ht).
  apply IH. intros raw' line' Hin. apply H. right. exact Hin.
Qed.

(** X22: Output in which the quoted key does not occur yields no identifier:
    the result is one of the two errors, never an empty or made-up
    identifier. *)
Theorem parseIOPlatformUUID_missing_key (data : string) :
  Contains data platformUUIDKeyToken = false ->
  parseIOPlatformUUID data = Err "UUID not found in ioreg output"
  \/ parseIOPlatformUUID data
     = Err "error scanning ioreg output: bufio.Scanner: token too long".
Proof.
  intros Hno. apply scan_loop_no_key. intros raw line Hin Ht.
  unfold match_line. destruct (Contains line platformUUIDKeyToken) eqn:Hc; [|reflexivity].
  exfalso. apply not_true_iff_false in Hno. apply Hno. apply Contains_spec.
  apply Contains_spec in Hc as (a & b & Hline).
  apply raw_lines_substring in Hin as (a' & b' & Hdata).
  change (rev_string "") with "" in Hdata. rewrite append_nil_l in Hdata.
  unfold bufio.token in Ht. destruct (Nat.leb _ _); [discriminate|].
  injection Ht as Ht. destruct (dropCR_substring raw) as [c Hraw].
  rewrite Ht, Hline in Hraw.
  exists (a' ++ a), (b ++ c ++ b'). rewrite Hdata, Hraw, !append_assoc. reflexivity.
Qed.

Lemma parseIOPlatformUUID_missing_key_witness :
  parseIOPlatformUUID unquoted_line = Err "UUID not found in ioreg output"
  \/ parseIOPlatformUUID unquoted_line
     = Err "error scanning ioreg output: bufio.Scanner: token too long".
Proof.
  apply (parseIOPlatformUUID_missing_key unquoted_line).
  vm_compute. reflexivity.
Defined.

(** ** [debug create-sysdiagnose] *)

(** X17: [debug create-sysdiagnose] returns no error only when it is run as
    root with a timeout of at least five minutes, and exactly then one
    archive has been persisted; an invocation it refuses changes nothing,
    and otherwise the world is the one [runSysdiagnose] leaves. *)
Theorem createSysdiagnose_outcome (euid : Z) (e : create_env)
    (args : sysdiagnoseArgs) (w : World) :
  let r := createSysdiagnoseRunE euid e args w in
  persisted (snd r) = persisted w + (if is_ok (fst r) then 1 else 0)
  /\ (is_ok (fst r) = true ->
      euid = 0%Z /\ (sysdiagnoseMinTimeout <= timeout args)%Z
      /\ fst (runSysdiagnose (create_sys e) args w) = Ok tt)
  /\ (euid <> 0%Z \/ (timeout args < sysdiagnoseMinTimeout)%Z -> snd r = w)
  /\ (euid = 0%Z -> (sysdiagnoseMinTimeout <= timeout args)%Z ->
      snd r = snd (runSysdiagnose (create_sys e) args w)).
Proof.
  unfold createSysdiagnoseRunE.
  destruct (Z.eqb_spec euid 0) as [->|Hne]; cbn [negb].
  2:{ cbn. repeat split; try discriminate; lia. }
  destruct (Z.ltb_spec (timeout args) sysdiagnoseMinTimeout) as [Hlt|Hge].
  { cbn. repeat split; try discriminate; try lia. }
  unfold bind.
  pose proof (runSysdiagnose_log (create_sys e) args w) as Hl.
  destruct (runSysdiagnose (create_sys e) args w) as [[[]|m] w1].
  - destruct Hl as (argv & n & Hl). cbn. unfold persisted. rewrite Hl, count_app.
    cbn. repeat split; lia.
  - destruct Hl as (l & Hl & _ & Hp & _).
    assert (Hpers : persisted w1 = persisted w + 0).
    { unfold persisted. rewrite Hl, count_app, Hp. reflexivity. }
    destruct (deadline_exceeded e); cbn; repeat split; try discriminate; lia.
Qed.

Lemma createSysdiagnose_outcome_witness :
  let args := mkSysArgs default_base sysdiagnoseMinTimeout in
  let r := createSysdiagnoseRunE 0 (mkCreateEnv good_sys false) args host_world in
  fst r = Ok tt
  /\ persisted (snd r) = persisted host_world + 1
  /\ snd (createSysdiagnoseRunE 501 (mkCreateEnv good_sys false) args host_world)
     = host_world.
Proof.
  intros args r.
  assert (Hok : fst r = Ok tt) by (vm_compute; reflexivity).
  destruct (createSysdiagnose_outcome 0 (mkCreateEnv good_sys false) args host_world)
    as (Hp & _).
  destruct (createSysdiagnose_outcome 501 (mkCreateEnv good_sys false) args host_world)
    as (_ & _ & Hrefuse & _).
  fold r in Hp. rewrite Hok in Hp.
  split; [exact Hok|]. split; [exact Hp|]. apply Hrefuse. left. discriminate.
Defined.

(** ** The archive in the host directory *)

Lemma persist_Ok_entry e path src w w' :
  persist e path src w = (Ok tt, w') ->
  os.Stat path w' = Some (NFile os.perm_0400 (next_ino w)).
Proof.
  unfold persist, bind, defer, ret.
  destruct (os.OpenFile _ _ _ _ w) as [[dst|m] w1] eqn:E1; [|discriminate].
  destruct (OpenFile_create_inv _ _ _ _ _ _ E1) as (Hnone & Hp & -> & ->).
  match goal with
  | |- context [os.Copy ?f ?d src ?w1] =>
      pose proof (Copy_names f d src w1) as Hc;
      destruct (os.Copy f d src w1) as [[n|m] w2]
  end; cbn [fst snd names] in Hc.
  2:{ destruct (os.Remove _ _ w2). discriminate. }
  cbn. intros [= <-]. unfold os.Stat.
  destruct (String.eqb_spec path ""); [contradiction|].
  cbn. rewrite Hc. apply lookup_insert_eq.
Qed.

Lemma runSysdiagnose_Ok_entry e args w w' :
  runSysdiagnose e args w = (Ok tt, w') ->
  exists nd, os.Stat (outputPath args (now e)) w' = Some nd.
Proof.
  unfold runSysdiagnose, bind, ret.
  destruct (os.MkdirAll _ _ _ w) as [[[]|m] w1]; [|discriminate].
  destruct (sysdiagnose.Collect _ _ w1) as [[h|m] w2]; [|discriminate].
  unfold defer, emit. cbn [is_ok fst snd].
  match goal with
  | |- context [persist e ?p ?h ?w3] =>
      pose proof (persist_Ok_entry e p h w3) as Hp;
      destruct (persist e p h w3) as [[[]|m] w4]
  end; [|discriminate].
  intros [= <-]. eexists.
  rewrite (Stat_names _ w4) by apply Close_names. apply Hp. reflexivity.
Qed.

Lemma monitor_loop_Ok_entry a ws w w' :
  monitor_loop a ws w = (Returned (Ok tt), w') ->
  exists t nd, In (TimerFired t) ws
               /\ os.Stat (outputPath a (now (sys t))) w' = Some nd.
Proof.
  revert w. induction ws as [|[|t] ws IH]; intros w; cbn [monitor_loop];
    try discriminate.
  unfold bind at 1.
  destruct (checkNetworkAndCollect t a w) as [[[]|m] w1] eqn:E.
  - intros [= <-]. revert E. unfold checkNetworkAndCollect, bind at 1.
    destruct (runCheckIMDS (probe t) w) as [[[]|m] w0]; [discriminate|].
    unfold bind at 1.
    destruct (os.MkdirAll _ _ _ w0) as [[[]|m1] w2]; [|discriminate].
    unfold bind.
    destruct (runSysdiagnose (sys t) a w2) as [[[]|m2] w3] eqn:Hs; [|discriminate].
    intros [= <-]. destruct (runSysdiagnose_Ok_entry _ _ _ _ Hs) as [nd Hnd].
    exists t, nd. split; [left; reflexivity|exact Hnd].
  - intros H. destruct (IH _ H) as (t' & nd & Hin & Hnd).
    exists t', nd. split; [right; exact Hin|exact Hnd].
  - intros H. destruct (IH _ H) as (t' & nd & Hin & Hnd).
    exists t', nd. split; [right; exact Hin|exact Hnd].
Qed.

(** ** Time stamps *)

Lemma digit_noslash n : IsPathSeparator (digit n) = false.
Proof.
  unfold digit. pose proof (Nat.mod_upper_bound n 10) as H.
  destruct (n mod 10) as [|[|[|[|[|[|[|[|[|[|d]]]]]]]]]]; try reflexivity. lia.
Qed.

Lemma zero_pad_noslash width n : noslash (zero_pad width n).
Proof.
  revert n. induction width as [|width IH]; intros n; cbn [zero_pad].
  - constructor.
  - apply noslash_app; [apply IH|]. repeat constructor. apply digit_noslash.
Qed.

Lemma Format_noslash t : noslash (Format t).
Proof.
  unfold Format.
  repeat first [ apply zero_pad_noslash | apply noslash_app ].
  repeat constructor.
Qed.

Lemma archive_name_Format t : archive_name (("sysdiagnose_" ++ Format t) ++ ".tar.gz").
Proof.
  exists (Format t). split; [apply append_assoc|apply Format_noslash].
Qed.

(** ** A watchdog started again after a capture *)

(** X7: When a run of the watchdog has returned without error, a run started
    afterwards for the same host returns at once, without a probe or a
    collection, provided the host directory has no pattern metacharacter
    in its name and the output directories are still in place. *)
Theorem watchdog_restart_stops (e e' : run_env) (args : networkHealthMonitorArgs)
    (w w' : World) (m0 m : N) :
  RunE e args w = (Returned (Ok tt), w') ->
  ioreg e' = ioreg e ->
  hasMeta (prefixDir e args) = false ->
  os.Stat (baseDir args) w' = Some (NDir m0) ->
  os.Stat (prefixDir e args) w' = Some (NDir m) ->
  RunE e' args w' = (Returned (Ok tt), w').
Proof.
  intros Hrun Hio Hmeta Hbase Hdir.
  assert (Hpre : prefixDir e' args = prefixDir e args).
  { unfold prefixDir, collectionPrefix. rewrite Hio. reflexivity. }
  revert Hrun. unfold RunE at 1, bind.
  destruct (os.MkdirAll _ _ _ w) as [[[]|m1] w1]; [|discriminate].
  fold (prefixDir e args).
  destruct (Glob (Join [prefixDir e args; "sysdiagnose_*.tar.gz"]) w1)
    as [existing|msg] eqn:Hg; [|discriminate].
  destruct (Nat.ltb 0 (length existing)) eqn:Hlen.
  - intros [= <-]. apply Nat.ltb_lt in Hlen.
    apply (RunE_glob_found e' args w1 m0 existing Hbase); [|exact Hlen].
    rewrite Hpre. exact Hg.
  - unfold runNetworkHealthMonitor. destruct (startup e); [|discriminate].
    cbn [negb baseDir sysdiagnoseTimeout]. intros Hloop.
    apply monitor_loop_Ok_entry in Hloop as (t & nd & _ & Hnd).
    unfold outputPath in Hnd. cbn [outputDir] in Hnd.
    rewrite <- Hpre in Hmeta, Hdir, Hnd.
    pose proof (Stat_Some_nonempty _ _ _ Hdir) as Hne.
    rewrite (Join_two _ _ Hne), Stat_Clean, <- (Join_two _ _ Hne) in Hnd.
    destruct (Glob_prefixDir e' args w' _ m0 m nd Hmeta Hbase Hdir Hnd
                (archive_name_Format (now (sys t))))
      as (existing' & Hg' & Hpos).
    exact (RunE_glob_found e' args w' m0 existing' Hbase Hg' Hpos).
Qed.

Lemma watchdog_restart_stops_witness :
  let w' := snd (RunE outage_run default_args host_world) in
  RunE idle_env default_args w' = (Returned (Ok tt), w').
Proof.
  intros w'.
  assert (Hrun : RunE outage_run default_args host_world = (Returned (Ok tt), w'))
    by (vm_compute; reflexivity).
  apply (watchdog_restart_stops outage_run idle_env default_args host_world w' 448 448 Hrun).
  - reflexivity.
  - vm_compute. reflexivity.
  - vm_compute. reflexivity.
  - vm_compute. reflexivity.
Defined.

(** ** Output paths of different seconds *)

Lemma zero_pad_length width n : String.length (zero_pad width n) = width.
Proof.
  revert n. induction width as [|width IH]; intros n; cbn [zero_pad]; [reflexivity|].
  rewrite append_length, IH. simpl. lia.
Qed.

Lemma append_inj_length a b c d :
  String.length a = String.length c -> a ++ b = c ++ d -> a = c /\ b = d.
Proof.
  revert c. induction a as [|x a IH]; intros [|y c] Hl H; try discriminate.
  - rewrite !append_nil_l in H. auto.
  - rewrite !append_cons in H. injection H as -> H. injection Hl as Hl.
    destruct (IH c Hl H) as [-> ->]. auto.
Qed.

Lemma digit_inj n m : digit n = digit m -> n mod 10 = m mod 10.
Proof.
  unfold digit. intros H.
  pose proof (Nat.mod_upper_bound n 10). pose proof (Nat.mod_upper_bound m 10).
  apply (f_equal nat_of_ascii) in H.
  rewrite !nat_ascii_embedding in H by lia. lia.
Qed.

Lemma zero_pad_inj width n m :
  zero_pad width n = zero_pad width m -> n mod 10 ^ width = m mod 10 ^ width.
Proof.
  revert n m. induction width as [|width IH]; intros n m H.
  - change (10 ^ 0) with 1. rewrite !Nat.mod_1_r. reflexivity.
  - cbn [zero_pad] in H.
    apply append_inj_length in H as [H1 H2]; [|rewrite !zero_pad_length; reflexivity].
    injection H2 as H2. apply digit_inj in H2. apply IH in H1.
    rewrite Nat.pow_succ_r', !Nat.Div0.mod_mul_r, H1, H2. reflexivity.
Qed.

Lemma zero_pad_inj_small width n m :
  n < 10 ^ width -> m < 10 ^ width -> zero_pad width n = zero_pad width m -> n = m.
Proof.
  intros Hn Hm H. apply zero_pad_inj in H.
  rewrite !Nat.mod_small in H by assumption. exact H.
Qed.

Lemma Format_inj t1 t2 : fits t1 -> fits t2 -> Format t1 = Format t2 -> t1 = t2.
Proof.
  intros (Hy1 & Hmo1 & Hd1 & Hh1 & Hmi1 & Hs1) (Hy2 & Hmo2 & Hd2 & Hh2 & Hmi2 & Hs2).
  unfold Format. intros H.
  apply append_inj_length in H as [Ey H]; [|rewrite !zero_pad_length; reflexivity].
  apply append_inj_length in H as [Emo H]; [|rewrite !zero_pad_length; reflexivity].
  apply append_inj_length in H as [Ed H]; [|rewrite !zero_pad_length; reflexivity].
  apply append_inj_length in H as [_ H]; [|reflexivity].
  apply append_inj_length in H as [Eh H]; [|rewrite !zero_pad_length; reflexivity].
  apply append_inj_length in H as [Emi Es]; [|rewrite !zero_pad_length; reflexivity].
  assert (P4 : 10 ^ 4 = 10000) by reflexivity.
  assert (P2 : 10 ^ 2 = 100) by reflexivity.
  apply zero_pad_inj_small in Ey; [|rewrite P4; assumption..].
  apply zero_pad_inj_small in Emo; [|rewrite P2; assumption..].
  apply zero_pad_inj_small in Ed; [|rewrite P2; assumption..].
  apply zero_pad_inj_small in Eh; [|rewrite P2; assumption..].
  apply zero_pad_inj_small in Emi; [|rewrite P2; assumption..].
  apply zero_pad_inj_small in Es; [|rewrite P2; assumption..].
  destruct t1, t2; simpl in *; subst; reflexivity.
Qed.

(** The output path ends in the archive's name. *)
Lemma Base_outputPath args t :
  Base (outputPath args t) = ("sysdiagnose_" ++ Format t) ++ ".tar.gz".
Proof.
  assert (Hn : noslash ("sysdiagnose_" ++ Format t)).
  { apply noslash_app; [repeat constructor|apply Format_noslash]. }
  pose proof (plain_tar_gz _ Hn) as Hp.
  unfold outputPath. destruct (String.eqb_spec (outputDir args) "") as [E|Hne].
  - rewrite E. cbn [Join String.eqb].
    destruct (String.eqb_spec (("sysdiagnose_" ++ Format t) ++ ".tar.gz") "") as [E'|_];
      [destruct Hp as (_ & Hp & _); contradiction|].
    cbn [join]. destruct Hp as (Hp1 & Hp2 & _).
    rewrite (Clean_noslash _ Hp1 Hp2).
    rewrite <- (append_nil_l (_ ++ ".tar.gz")) at 1.
    apply Base_app; [left; reflexivity|assumption|assumption].
  - destruct (Join_plain _ _ Hne Hp) as (l & _ & _ & Hc & ->).
    apply Base_render, Hc.
Qed.

(** X16: Captures started in different seconds are written to different output
    paths: with the same output directory, the path determines the time. *)
Theorem outputPath_injective (args : sysdiagnoseArgs) (t1 t2 : Time) :
  fits t1 -> fits t2 ->
  outputPath args t1 = outputPath args t2 -> t1 = t2.
Proof.
  intros H1 H2 H. apply (f_equal Base) in H. rewrite !Base_outputPath in H.
  apply Format_inj; [assumption|assumption|].
  rewrite !append_assoc in H.
  apply append_inj_length in H as [_ H]; [|reflexivity].
  apply (f_equal list_ascii_of_string) in H. rewrite !list_ascii_app in H.
  apply app_inv_tail in H. apply string_list_inj, H.
Qed.

Lemma outputPath_injective_witness :
  noon = mkTime 2024 6 1 12 0 0.
Proof.
  apply (outputPath_injective (mkSysArgs default_base sysdiagnoseDefaultTimeout)).
  - repeat split; apply Nat.ltb_lt; reflexivity.
  - repeat split; apply Nat.ltb_lt; reflexivity.
  - reflexivity.
Defined.

(** ** A well-formed line *)

Lemma DecodeRune_ascii_byte c t :
  (N_of_ascii c < 0x80)%N -> DecodeRune (c :: t) = (N_of_ascii c, 1).
Proof.
  intros H. unfold DecodeRune, first.
  destruct (N.ltb_spec (N_of_ascii c) 0x80); [reflexivity|lia].
Qed.

Lemma Runes_ascii_cons c t :
  (N_of_ascii c < 0x80)%N -> Runes (c :: t) = (N_of_ascii c, [c]) :: Runes t.
Proof. intros H. rewrite Runes_cons, (DecodeRune_ascii_byte c t H). reflexivity. Qed.

Lemma fields_skip_blank indent rest :
  blank indent = true ->
  fields_loop unicode.IsSpace None
    (Runes (list_ascii_of_string indent ++ rest))
  = fields_loop unicode.IsSpace None (Runes rest).
Proof.
  unfold blank. induction (list_ascii_of_string indent) as [|c l IH]; [reflexivity|].
  cbn [forallb app]. intros H. apply andb_prop in H as [Hc H].
  apply Ascii.eqb_eq in Hc. subst c.
  rewrite Runes_ascii_cons by (vm_compute; reflexivity).
  cbn [fields_loop]. change (unicode.IsSpace (N_of_ascii " ")) with true. cbn iota.
  apply IH, H.
Qed.

Lemma ReplaceAll_id s c :
  forallb (fun x => negb (Ascii.eqb x c)) (list_ascii_of_string s) = true ->
  ReplaceAll s c "" = s.
Proof.
  induction s as [|x s IH]; [reflexivity|].
  cbn [list_ascii_of_string forallb ReplaceAll]. intros H.
  apply andb_prop in H as [Hx H]. apply negb_true_iff in Hx. rewrite Hx, (IH H).
  reflexivity.
Qed.

Lemma blank_unquoted indent : blank indent = true -> unquoted indent = true.
Proof.
  unfold blank, unquoted. induction (list_ascii_of_string indent) as [|c l IH];
    [reflexivity|].
  cbn [forallb]. intros H. apply andb_prop in H as [Hc H]. rewrite (IH H).
  apply Ascii.eqb_eq in Hc. subst c. reflexivity.
Qed.

Lemma spaceless_Forall uuid :
  spaceless uuid = true ->
  Forall (nonspace unicode.IsSpace) (Runes (list_ascii_of_string uuid)).
Proof.
  unfold spaceless. intros H. apply List.Forall_forall. intros rb Hin.
  rewrite forallb_forall in H. apply H in Hin. apply negb_true_iff in Hin. exact Hin.
Qed.

Lemma stripped_key_line indent uuid :
  blank indent = true -> unquoted uuid = true ->
  stripped (key_line indent uuid) = indent ++ "IOPlatformUUID = " ++ uuid.
Proof.
  intros Hb Hu. unfold stripped, key_line.
  rewrite !ReplaceAll_app.
  rewrite (ReplaceAll_id indent quote (blank_unquoted _ Hb)), (ReplaceAll_id uuid quote Hu).
  change (ReplaceAll platformUUIDKeyToken quote "") with "IOPlatformUUID".
  change (ReplaceAll " = " quote "") with " = ".
  change (ReplaceAll quote_s quote "") with "".
  rewrite append_nil_r. 
  change ("IOPlatformUUID" ++ " = " ++ uuid) with ("IOPlatformUUID = " ++ uuid).
  reflexivity.
Qed.

Lemma Runes_ascii_app a t :
  forallb (fun c => (N_of_ascii c <? 0x80)%N) a = true ->
  Runes (a ++ t) = (map (fun c => (N_of_ascii c, [c])) a ++ Runes t)%list.
Proof.
  induction a as [|c a IH]; [reflexivity|]. cbn [forallb app map]. intros H.
  apply andb_prop in H as [Hc H]. apply N.ltb_lt in Hc.
  rewrite (Runes_ascii_cons c _ Hc), (IH H). reflexivity.
Qed.

Lemma fields_key_prefix rs :
  fields_loop unicode.IsSpace None
    (map (fun c => (N_of_ascii c, [c])) (list_ascii_of_string "IOPlatformUUID = ") ++ rs)
  = list_ascii_of_string "IOPlatformUUID" :: list_ascii_of_string "="
    :: fields_loop unicode.IsSpace None rs.
Proof. vm_compute. reflexivity. Qed.

Lemma Fields_key_line indent uuid :
  blank indent = true -> uuid <> "" -> spaceless uuid = true ->
  Fields (indent ++ "IOPlatformUUID = " ++ uuid) = [key; "="; uuid].
Proof.
  intros Hb Hne Hs. unfold Fields, FieldsFunc.
  rewrite list_ascii_app, (fields_skip_blank _ _ Hb), list_ascii_app.
  rewrite Runes_ascii_app by (vm_compute; reflexivity).
  rewrite fields_key_prefix.
  rewrite fields_all_nonspace; [|destruct uuid; [contradiction|]|apply spaceless_Forall, Hs].
  - rewrite bytes_of_Runes. cbn [map]. rewrite !string_of_list_ascii_of_string. reflexivity.
  - cbn [list_ascii_of_string]. rewrite Runes_cons. discriminate.
Qed.

Lemma Contains_key_line indent uuid :
  Contains (key_line indent uuid) platformUUIDKeyToken = true.
Proof.
  apply Contains_spec. exists indent, (" = " ++ quote_s ++ uuid ++ quote_s).
  reflexivity.
Qed.

Lemma match_key_line indent uuid :
  blank indent = true -> uuid <> "" -> unquoted uuid = true -> spaceless uuid = true ->
  match_line (key_line indent uuid) = Some uuid.
Proof.
  intros Hb Hne Hu Hs. apply match_line_Some. split; [apply Contains_key_line|].
  exists "=". split; [|exact Hne].
  rewrite (stripped_key_line _ _ Hb Hu). apply Fields_key_line; assumption.
Qed.

Lemma no_newline_app a b : no_newline (a ++ b) = no_newline a && no_newline b.
Proof. unfold no_newline. rewrite list_ascii_app. apply forallb_app. Qed.

Lemma blank_no_newline indent : blank indent = true -> no_newline indent = true.
Proof.
  unfold blank, no_newline. induction (list_ascii_of_string indent) as [|c l IH];
    [reflexivity|].
  cbn [forallb]. intros H. apply andb_prop in H as [Hc H]. rewrite (IH H).
  apply Ascii.eqb_eq in Hc. subst c. reflexivity.
Qed.

Lemma spaceless_no_newline uuid : spaceless uuid = true -> no_newline uuid = true.
Proof.
  intros Hs. unfold no_newline. apply forallb_forall. intros x Hin.
  apply negb_true_iff. destruct (Ascii.eqb_spec x bufio.newline) as [->|]; [|reflexivity].
  pose proof (no_ascii_space _ (spaceless_Forall _ Hs) bufio.newline Hin) as H.
  discriminate H. reflexivity.
Qed.

Lemma raw_lines_single line :
  line <> "" -> no_newline line = true -> bufio.raw_lines "" line = [line].
Proof.
  intros Hne Hn.
  destruct (raw_lines_no_newline "" line "" Hn) as (cur' & H & Hr).
  rewrite append_nil_r in H. rewrite H.
  change (rev_string "") with "" in Hr. rewrite append_nil_l in Hr.
  cbn [bufio.raw_lines]. destruct (String.eqb_spec cur' "") as [->|_].
  - exfalso. apply Hne. symmetry. exact Hr.
  - rewrite Hr. reflexivity.
Qed.

Lemma dropCR_quote s : bufio.dropCR (s ++ quote_s) = s ++ quote_s.
Proof.
  unfold bufio.dropCR, rev_string.
  rewrite list_ascii_of_string_of_list_ascii, list_ascii_app, rev_app_distr.
  reflexivity.
Qed.

(** X18: The identifier of a well-formed line is returned as it stands: for an
    identifier that is not empty and has no quote and no white space in
    it, the line [  "IOPlatformUUID" = "<identifier>"], indented by any
    number of blanks and short enough for the scanner, resolves to that
    identifier. *)
Theorem GetHostIOPlatformUUID_key_line (indent uuid : string) :
  blank indent = true ->
  uuid <> "" -> unquoted uuid = true -> spaceless uuid = true ->
  String.length (key_line indent uuid) < bufio.MaxScanTokenSize ->
  GetHostIOPlatformUUID (Ok (key_line indent uuid)) = Ok uuid.
Proof.
  intros Hb Hne Hu Hs Hlen. unfold GetHostIOPlatformUUID, parseIOPlatformUUID.
  rewrite raw_lines_single.
  - cbn [scan_loop]. unfold bufio.token.
    destruct (Nat.leb_spec bufio.MaxScanTokenSize (String.length (key_line indent uuid)));
      [lia|].
    assert (Hd : bufio.dropCR (key_line indent uuid) = key_line indent uuid).
    { unfold key_line. rewrite <- !append_assoc. apply dropCR_quote. }
    rewrite Hd, (match_key_line indent uuid Hb Hne Hu Hs). reflexivity.
  - unfold key_line. intros H. apply (f_equal String.length) in H.
    rewrite !append_length in H. simpl in H. lia.
  - unfold key_line. rewrite !no_newline_app.
    rewrite (blank_no_newline _ Hb), (spaceless_no_newline _ Hs). reflexivity.
Qed.

Lemma GetHostIOPlatformUUID_key_line_witness :
  GetHostIOPlatformUUID (Ok (key_line "        " "ABCD1234-5678-90EF-GHIJ-KLMNOPQRSTUV"))
  = Ok "ABCD1234-5678-90EF-GHIJ-KLMNOPQRSTUV".
Proof.
  apply (GetHostIOPlatformUUID_key_line "        " "ABCD1234-5678-90EF-GHIJ-KLMNOPQRSTUV").
  - reflexivity.
  - discriminate.
  - vm_compute. reflexivity.
  - vm_compute. reflexivity.
  - apply Nat.ltb_lt. vm_compute. reflexivity.
Defined.

(** ** The archive the watchdog leaves *)

Lemma runSysdiagnose_Ok_file e args w w' :
  runSysdiagnose e args w = (Ok tt, w') ->
  exists i,
    os.Stat (outputPath args (now e)) w' = Some (NFile os.perm_0400 i)
    /\ forall data, exec.written (sysdiagnose.run (collect e)) = Some data ->
                    store w' !! i = Some data.
Proof.
  unfold runSysdiagnose, bind, ret.
  destruct (os.MkdirAll _ _ _ w) as [[[]|m] w1]; [|discriminate].
  destruct (sysdiagnose.Collect _ _ w1) as [[h|m] w2] eqn:Ec; [|discriminate].
  unfold defer, emit. cbn [is_ok fst snd].
  match goal with
  | |- context [persist e ?p ?h ?w3] => destruct (persist e p h w3) as [[[]|m] w4] eqn:Ep
  end; [|discriminate].
  intros [= <-]. exists (next_ino w2). split.
  - rewrite (Stat_names _ w4) by apply Close_names.
    apply (persist_Ok_entry _ _ _ _ _ Ep).
  - intros data Hw.
    pose proof (Collect_stream (collect e) ("sysdiagnose_" ++ Format (now e)) w1 data Hw)
      as Hc.
    rewrite Ec in Hc. destruct Hc as (-> & Hs2 & Ho2 & Hi2).
    match type of Ep with
    | persist _ ?p _ ?w3 = _ =>
        pose proof (persist_Ok e p (next_ino w1) data w3 w4) as Hp
    end.
    cbn [opened store next_ino] in Hp.
    destruct Hp as (_ & _ & Hdata & _); [| | |exact Ep|].
    + rewrite Ho2. apply elem_of_union_l, elem_of_singleton. reflexivity.
    + rewrite Hs2. apply lookup_insert_eq.
    + rewrite Hi2. lia.
    + cbn [os.Close snd store]. exact Hdata.
Qed.

Lemma monitor_loop_Ok_file a ws w w' :
  monitor_loop a ws w = (Returned (Ok tt), w') ->
  exists t i,
    In (TimerFired t) ws
    /\ is_err (checkIMDS (probe t)) = true
    /\ os.Stat (outputPath a (now (sys t))) w' = Some (NFile os.perm_0400 i)
    /\ forall data, exec.written (sysdiagnose.run (collect (sys t))) = Some data ->
                    store w' !! i = Some data.
Proof.
  revert w. induction ws as [|[|t] ws IH]; intros w; cbn [monitor_loop];
    try discriminate.
  unfold bind at 1.
  destruct (checkNetworkAndCollect t a w) as [[[]|m] w1] eqn:E.
  - intros [= <-]. revert E. unfold checkNetworkAndCollect, bind at 1, runCheckIMDS, bind at 1.
    unfold emit at 1, ret at 1.
    destruct (checkIMDS (probe t)) as [[]|m] eqn:Hp; [discriminate|].
    unfold bind at 1.
    destruct (os.MkdirAll _ _ _ _) as [[[]|m1] w2]; [|discriminate].
    unfold bind.
    destruct (runSysdiagnose (sys t) a w2) as [[[]|m2] w3] eqn:Hs; [|discriminate].
    intros [= <-]. destruct (runSysdiagnose_Ok_file _ _ _ _ Hs) as (i & Hst & Hdata).
    exists t, i. split; [left; reflexivity|]. rewrite Hp. auto.
  - intros H. destruct (IH _ H) as (t' & i & Hin & Hrest).
    exists t', i. split; [right; exact Hin|exact Hrest].
  - intros H. destruct (IH _ H) as (t' & i & Hin & Hrest).
    exists t', i. split; [right; exact Hin|exact Hrest].
Qed.

(** X23: When the scheduler returns without error, there is a tick of the
    run whose probe failed and whose archive is on disk: the file at that
    tick's output path, in the directory the scheduler was given, has mode
    [0400] and holds the bytes the collector wrote on that tick. *)
Theorem watchdog_archive_on_disk (startup : bool) (wakeups : list wakeup)
    (args : networkHealthMonitorArgs) (w w' : World) :
  runNetworkHealthMonitor startup wakeups args w = (Returned (Ok tt), w') ->
  exists t i,
    In (TimerFired t) wakeups
    /\ is_err (checkIMDS (probe t)) = true
    /\ os.Stat (outputPath (mkSysArgs (baseDir args) (sysdiagnoseTimeout args))
                  (now (sys t))) w'
       = Some (NFile os.perm_0400 i)
    /\ forall data, exec.written (sysdiagnose.run (collect (sys t))) = Some data ->
                    store w' !! i = Some data.
Proof.
  unfold runNetworkHealthMonitor. destruct startup; cbn [negb]; [|discriminate].
  apply monitor_loop_Ok_file.
Qed.

Lemma watchdog_archive_on_disk_witness :
  let w' := snd (runNetworkHealthMonitor true [TimerFired healthy_tick; TimerFired outage_tick]
                   default_args host_world) in
  exists t i,
    In (TimerFired t) [TimerFired healthy_tick; TimerFired outage_tick]
    /\ is_err (checkIMDS (probe t)) = true
    /\ os.Stat (outputPath (mkSysArgs (baseDir default_args)
                              (sysdiagnoseTimeout default_args)) (now (sys t))) w'
       = Some (NFile os.perm_0400 i)
    /\ forall data, exec.written (sysdiagnose.run (collect (sys t))) = Some data ->
                    store w' !! i = Some data.
Proof.
  intros w'.
  assert (Hrun : runNetworkHealthMonitor true
                   [TimerFired healthy_tick; TimerFired outage_tick]
                   default_args host_world = (Returned (Ok tt), w'))
    by (vm_compute; reflexivity).
  exact (watchdog_archive_on_disk true [TimerFired healthy_tick; TimerFired outage_tick]
           default_args host_world w' Hrun).
Defined.

(** ** The name of the output file *)

Lemma Format_length t : String.length (Format t) = 15.
Proof.
  unfold Format. rewrite !append_length, !zero_pad_length. reflexivity.
Qed.

(** X24: The output file of [runSysdiagnose] is the entry
    [sysdiagnose_<time stamp>.tar.gz] of the output directory, with a time
    stamp of fifteen bytes, and its name is one that the pattern
    [sysdiagnose_*.tar.gz], by which [RunE] looks for earlier captures,
    matches. *)
Theorem outputPath_matches_pattern (args : sysdiagnoseArgs) (t : Time) :
  Dir (outputPath args t) = Clean (outputDir args)
  /\ Base (outputPath args t) = ("sysdiagnose_" ++ Format t) ++ ".tar.gz"
  /\ String.length (Format t) = 15
  /\ Match "sysdiagnose_*.tar.gz" (Base (outputPath args t)) = Ok true.
Proof.
  split; [|split; [apply Base_outputPath|split; [apply Format_length|]]].
  - assert (Hn : noslash ("sysdiagnose_" ++ Format t)).
    { apply noslash_app; [repeat constructor|apply Format_noslash]. }
    pose proof (plain_tar_gz _ Hn) as Hp.
    unfold outputPath. destruct (String.eqb_spec (outputDir args) "") as [E|Hne].
    + rewrite E. cbn [Join String.eqb].
      destruct (String.eqb_spec (("sysdiagnose_" ++ Format t) ++ ".tar.gz") "") as [E'|_];
        [destruct Hp as (_ & Hp & _); contradiction|].
      cbn [join]. destruct Hp as (Hp1 & Hp2 & _).
      rewrite (Clean_noslash _ Hp1 Hp2).
      rewrite <- (append_nil_l (_ ++ ".tar.gz")) at 1.
      rewrite Dir_app; [reflexivity|left; reflexivity|assumption].
    + destruct (Join_plain _ _ Hne Hp) as (l & _ & -> & Hc & ->).
      apply Dir_render, Hc.
  - rewrite Base_outputPath. apply (archive_name_matches _ (archive_name_Format t)).
Qed.
